(** * Parallel execution plan (core/framework/parallel_execution_plan.cc)

    A shallow embedding of the planner ([ParallelExecutionPlanImpl]'s
    constructor), of the logic-stream interpreter ([LogicStream::Run],
    [~LogicStream]), of the execution context and of [Execute], followed
    by the properties of the plan that the design document states. *)

From stdpp Require Import gmap strings list fin_maps.

(** ** Failure of the planner and of a running command

    [ORT_ENFORCE] throws; a null or out-of-range access is undefined
    behaviour.  Both end the computation, and the embedding keeps which
    one it was. *)

Inductive Failure :=
  | NullNode                 (* GetNode returned nullptr and was dereferenced *)
  | NullProvider             (* ExecutionProviders::Get returned nullptr *)
  | NullStream               (* a null Stream* was dereferenced *)
  | EnforceCreateStreamFn    (* ORT_ENFORCE(create_stream_fn) *)
  | EnforceStreamFound       (* ORT_ENFORCE(stream_it != streams.end()) *)
  | EnforceNotificationFound (* ORT_ENFORCE(notfication_it != node_to_notification.end()) *)
  | EnforceKernel            (* ORT_ENFORCE(p_kernel->Compute(..).IsOK(), "kernel fail!") *)
  | OutOfRange               (* index outside an array or a vector *)
  | Indeterminate.           (* read of an array cell that was never written *)

Inductive Result (A : Type) :=
  | Ok (a : A)
  | Fail (e : Failure).
Arguments Ok {A} a.
Arguments Fail {A} e.

#[global] Instance Result_ret : MRet Result := @Ok.
#[global] Instance Result_bind : MBind Result := λ A B f r,
  match r with
  | Ok a => f a
  | Fail e => Fail e
  end.

Definition expect {A} (e : Failure) (o : option A) : Result A :=
  match o with
  | Some a => Ok a
  | None => Fail e
  end.

(** A [for] loop over a container whose body may throw. *)
Fixpoint foldM {A B} (f : A → B → Result A) (l : list B) (a : A) : Result A :=
  match l with
  | [] => Ok a
  | x :: l' => a' ← f a x; foldM f l' a'
  end.

(** ** Collaborators: graph view, providers, registry *)

Abbreviation NodeIndex := nat (only parsing).
Abbreviation ProviderType := string (only parsing).
(** [const IExecutionProvider*]: the identity of a provider instance. *)
Abbreviation EP := nat (only parsing).
Abbreviation StreamHandle := nat (only parsing).
Abbreviation NotificationIndex := nat (only parsing).

Record Node := {
  Index : NodeIndex;
  OpType : string;
  InputNodes : list NodeIndex;    (* InputNodesBegin .. InputNodesEnd, by index *)
  OutputNodes : list NodeIndex;   (* OutputNodesBegin .. OutputNodesEnd, by index *)
  GetExecutionProviderType : ProviderType
}.

Record GraphViewer := {
  GetNodesInTopologicalOrder : list NodeIndex;
  GetNode : NodeIndex → option Node;
  MaxNodeIndex : nat
}.

(** The stream-handle registry.  [create_stream_fn()] returns a fresh
    handle; the argument is the number of streams created so far. *)
Record StreamHandleRegistry := {
  GetCreateStreamFn : ProviderType → option (nat → StreamHandle)
}.

Record SessionState := {
  GetGraphViewer : GraphViewer;
  (* GetExecutionProviders().Get(type) *)
  Get : ProviderType → option EP;
  (* IExecutionProvider::Type() *)
  Type_ : EP → ProviderType;
  registry : StreamHandleRegistry
}.

(** ** Streams, commands, plan *)

Record Stream := {
  handle : StreamHandle;
  provider : EP
}.

(** [Stream*]: the [Stream] owned by
    [logic_streams_[i]->device_streams_[j]] is addressed by [(i, j)]. *)
Abbreviation StreamPtr := (nat * nat)%type (only parsing).

(** What [GetWaitHandle (owner, consumer_type)] was asked for. *)
Record WaitHandle := {
  wait_owner : option StreamPtr;
  wait_consumer : ProviderType
}.

(** A command is a closure; the embedding keeps its captures. *)
Inductive Command :=
  | WaitCmd (wait_handle : WaitHandle) (cur_stream : option StreamPtr)
            (notification_index : NotificationIndex)
  | ComputeCmd (node_index : NodeIndex)
  | NotifyCmd (notify_handle : StreamPtr) (notification_index : NotificationIndex).

Record LogicStream := {
  device_streams_ : list Stream;
  commands_ : list Command
}.

Definition empty_logic_stream : LogicStream :=
  {| device_streams_ := []; commands_ := [] |}.

Definition push_device_stream (s : Stream) (ls : LogicStream) : LogicStream :=
  {| device_streams_ := device_streams_ ls ++ [s]; commands_ := commands_ ls |}.

Definition push_command (c : Command) (ls : LogicStream) : LogicStream :=
  {| device_streams_ := device_streams_ ls; commands_ := commands_ ls ++ [c] |}.

(** [std::find_if] over the device streams with the predicate
    [stream->provider == ep]: position of the first match. *)
Fixpoint find_stream (ep : EP) (streams : list Stream) : option nat :=
  match streams with
  | [] => None
  | s :: rest =>
      if decide (provider s = ep) then Some 0
      else S <$> find_stream ep rest
  end.

(** [std::find(v.begin(), v.end(), x) == v.end()] *)
Definition not_found (x : NodeIndex) (v : list NodeIndex) : bool :=
  bool_decide (x ∉ v).

Module Planner.

(** *** Pass 1: partition the nodes into streams *)

Record Partition := {
  nodes_in_stream : list (list NodeIndex);
  node_stream_map : list (option nat);   (* new size_t[MaxNodeIndex()] *)
  stream_iter : nat
}.

Definition partition_init (K max_node_index : nat) : Partition :=
  {| nodes_in_stream := replicate K [];
     node_stream_map := replicate max_node_index None;
     stream_iter := 0 |}.

Definition partition_step (g : GraphViewer) (K : nat) (p : Partition)
    (node_index : NodeIndex) : Result Partition :=
  nodes ← expect OutOfRange (nodes_in_stream p !! stream_iter p);
  (* streams_stdout[stream_iter].push_back(GetNode(node_index)->OpType()) *)
  _ ← expect NullNode (GetNode g node_index);
  if decide (node_index < length (node_stream_map p)) then
    Ok {| nodes_in_stream :=
            <[stream_iter p := nodes ++ [node_index]]> (nodes_in_stream p);
          node_stream_map :=
            <[node_index := Some (stream_iter p)]> (node_stream_map p);
          stream_iter := (stream_iter p + 1) mod K |}
  else Fail OutOfRange.

Definition partition (g : GraphViewer) (K : nat) : Result Partition :=
  foldM (partition_step g K) (GetNodesInTopologicalOrder g)
        (partition_init K (MaxNodeIndex g)).

(** [node_stream_map[node_index]] *)
Definition stream_of (p : Partition) (node_index : NodeIndex) : Result nat :=
  cell ← expect OutOfRange (node_stream_map p !! node_index);
  expect Indeterminate cell.

(** *** Pass 2: notification discovery *)

Record Notifications := {
  node_to_notification : gmap NodeIndex NotificationIndex;
  num_notifications : nat
}.

Definition discover_node (g : GraphViewer) (nodes : list NodeIndex)
    (n : Notifications) (node_index : NodeIndex) : Result Notifications :=
  node ← expect NullNode (GetNode g node_index);
  if existsb (λ out, not_found out nodes) (OutputNodes node) then
    Ok {| node_to_notification :=
            <[node_index := num_notifications n]> (node_to_notification n);
          num_notifications := S (num_notifications n) |}
  else Ok n.

Definition discover (g : GraphViewer) (K : nat) (p : Partition)
  : Result Notifications :=
  foldM (λ n i,
           nodes ← expect OutOfRange (nodes_in_stream p !! i);
           foldM (discover_node g nodes) nodes n)
        (seq 0 K)
        {| node_to_notification := ∅; num_notifications := 0 |}.

(** *** Pass 3: bind the nodes of each logic stream to device streams *)

Record Binding := {
  logic_streams_ : list LogicStream;
  node_to_stream_map_ : gmap NodeIndex (option StreamPtr);
  streams_created : nat
}.

Definition lookup_stream (ss : SessionState) (p : Partition)
    (streams : list LogicStream) (node_index : NodeIndex) (ep : EP)
  : Result StreamPtr :=
  s ← stream_of p node_index;
  ls ← expect OutOfRange (streams !! s);
  j ← expect EnforceStreamFound (find_stream ep (device_streams_ ls));
  Ok (s, j).

Definition bind_node (ss : SessionState) (p : Partition) (i : nat)
    (st : gset EP * Binding) (node_index : NodeIndex)
  : Result (gset EP * Binding) :=
  let '(providers, b) := st in
  node ← expect NullNode (GetNode (GetGraphViewer ss) node_index);
  ep ← expect NullProvider (Get ss (GetExecutionProviderType node));
  '(providers, b) ←
    (if decide (ep ∈ providers) then Ok (providers, b)
     else
       create_stream_fn ← expect EnforceCreateStreamFn
                            (GetCreateStreamFn (registry ss) (Type_ ss ep));
       _ ← expect OutOfRange (logic_streams_ b !! i);
       Ok ({[ep]} ∪ providers,
           {| logic_streams_ :=
                alter (push_device_stream
                         {| handle := create_stream_fn (streams_created b);
                            provider := ep |})
                      i (logic_streams_ b);
              node_to_stream_map_ := node_to_stream_map_ b;
              streams_created := S (streams_created b) |}));
  ptr ← lookup_stream ss p (logic_streams_ b) node_index ep;
  Ok (providers,
      {| logic_streams_ := logic_streams_ b;
         node_to_stream_map_ := <[node_index := Some ptr]> (node_to_stream_map_ b);
         streams_created := streams_created b |}).

Definition bind_streams (ss : SessionState) (K : nat) (p : Partition)
    (streams : list LogicStream) : Result Binding :=
  foldM (λ b i,
           nodes ← expect OutOfRange (nodes_in_stream p !! i);
           st ← foldM (bind_node ss p i) nodes (∅, b);
           Ok st.2)
        (seq 0 K)
        {| logic_streams_ := streams;
           node_to_stream_map_ := ∅;
           streams_created := 0 |}.

(** *** Pass 4: notification owners *)

Definition set_owner (ss : SessionState) (p : Partition) (n : Notifications)
    (b : Binding) (owners : list (option StreamPtr)) (node_index : NodeIndex)
  : Result (list (option StreamPtr)) :=
  match node_to_notification n !! node_index with
  | None => Ok owners
  | Some id =>
      node ← expect NullNode (GetNode (GetGraphViewer ss) node_index);
      (* a null [ep] is only compared with the providers of the streams *)
      ep ← expect EnforceStreamFound (Get ss (GetExecutionProviderType node));
      ptr ← lookup_stream ss p (logic_streams_ b) node_index ep;
      if decide (id < length owners) then Ok (<[id := Some ptr]> owners)
      else Fail OutOfRange
  end.

Definition set_owners (ss : SessionState) (p : Partition) (n : Notifications)
    (b : Binding) : Result (list (option StreamPtr)) :=
  foldM (set_owner ss p n b)
        (GetNodesInTopologicalOrder (GetGraphViewer ss))
        (replicate (num_notifications n) None).

(** *** Pass 5: commands *)

Definition push (i : nat) (c : Command) (streams : list LogicStream)
  : Result (list LogicStream) :=
  _ ← expect OutOfRange (streams !! i);
  Ok (alter (push_command c) i streams).

(** [node_to_stream_map_[node_index]]: [operator[]] gives a null pointer
    for a key that is not there (and would add the key; pass 3 has
    entered every node that pass 5 visits, see [plan_bound]). *)
Definition cur_stream_of (m : gmap NodeIndex (option StreamPtr))
    (node_index : NodeIndex) : option StreamPtr :=
  default None (m !! node_index).

Definition emit_wait (n : Notifications) (owners : list (option StreamPtr))
    (m : gmap NodeIndex (option StreamPtr)) (nodes : list NodeIndex) (i : nat)
    (node_index : NodeIndex) (node : Node)
    (streams : list LogicStream) (input : NodeIndex)
  : Result (list LogicStream) :=
  if not_found input nodes then
    id ← expect EnforceNotificationFound (node_to_notification n !! input);
    owner ← expect OutOfRange (owners !! id);
    push i (WaitCmd {| wait_owner := owner;
                       wait_consumer := GetExecutionProviderType node |}
                    (cur_stream_of m node_index) id)
         streams
  else Ok streams.

Definition emit_node (ss : SessionState) (n : Notifications)
    (owners : list (option StreamPtr)) (m : gmap NodeIndex (option StreamPtr))
    (nodes : list NodeIndex) (i : nat)
    (streams : list LogicStream) (node_index : NodeIndex)
  : Result (list LogicStream) :=
  node ← expect NullNode (GetNode (GetGraphViewer ss) node_index);
  streams ← foldM (emit_wait n owners m nodes i node_index node)
                  (InputNodes node) streams;
  ls ← expect OutOfRange (streams !! i);
  (* a null [ep] is only compared with the providers of the streams *)
  ep ← expect EnforceStreamFound (Get ss (GetExecutionProviderType node));
  j ← expect EnforceStreamFound (find_stream ep (device_streams_ ls));
  streams ← push i (ComputeCmd node_index) streams;
  match node_to_notification n !! node_index with
  | Some id => push i (NotifyCmd (i, j) id) streams
  | None => Ok streams
  end.

Definition emit (ss : SessionState) (K : nat) (p : Partition)
    (n : Notifications) (owners : list (option StreamPtr))
    (m : gmap NodeIndex (option StreamPtr)) (streams : list LogicStream)
  : Result (list LogicStream) :=
  foldM (λ streams i,
           nodes ← expect OutOfRange (nodes_in_stream p !! i);
           foldM (emit_node ss n owners m nodes i) nodes streams)
        (seq 0 K) streams.

(** *** The constructor *)

Record Plan := {
  plan_logic_streams : list LogicStream;
  plan_num_logic_streams : nat;
  plan_notification_owners : list (option StreamPtr);
  plan_node_to_stream_map : gmap NodeIndex (option StreamPtr);
  (* locals of the constructor, kept to state properties of the plan *)
  plan_partition : Partition;
  plan_notifications : Notifications
}.

Definition ParallelExecutionPlanImpl (ss : SessionState) (num_logic_streams : nat)
  : Result Plan :=
  (* instantiate logic streams *)
  let streams := replicate num_logic_streams empty_logic_stream in
  let g := GetGraphViewer ss in
  p ← partition g num_logic_streams;
  n ← discover g num_logic_streams p;
  b ← bind_streams ss num_logic_streams p streams;
  owners ← set_owners ss p n b;
  streams ← emit ss num_logic_streams p n owners
                 (node_to_stream_map_ b) (logic_streams_ b);
  Ok {| plan_logic_streams := streams;
        plan_num_logic_streams := num_logic_streams;
        plan_notification_owners := owners;
        plan_node_to_stream_map := node_to_stream_map_ b;
        plan_partition := p;
        plan_notifications := n |}.

Definition GetComputeStreamForNode (pl : Plan) (index : NodeIndex)
  : option StreamPtr :=
  match plan_node_to_stream_map pl !! index with
  | None => None
  | Some ptr => ptr
  end.

End Planner.

(** ** Running a plan *)

Module Exec.

Inductive Status :=
  | StatusOK
  | StatusError (code : nat) (msg : string).

Definition IsOK (s : Status) : bool :=
  match s with
  | StatusOK => true
  | StatusError _ _ => false
  end.

(** The handle that [create_notification_fn (owner->handle)] returns for
    the [serial]-th notification of a context. *)
Record NotificationHandle := {
  on_stream : StreamHandle;
  serial : nat
}.

Record Notification := {
  notification_handle : NotificationHandle;
  notification_provider : EP
}.

(** Calls into the registry and into kernels, in the order they happen. *)
Inductive Event :=
  | CreateNotification (owner : StreamPtr) (h : NotificationHandle)
  | ReleaseNotification (h : NotificationHandle)
  | Wait (wait_handle : WaitHandle) (cur_stream : option StreamPtr)
         (h : NotificationHandle)
  | Compute (node_index : NodeIndex)
  | Notify (notify_handle : StreamPtr) (h : NotificationHandle)
  | FlushStream (type : ProviderType) (h : StreamHandle)
  | ReleaseStream (type : ProviderType) (h : StreamHandle).

(** [*ptr] for a device stream of the plan. *)
Definition deref (streams : list LogicStream) (ptr : StreamPtr) : option Stream :=
  ls ← streams !! ptr.1; device_streams_ ls !! ptr.2.

Record ExecutionContext := {
  notifications : list (option Notification);   (* new Notification[size] *)
  notification_release_fns : list StreamPtr
}.

(** The constructor of [ExecutionContext]: the array is allocated with
    [notification_owners.size()] cells and filled from index 0. *)
Definition ExecutionContext_step (streams : list LogicStream)
    (owners : list (option StreamPtr))
    (st : ExecutionContext * list Event) (i : nat)
  : Result (ExecutionContext * list Event) :=
  let '(ctx, tr) := st in
  owner ← expect OutOfRange (owners !! i);
  ptr ← expect NullStream owner;
  s ← expect OutOfRange (deref streams ptr);
  let h := {| on_stream := handle s; serial := i |} in
  if decide (i < length (notifications ctx)) then
    Ok ({| notifications :=
             <[i := Some {| notification_handle := h;
                            notification_provider := provider s |}]>
               (notifications ctx);
           notification_release_fns := notification_release_fns ctx ++ [ptr] |},
        tr ++ [CreateNotification ptr h])
  else Fail OutOfRange.

Definition ExecutionContext_new (streams : list LogicStream)
    (owners : list (option StreamPtr))
  : Result (ExecutionContext * list Event) :=
  foldM (ExecutionContext_step streams owners) (seq 0 (length owners))
        ({| notifications := replicate (length owners) None;
            notification_release_fns := [] |}, []).

(** [ctx.notifications[notification_index].handle] *)
Definition notification_at (ctx : ExecutionContext) (i : NotificationIndex)
  : Result NotificationHandle :=
  cell ← expect OutOfRange (notifications ctx !! i);
  n ← expect Indeterminate cell;
  Ok (notification_handle n).

Section Run.
(** The execution frame and the kernels of the session. *)
Context {Frame : Type}.
Context (ss : SessionState).
Context (kernel_Compute : NodeIndex → Frame → Status * Frame).

Record World := {
  frame : Frame;
  trace : list Event
}.

Definition emit_event (e : Event) (w : World) : World :=
  {| frame := frame w; trace := trace w ++ [e] |}.

(** A command called on the context.  [GetKernel (node_index)] is taken
    to return the kernel of the node. *)
Definition run_command (ctx : ExecutionContext) (w : World) (c : Command)
  : Result World :=
  match c with
  | WaitCmd wait_handle cur_stream notification_index =>
      h ← notification_at ctx notification_index;
      Ok (emit_event (Wait wait_handle cur_stream h) w)
  | ComputeCmd node_index =>
      let '(status, fr) := kernel_Compute node_index (frame w) in
      if IsOK status then
        Ok {| frame := fr; trace := trace w ++ [Compute node_index] |}
      else Fail EnforceKernel
  | NotifyCmd notify_handle notification_index =>
      h ← notification_at ctx notification_index;
      Ok (emit_event (Notify notify_handle h) w)
  end.

(** [LogicStream::Run] *)
Definition Run (ls : LogicStream) (ctx : ExecutionContext) (w : World)
  : Result World :=
  w ← foldM (run_command ctx) (commands_ ls) w;
  Ok (foldl (λ w device_stream,
               emit_event (FlushStream (Type_ ss (provider device_stream))
                                       (handle device_stream)) w)
            w (device_streams_ ls)).

(** [LogicStream::~LogicStream] *)
Definition LogicStream_destroy (ls : LogicStream) (w : World) : World :=
  foldl (λ w device_stream,
           emit_event (ReleaseStream (Type_ ss (provider device_stream))
                                     (handle device_stream)) w)
        w (device_streams_ ls).
End Run.

End Exec.

(** ** [Execute]: the calling thread and the tasks of the inter-op pool

    One step is one action of one thread.  The variables [stream] and
    [barrier] of the scheduling loop live in the body of one iteration;
    the task scheduled there holds references to them ([[&]]).  [slot]
    is their storage, which every iteration writes again; [live] tells
    which iteration's variables exist.  A task that reads through its
    references when its iteration is over reads what the storage holds
    by then, and [dangling] records that it did. *)

Module Execute.

Inductive MainPC :=
  | LoopHead (i : nat)        (* for (int i = ..; i < num_logic_streams_-1; ++i) *)
  | Scheduling (i : nat)      (* stream and barrier initialised, before Schedule *)
  | Scheduled (i : nat)       (* after Schedule, before the end of the body *)
  | RunLast                   (* logic_streams_[num_logic_streams_-1]->Run *)
  | WaitLoop (i : nat)        (* barriers[i].wait() *)
  | Returned.

Inductive TaskPC :=
  | Pending                   (* in the queue of the pool *)
  | RanStream (s : nat)       (* stream->Run returned *)
  | Finished.                 (* barrier->set() returned *)

Record Task := {
  captured : nat;             (* the iteration whose variables the closure refers to *)
  pc : TaskPC
}.

Inductive Actor :=
  | MainThread
  | PoolTask (k : nat).

Record State := {
  main : MainPC;
  live : option nat;
  slot : nat * nat;                   (* storage of [stream] and [barrier] *)
  tasks : list Task;
  barriers : list bool;               (* Barrier::set_ *)
  runs : list (Actor * nat);          (* who ran which logic stream, in order *)
  dangling : bool
}.

Definition init (K : nat) : State :=
  {| main := LoopHead 0; live := None; slot := (0, 0); tasks := [];
     barriers := replicate (K - 1) false; runs := []; dangling := false |}.

Definition set_main (m : MainPC) (s : State) : State :=
  {| main := m; live := live s; slot := slot s; tasks := tasks s;
     barriers := barriers s; runs := runs s; dangling := dangling s |}.

Definition is_live (s : State) (i : nat) : bool :=
  bool_decide (live s = Some i).

Inductive step (K : nat) : State → State → Prop :=
  | step_enter s i :
      main s = LoopHead i → i < K - 1 →
      step K s {| main := Scheduling i; live := Some i; slot := (i, i);
                  tasks := tasks s; barriers := barriers s; runs := runs s;
                  dangling := dangling s |}
  | step_schedule s i :
      main s = Scheduling i →
      step K s {| main := Scheduled i; live := live s; slot := slot s;
                  tasks := tasks s ++ [{| captured := i; pc := Pending |}];
                  barriers := barriers s; runs := runs s;
                  dangling := dangling s |}
  | step_leave s i :
      main s = Scheduled i →
      step K s {| main := LoopHead (S i); live := None; slot := slot s;
                  tasks := tasks s; barriers := barriers s; runs := runs s;
                  dangling := dangling s |}
  | step_exit s i :
      main s = LoopHead i → ¬ i < K - 1 →
      step K s (set_main RunLast s)
  | step_run_last s :
      main s = RunLast →
      step K s {| main := WaitLoop 0; live := live s; slot := slot s;
                  tasks := tasks s; barriers := barriers s;
                  runs := runs s ++ [(MainThread, K - 1)];
                  dangling := dangling s |}
  | step_wait s i :
      main s = WaitLoop i → i < K - 1 → barriers s !! i = Some true →
      step K s (set_main (WaitLoop (S i)) s)
  | step_return s i :
      main s = WaitLoop i → ¬ i < K - 1 →
      step K s (set_main Returned s)
  | step_task_run s k t :
      (* stream->Run(execution_context) *)
      tasks s !! k = Some t → pc t = Pending →
      step K s {| main := main s; live := live s; slot := slot s;
                  tasks := <[k := {| captured := captured t;
                                     pc := RanStream (slot s).1 |}]> (tasks s);
                  barriers := barriers s;
                  runs := runs s ++ [(PoolTask k, (slot s).1)];
                  dangling := dangling s || negb (is_live s (captured t)) |}
  | step_task_set s k t r :
      (* barrier->set() *)
      tasks s !! k = Some t → pc t = RanStream r →
      step K s {| main := main s; live := live s; slot := slot s;
                  tasks := <[k := {| captured := captured t; pc := Finished |}]>
                             (tasks s);
                  barriers := <[(slot s).2 := true]> (barriers s);
                  runs := runs s;
                  dangling := dangling s || negb (is_live s (captured t)) |}.

Definition reachable (K : nat) (s : State) : Prop := rtc (step K) (init K) s.

(** What holds in every state [Execute] can be in. *)
Record execute_inv (K : nat) (s : State) : Prop := {
  ei_barriers : length (barriers s) = K - 1;
  ei_waited : ∀ i j, main s = WaitLoop i → j < i → barriers s !! j = Some true;
  ei_returned : main s = Returned →
    ∀ j, j < K - 1 → barriers s !! j = Some true
}.

(** The tasks follow the scheduling loop, and the storage of the loop
    variables holds the values of the live iteration. *)
Record tasks_inv (s : State) : Prop := {
  ti_captured : ∀ k t, tasks s !! k = Some t → captured t = k;
  ti_head : ∀ i, main s = LoopHead i → length (tasks s) = i;
  ti_scheduling : ∀ i, main s = Scheduling i → length (tasks s) = i;
  ti_scheduled : ∀ i, main s = Scheduled i → length (tasks s) = S i;
  ti_live : ∀ i, live s = Some i → slot s = (i, i);
  ti_runs : dangling s = false →
    ∀ k r, (PoolTask k, r) ∈ runs s → r = k
}.

End Execute.

(** ** Scenarios of the design document *)

Module Scenario.

Definition mk_node (i : NodeIndex) (ins outs : list NodeIndex) (t : ProviderType)
  : Node :=
  {| Index := i; OpType := "Op"; InputNodes := ins; OutputNodes := outs;
     GetExecutionProviderType := t |}.

Definition graph_of (nodes : list Node) : GraphViewer :=
  {| GetNodesInTopologicalOrder := Index <$> nodes;
     GetNode := λ i, nodes !! i;
     MaxNodeIndex := length nodes |}.

Definition session_of (nodes : list Node) : SessionState :=
  {| GetGraphViewer := graph_of nodes;
     Get := λ t, if decide (t = "cpu") then Some 0
                 else if decide (t = "gpu") then Some 1 else None;
     Type_ := λ ep, if decide (ep = 0) then "cpu" else "gpu";
     registry := {| GetCreateStreamFn := λ _, Some (λ k, k) |} |}.

(** A(cpu) → B(gpu) → C(cpu) *)
Definition chain3 : list Node :=
  [ mk_node 0 [] [1] "cpu"; mk_node 1 [0] [2] "gpu"; mk_node 2 [1] [] "cpu" ].

(** Diamond A → B, A → C, B → D, C → D on one provider. *)
Definition diamond : list Node :=
  [ mk_node 0 [] [1; 2] "cpu"; mk_node 1 [0] [3] "cpu";
    mk_node 2 [0] [3] "cpu"; mk_node 3 [1; 2] [] "cpu" ].

(** Linear chain A → B → C → D on one provider. *)
Definition chain4 : list Node :=
  [ mk_node 0 [] [1] "cpu"; mk_node 1 [0] [2] "cpu";
    mk_node 2 [1] [3] "cpu"; mk_node 3 [2] [] "cpu" ].

(** A logic stream that owns a CPU and a GPU device stream. *)
Definition two_device_streams : LogicStream :=
  {| device_streams_ := [ {| handle := 0; provider := 0 |};
                          {| handle := 1; provider := 1 |} ];
     commands_ := [ComputeCmd 0; ComputeCmd 1; ComputeCmd 2] |}.

End Scenario.

(** ** What each pass establishes *)

Module Inv.
Import Planner.

(** What round robin leaves behind once [topo] has been distributed. *)
Record partition_ok (K : nat) (topo : list NodeIndex) (p : Partition) : Prop := {
  po_length : length (nodes_in_stream p) = K;
  po_slot : ∀ s l q, nodes_in_stream p !! s = Some l →
              l !! q = topo !! (q * K + s);
  po_perm : concat (nodes_in_stream p) ≡ₚ topo;
  po_map : ∀ i x, topo !! i = Some x → stream_of p x = Ok (i mod K);
  po_iter : stream_iter p = length topo mod K
}.

(** The test of pass 2 on one node of a stream. *)
Definition crosses (g : GraphViewer) (nodes : list NodeIndex) (x : NodeIndex)
  : bool :=
  match GetNode g x with
  | Some node => existsb (λ out, not_found out nodes) (OutputNodes node)
  | None => false
  end.

(** The nodes that get a notification, in the order pass 2 meets them. *)
Definition producers (g : GraphViewer) (nis : list (list NodeIndex))
  : list NodeIndex :=
  concat ((λ nodes, filter (λ x, crosses g nodes x) nodes) <$> nis).

Record notifications_ok (prods : list NodeIndex) (n : Notifications) : Prop := {
  no_num : num_notifications n = length prods;
  no_map : ∀ x id, node_to_notification n !! x = Some id ↔ prods !! id = Some x
}.

(** The provider instance a node resolves to. *)
Definition node_ep (ss : SessionState) (x : NodeIndex) : option EP :=
  node ← GetNode (GetGraphViewer ss) x;
  Get ss (GetExecutionProviderType node).

Record binding_ok (ss : SessionState) (K : nat) (p : Partition)
    (visited : list NodeIndex) (b : Binding) : Prop := {
  bo_length : length (logic_streams_ b) = K;
  bo_commands : ∀ i ls, logic_streams_ b !! i = Some ls → commands_ ls = [];
  bo_bound : ∀ x, x ∈ visited →
    ∃ ep ptr, node_ep ss x = Some ep ∧
              lookup_stream ss p (logic_streams_ b) x ep = Ok ptr ∧
              node_to_stream_map_ b !! x = Some (Some ptr);
  bo_unbound : ∀ x, x ∉ visited → node_to_stream_map_ b !! x = None
}.

(** The per-stream set [providers] mirrors the device streams of the
    stream under construction. *)
Definition providers_ok (i : nat) (providers : gset nat) (b : Binding) : Prop :=
  ∃ ls, logic_streams_ b !! i = Some ls ∧
        ∀ ep, ep ∈ providers ↔ is_Some (find_stream ep (device_streams_ ls)).

Definition later_empty (i : nat) (b : Binding) : Prop :=
  ∀ j ls, i ≤ j → logic_streams_ b !! j = Some ls → device_streams_ ls = [].

(** The graph view and the session as the planner expects them: the
    topological order lists every node once, every listed node exists,
    its provider is registered and can create streams, and the input
    and output iterators of the nodes mirror each other inside the
    view. *)
Record well_formed (ss : SessionState) : Prop := {
  wf_NoDup : NoDup (GetNodesInTopologicalOrder (GetGraphViewer ss));
  wf_bound : ∀ x, x ∈ GetNodesInTopologicalOrder (GetGraphViewer ss) →
    x < MaxNodeIndex (GetGraphViewer ss);
  wf_node : ∀ x, x ∈ GetNodesInTopologicalOrder (GetGraphViewer ss) →
    is_Some (GetNode (GetGraphViewer ss) x);
  wf_provider : ∀ x node,
    x ∈ GetNodesInTopologicalOrder (GetGraphViewer ss) →
    GetNode (GetGraphViewer ss) x = Some node →
    ∃ ep, Get ss (GetExecutionProviderType node) = Some ep ∧
          is_Some (GetCreateStreamFn (registry ss) (Type_ ss ep));
  wf_inputs : ∀ x node u,
    x ∈ GetNodesInTopologicalOrder (GetGraphViewer ss) →
    GetNode (GetGraphViewer ss) x = Some node → u ∈ InputNodes node →
    u ∈ GetNodesInTopologicalOrder (GetGraphViewer ss) ∧
    ∃ unode, GetNode (GetGraphViewer ss) u = Some unode ∧ x ∈ OutputNodes unode;
  wf_outputs : ∀ x node v,
    x ∈ GetNodesInTopologicalOrder (GetGraphViewer ss) →
    GetNode (GetGraphViewer ss) x = Some node → v ∈ OutputNodes node →
    v ∈ GetNodesInTopologicalOrder (GetGraphViewer ss) ∧
    ∃ vnode, GetNode (GetGraphViewer ss) v = Some vnode ∧ x ∈ InputNodes vnode
}.

(** Pass 4: the owner of a notification is the device stream recorded
    for the node that produces it. *)
Record owners_ok (n : Notifications) (b : Binding)
    (visited : list NodeIndex) (owners : list (option StreamPtr)) : Prop := {
  oo_length : length owners = num_notifications n;
  oo_owner : ∀ x id, x ∈ visited → node_to_notification n !! x = Some id →
    owners !! id = node_to_stream_map_ b !! x
}.

(** Pass 5 on one in-edge of a node: the wait command, if there is one. *)
Definition wait_for (n : Notifications) (owners : list (option StreamPtr))
    (m : gmap NodeIndex (option StreamPtr)) (nodes : list NodeIndex)
    (node_index : NodeIndex) (node : Node) (input : NodeIndex)
  : option Command :=
  if not_found input nodes then
    id ← node_to_notification n !! input;
    owner ← owners !! id;
    Some (WaitCmd {| wait_owner := owner;
                     wait_consumer := GetExecutionProviderType node |}
                  (cur_stream_of m node_index) id)
  else None.

(** The notify command of a node, if it has a notification. *)
Definition notify_for (ss : SessionState) (n : Notifications)
    (devs : list Stream) (i : nat) (node_index : NodeIndex) : list Command :=
  match node_to_notification n !! node_index,
        node_ep ss node_index ≫= λ ep, find_stream ep devs with
  | Some id, Some j => [NotifyCmd (i, j) id]
  | _, _ => []
  end.

(** The commands pass 5 pushes for one node of stream [i]. *)
Definition node_commands (ss : SessionState) (n : Notifications)
    (owners : list (option StreamPtr)) (m : gmap NodeIndex (option StreamPtr))
    (devs : list Stream) (nodes : list NodeIndex) (i : nat)
    (node_index : NodeIndex) : list Command :=
  match GetNode (GetGraphViewer ss) node_index with
  | Some node =>
      omap (wait_for n owners m nodes node_index node) (InputNodes node)
      ++ ComputeCmd node_index :: notify_for ss n devs i node_index
  | None => []
  end.

Definition stream_commands (ss : SessionState) (n : Notifications)
    (owners : list (option StreamPtr)) (m : gmap NodeIndex (option StreamPtr))
    (devs : list Stream) (nodes : list NodeIndex) (i : nat) : list Command :=
  concat (node_commands ss n owners m devs nodes i <$> nodes).

Definition push_commands (cs : list Command) (ls : LogicStream) : LogicStream :=
  {| device_streams_ := device_streams_ ls; commands_ := commands_ ls ++ cs |}.

(** The logic streams once pass 5 has run: the device streams of pass 3
    and, per stream, the commands of its nodes in the stream's order. *)
Definition emitted (ss : SessionState) (K : nat) (p : Partition)
    (n : Notifications) (b : Binding) (owners : list (option StreamPtr))
    (streams : list LogicStream) : Prop :=
  length streams = K ∧
  ∀ i ls0 nodes,
    logic_streams_ b !! i = Some ls0 → nodes_in_stream p !! i = Some nodes →
    streams !! i =
    Some {| device_streams_ := device_streams_ ls0;
            commands_ := stream_commands ss n owners (node_to_stream_map_ b)
                           (device_streams_ ls0) nodes i |}.

(** A plan as the five passes leave it; [b] is the state after pass 3. *)
Record plan_ok (ss : SessionState) (K : nat) (b : Binding) (pl : Plan)
  : Prop := {
  pk_num : plan_num_logic_streams pl = K;
  pk_partition :
    partition_ok K (GetNodesInTopologicalOrder (GetGraphViewer ss))
      (plan_partition pl);
  pk_notifications :
    notifications_ok
      (producers (GetGraphViewer ss) (nodes_in_stream (plan_partition pl)))
      (plan_notifications pl);
  pk_binding :
    binding_ok ss K (plan_partition pl)
      (concat (nodes_in_stream (plan_partition pl))) b;
  pk_map : plan_node_to_stream_map pl = node_to_stream_map_ b;
  pk_owners :
    owners_ok (plan_notifications pl) b
      (GetNodesInTopologicalOrder (GetGraphViewer ss))
      (plan_notification_owners pl);
  pk_emitted :
    emitted ss K (plan_partition pl) (plan_notifications pl) b
      (plan_notification_owners pl) (plan_logic_streams pl)
}.

(** [well_formed], decided by running over the view. *)
Definition check_mirror (g : GraphViewer) (x : NodeIndex)
    (side : Node → list NodeIndex) (y : NodeIndex) : bool :=
  bool_decide (y ∈ GetNodesInTopologicalOrder g) &&
  match GetNode g y with
  | Some ynode => bool_decide (x ∈ side ynode)
  | None => false
  end.

Definition check_node (ss : SessionState) (x : NodeIndex) : bool :=
  let g := GetGraphViewer ss in
  bool_decide (x < MaxNodeIndex g) &&
  match GetNode g x with
  | Some node =>
      match Get ss (GetExecutionProviderType node) with
      | Some ep =>
          match GetCreateStreamFn (registry ss) (Type_ ss ep) with
          | Some _ => true
          | None => false
          end
      | None => false
      end
      && forallb (check_mirror g x OutputNodes) (InputNodes node)
      && forallb (check_mirror g x InputNodes) (OutputNodes node)
  | None => false
  end.

Definition check_well_formed (ss : SessionState) : bool :=
  bool_decide (NoDup (GetNodesInTopologicalOrder (GetGraphViewer ss))) &&
  forallb (check_node ss) (GetNodesInTopologicalOrder (GetGraphViewer ss)).

(** *** Vocabulary of the properties *)

(** A graph edge [u → v] of the view. *)
Definition edge (g : GraphViewer) (u v : NodeIndex) : Prop :=
  u ∈ GetNodesInTopologicalOrder g ∧ v ∈ GetNodesInTopologicalOrder g ∧
  ∃ unode, GetNode g u = Some unode ∧ v ∈ OutputNodes unode.

(** The logic stream a node was assigned to. *)
Definition logic_stream_of (pl : Plan) (x : NodeIndex) : Result nat :=
  stream_of (plan_partition pl) x.

(** The notification of a producer, if it has one. *)
Definition notification_of (pl : Plan) (x : NodeIndex)
  : option NotificationIndex :=
  node_to_notification (plan_notifications pl) !! x.

Definition wait_precedes_compute (cmds : list Command)
    (id : NotificationIndex) (v : NodeIndex) : Prop :=
  ∃ a c wh cs, cmds !! a = Some (WaitCmd wh cs id) ∧
               cmds !! c = Some (ComputeCmd v) ∧ a < c.

Definition has_wait (cmds : list Command) (id : NotificationIndex) : Prop :=
  ∃ wh cs, WaitCmd wh cs id ∈ cmds.

(** The notification index a command captured, if it captured one. *)
Definition captured_index (c : Command) : option NotificationIndex :=
  match c with
  | WaitCmd _ _ id => Some id
  | ComputeCmd _ => None
  | NotifyCmd _ id => Some id
  end.

Definition is_notify (id : NotificationIndex) (c : Command) : bool :=
  match c with
  | NotifyCmd _ id' => bool_decide (id' = id)
  | _ => false
  end.

(** The node exists and its provider has a device stream in [devs]. *)
Definition bound_in (ss : SessionState) (devs : list Stream) (x : NodeIndex)
  : Prop :=
  is_Some (GetNode (GetGraphViewer ss) x) ∧
  is_Some (node_ep ss x ≫= λ ep, find_stream ep devs).

(** The commands of all logic streams, stream after stream. *)
Definition all_commands (pl : Plan) : list Command :=
  concat (commands_ <$> plan_logic_streams pl).

Definition count_notify (id : NotificationIndex) (cmds : list Command) : nat :=
  length (filter (λ c, is_notify id c) cmds).

(** The call [release_stream_fn (device_stream->handle)]. *)
Definition release_of (ss : SessionState) (s : Stream) : Exec.Event :=
  Exec.ReleaseStream (Type_ ss (provider s)) (handle s).

(** Destruction that releases the device streams last-in first-out. *)
Definition released_in_reverse (ss : SessionState) (ls : LogicStream) : Prop :=
  ∀ w : Exec.World (Frame := unit),
    Exec.trace (Exec.LogicStream_destroy ss ls w) =
    Exec.trace w ++ (release_of ss <$> reverse (device_streams_ ls)).

(** [x] has an out-edge to a node of another logic stream. *)
Definition crosses_boundary (g : GraphViewer) (pl : Plan) (x : NodeIndex)
  : bool :=
  match GetNode g x, logic_stream_of pl x with
  | Some node, Ok s =>
      existsb (λ out, match logic_stream_of pl out with
                      | Ok s' => negb (s' =? s)
                      | Fail _ => false
                      end)
              (OutputNodes node)
  | _, _ => false
  end.

End Inv.

Import Inv.

(** ** The rest of the file: registration, printing, destructors *)

Module More.
Import Planner.

(** *** Registration of the stream handlers *)

(** What the process keeps across constructors: the once-flag and the
    calls of [RegisterStreamHandlers] made on the registry so far. *)
Record Process := {
  populate_command_handle_flag : bool;
  registered : list EP
}.

(** [RegisterStreamCommandHanler], on the execution providers of a
    session. *)
Definition RegisterStreamCommandHanler (eps : list EP) (pr : Process)
  : Process :=
  foldl (λ pr ep,
           {| populate_command_handle_flag := populate_command_handle_flag pr;
              registered := registered pr ++ [ep] |})
        pr eps.

(** The [std::call_once] at the head of the constructor. *)
Definition register_once (eps : list EP) (pr : Process) : Process :=
  if populate_command_handle_flag pr then pr
  else {| populate_command_handle_flag := true;
          registered := registered (RegisterStreamCommandHanler eps pr) |}.

(** The constructor run for one session after the other. *)
Definition constructors (sessions : list (list EP)) (pr : Process) : Process :=
  foldl (λ pr eps, register_once eps pr) pr sessions.

(** *** The schedule written to [std::cout] by the constructor *)

(** What pass 1 does to [streams_stdout]: the loop over the topological
    order pushes the op type of each node to the column of its stream
    (the writes of the same loop to [nodes_in_stream] and to
    [node_stream_map] are in [partition_step]). *)
Definition stdout_step (g : GraphViewer) (K : nat)
    (st : list (list string) * nat) (node_index : NodeIndex)
  : Result (list (list string) * nat) :=
  column ← expect OutOfRange (st.1 !! st.2);
  node ← expect NullNode (GetNode g node_index);
  Ok (<[st.2 := column ++ [OpType node]]> st.1, (st.2 + 1) mod K).

Definition streams_stdout (g : GraphViewer) (K : nat)
  : Result (list (list string)) :=
  st ← foldM (stdout_step g K) (GetNodesInTopologicalOrder g)
             (replicate K [], 0);
  Ok st.1.

(** [shape_output] *)
Definition shape_output (s : string) : string :=
  if decide (String.length s < 10) then "node_" +:+ s +:+ "_computation"
  else s.

(** Row [i], column [j] of the schedule: the body of the loop over
    [streams_stdout].  The state is what the row holds so far, one text
    per column, and [has_out]. *)
Definition print_cell (i : nat) (st : list string * bool) (column : list string)
  : list string * bool :=
  match column !! i with
  | Some s => (st.1 ++ ["      " +:+ shape_output s], true)
  | None => (st.1 ++ ["               "], st.2)
  end.

Definition print_row (streams_stdout : list (list string)) (i : nat)
  : list string * bool :=
  foldl (print_cell i) ([], false) streams_stdout.

(** [for (int i = 0;; ++i)]: the rows written from row [i] on.  The row
    is written before [has_out] is looked at. *)
Fixpoint print_rows (fuel : nat) (streams_stdout : list (list string)) (i : nat)
  : option (list (list string)) :=
  match fuel with
  | 0 => None
  | S fuel =>
      let '(row, has_out) := print_row streams_stdout i in
      if has_out then (row ::.) <$> print_rows fuel streams_stdout (S i)
      else Some [row]
  end.

(** The text of row [i] in one column. *)
Definition cell (i : nat) (column : list string) : string :=
  match column !! i with
  | Some s => "      " +:+ shape_output s
  | None => "               "
  end.

(** The op types of a list of nodes. *)
Definition op_types (g : GraphViewer) (nodes : list NodeIndex) : list string :=
  omap (λ x, OpType <$> GetNode g x) nodes.

(** *** Pass 3: the device streams of a logic stream *)

(** The provider instances of the device streams of a logic stream, in
    the order of [device_streams_]. *)
Definition providers_of (ls : LogicStream) : list EP :=
  provider <$> device_streams_ ls.

(** The provider instances that the nodes of a list resolve to, each
    once, in the order in which the list first uses them. *)
Definition first_use (ss : SessionState) (nodes : list NodeIndex) : list EP :=
  foldl (λ acc x,
           match node_ep ss x with
           | Some ep => if decide (ep ∈ acc) then acc else acc ++ [ep]
           | None => acc
           end)
        [] nodes.

(** The nodes of stream [j] that pass 3 has bound when it stands in
    stream [i] behind the nodes [pre] of that stream. *)
Definition bound_nodes (nis : list (list NodeIndex)) (i : nat)
    (pre : list NodeIndex) (j : nat) : list NodeIndex :=
  if decide (j < i) then default [] (nis !! j)
  else if decide (j = i) then pre else [].

(** Pass 3 creates one device stream per provider instance that the
    nodes of a logic stream resolve to. *)
Record streams_ok (ss : SessionState) (nis : list (list NodeIndex))
    (i : nat) (pre : list NodeIndex) (b : Binding) : Prop := {
  so_NoDup : ∀ j ls, logic_streams_ b !! j = Some ls → NoDup (providers_of ls);
  so_used : ∀ j ls ep, logic_streams_ b !! j = Some ls →
    ep ∈ providers_of ls ↔
    ∃ x, x ∈ bound_nodes nis i pre j ∧ node_ep ss x = Some ep
}.

(** The set [providers] of pass 3 against the device streams of the
    stream it is filling. *)
Definition providers_match (i : nat) (providers : gset nat) (b : Binding)
  : Prop :=
  ∀ ep, ep ∈ providers ↔
        ∃ ls, logic_streams_ b !! i = Some ls ∧ ep ∈ providers_of ls.

(** *** Commands and the calls they make *)

(** The node whose kernel a command launches, if it launches one. *)
Definition compute_node (c : Command) : option NodeIndex :=
  match c with
  | ComputeCmd node_index => Some node_index
  | _ => None
  end.

(** The kernels a command list launches, in the order of the list. *)
Definition launched (cmds : list Command) : list NodeIndex :=
  omap compute_node cmds.

(** The call a command makes on the context [ctx]. *)
Definition event_of (ctx : Exec.ExecutionContext) (c : Command)
  : Result Exec.Event :=
  match c with
  | WaitCmd wait_handle cur_stream notification_index =>
      h ← Exec.notification_at ctx notification_index;
      Ok (Exec.Wait wait_handle cur_stream h)
  | ComputeCmd node_index => Ok (Exec.Compute node_index)
  | NotifyCmd notify_handle notification_index =>
      h ← Exec.notification_at ctx notification_index;
      Ok (Exec.Notify notify_handle h)
  end.

(** The call [flush_stream_fn (device_stream->handle)]. *)
Definition flush_of (ss : SessionState) (s : Stream) : Exec.Event :=
  Exec.FlushStream (Type_ ss (provider s)) (handle s).

(** The kernels that a trace shows as launched, in the order of the
    trace. *)
Definition computed (evs : list Exec.Event) : list NodeIndex :=
  omap (λ e, match e with Exec.Compute x => Some x | _ => None end) evs.

(** *** The execution context *)

(** [ExecutionContext::~ExecutionContext]: the release function stored
    at [i] is called on [notifications[i].handle]. *)
Definition ExecutionContext_destroy (ctx : Exec.ExecutionContext)
    (tr : list Exec.Event) : Result (list Exec.Event) :=
  foldM (λ tr i,
           _ ← expect OutOfRange (Exec.notification_release_fns ctx !! i);
           h ← Exec.notification_at ctx i;
           Ok (tr ++ [Exec.ReleaseNotification h]))
        (seq 0 (length (Exec.notification_release_fns ctx))) tr.

(** The notification that the constructor of the context makes for
    cell [i] on the device stream [s]. *)
Definition notification_on (s : Stream) (i : nat) : Exec.Notification :=
  {| Exec.notification_handle :=
       {| Exec.on_stream := handle s; Exec.serial := i |};
     Exec.notification_provider := provider s |}.

(** A notification is released with the handle it was created with. *)
Definition releases (created released : Exec.Event) : Prop :=
  ∃ owner h, created = Exec.CreateNotification owner h ∧
             released = Exec.ReleaseNotification h.

(** *** [Execute] when no task reads a dead variable *)

(** The calling thread has run the last logic stream. *)
Definition main_ran (m : Execute.MainPC) : bool :=
  match m with
  | Execute.WaitLoop _ | Execute.Returned => true
  | _ => false
  end.

(** Where the calling thread stands against the tasks it has scheduled. *)
Definition scheduled_so_far (K : nat) (s : Execute.State) : Prop :=
  match Execute.main s with
  | Execute.LoopHead i => i ≤ K - 1 ∧ length (Execute.tasks s) = i
  | Execute.Scheduling i => i < K - 1 ∧ length (Execute.tasks s) = i
  | Execute.Scheduled i => i < K - 1 ∧ length (Execute.tasks s) = S i
  | _ => length (Execute.tasks s) = K - 1
  end.

(** Who has run which logic stream, as long as every task has read its
    [stream] and [barrier] while they were alive. *)
Record runs_inv (K : nat) (s : Execute.State) : Prop := {
  ri_NoDup : NoDup (Execute.runs s);
  ri_task : ∀ k r, (Execute.PoolTask k, r) ∈ Execute.runs s ↔
    r = k ∧ ∃ t, Execute.tasks s !! k = Some t ∧
                 Execute.pc t ≠ Execute.Pending;
  ri_main : ∀ r, (Execute.MainThread, r) ∈ Execute.runs s ↔
    r = K - 1 ∧ main_ran (Execute.main s) = true;
  ri_barrier : ∀ j, Execute.barriers s !! j = Some true →
    ∃ t, Execute.tasks s !! j = Some t ∧ Execute.pc t = Execute.Finished;
  ri_pos : scheduled_so_far K s
}.

(** Every logic stream run once: stream [k < K - 1] by task [k], the
    last one by the calling thread. *)
Definition each_stream_once (K : nat) : list (Execute.Actor * nat) :=
  ((λ k, (Execute.PoolTask k, k)) <$> seq 0 (K - 1))
  ++ [(Execute.MainThread, K - 1)].

(** [Execute] with three logic streams, each task run by the pool inside
    the iteration that scheduled it: the state in which it returns. *)
Definition returned_inline : Execute.State :=
  {| Execute.main := Execute.Returned;
     Execute.live := None;
     Execute.slot := (1, 1);
     Execute.tasks :=
       [ {| Execute.captured := 0; Execute.pc := Execute.Finished |};
         {| Execute.captured := 1; Execute.pc := Execute.Finished |} ];
     Execute.barriers := [true; true];
     Execute.runs := [ (Execute.PoolTask 0, 0); (Execute.PoolTask 1, 1);
                       (Execute.MainThread, 2) ];
     Execute.dangling := false |}.

(** [Execute] with one logic stream: the state in which it returns. *)
Definition returned_alone : Execute.State :=
  {| Execute.main := Execute.Returned;
     Execute.live := None;
     Execute.slot := (0, 0);
     Execute.tasks := [];
     Execute.barriers := [];
     Execute.runs := [(Execute.MainThread, 0)];
     Execute.dangling := false |}.

End More.

Import More.

(** ** Deciding well-formedness *)

Lemma check_mirror_sound g x side y :
  check_mirror g x side y = true →
  y ∈ GetNodesInTopologicalOrder g ∧
  ∃ ynode, GetNode g y = Some ynode ∧ x ∈ side ynode.
Proof.
  unfold check_mirror. intros [Hy Hn]%andb_true_iff.
  apply bool_decide_eq_true in Hy. split; [done|].
  destruct (GetNode g y) as [ynode|]; [|done].
  apply bool_decide_eq_true in Hn. eauto.
Qed.

Lemma check_well_formed_sound ss :
  check_well_formed ss = true → well_formed ss.
Proof.
  unfold check_well_formed. intros [Hnd Hall]%andb_true_iff.
  apply bool_decide_eq_true in Hnd.
  assert (∀ x, x ∈ GetNodesInTopologicalOrder (GetGraphViewer ss) →
               check_node ss x = true) as Hnode.
  { intros x Hx. rewrite forallb_forall in Hall.
    by apply Hall, list_elem_of_In. }
  split; [done|..].
  - intros x Hx. specialize (Hnode x Hx). unfold check_node in Hnode.
    apply andb_true_iff in Hnode as [Hlt _]. by apply bool_decide_eq_true in Hlt.
  - intros x Hx. specialize (Hnode x Hx). unfold check_node in Hnode.
    apply andb_true_iff in Hnode as [_ Hnode].
    by destruct (GetNode (GetGraphViewer ss) x).
  - intros x node Hx Hn. specialize (Hnode x Hx). unfold check_node in Hnode.
    rewrite Hn in Hnode.
    apply andb_true_iff in Hnode as [_ [[Hep _]%andb_true_iff _]%andb_true_iff].
    destruct (Get ss (GetExecutionProviderType node)) as [ep|]; [|done].
    exists ep. split; [done|].
    by destruct (GetCreateStreamFn (registry ss) (Type_ ss ep)).
  - intros x node u Hx Hn Hu. specialize (Hnode x Hx). unfold check_node in Hnode.
    rewrite Hn in Hnode.
    apply andb_true_iff in Hnode as [_ [[_ Hin]%andb_true_iff _]%andb_true_iff].
    rewrite forallb_forall in Hin.
    by apply check_mirror_sound, Hin, list_elem_of_In.
  - intros x node v Hx Hn Hv. specialize (Hnode x Hx). unfold check_node in Hnode.
    rewrite Hn in Hnode.
    apply andb_true_iff in Hnode as [_ [_ Hout]%andb_true_iff].
    rewrite forallb_forall in Hout.
    by apply check_mirror_sound, Hout, list_elem_of_In.
Qed.

(** ** Loops *)

Section foldM.
Context {A B : Type} (f : A → B → Result A).

Lemma foldM_app l1 l2 a :
  foldM f (l1 ++ l2) a = (a' ← foldM f l1 a; foldM f l2 a').
Proof.
  revert a. induction l1 as [|x l1 IH]; intros a; simpl; [done|].
  destruct (f a x) as [a'|e]; simpl; [apply IH | done].
Qed.

(** A loop over a list whose body keeps an invariant of the part
    already visited runs to its end. *)
Lemma foldM_list_ind (P : list B → A → Prop) l a :
  P [] a →
  (∀ pre x suf a1, l = pre ++ x :: suf → P pre a1 →
     ∃ a2, f a1 x = Ok a2 ∧ P (pre ++ [x]) a2) →
  ∃ r, foldM f l a = Ok r ∧ P l r.
Proof.
  intros H0 Hstep.
  cut (∀ suf pre a1, l = pre ++ suf → P pre a1 →
         ∃ r, foldM f suf a1 = Ok r ∧ P l r).
  { intros H. by apply (H l [] a). }
  induction suf as [|x suf IH]; intros pre a1 Hl HP.
  - rewrite app_nil_r in Hl. subst. eauto.
  - destruct (Hstep pre x suf a1 Hl HP) as (a2 & Hf & HP2).
    simpl. rewrite Hf. simpl.
    apply (IH (pre ++ [x])); [by rewrite <-app_assoc | done].
Qed.
End foldM.

(** A loop [for (i = 0; i < K; ++i)]. *)
Lemma foldM_seq_ind {A} (f : A → nat → Result A) (P : nat → A → Prop) K a :
  P 0 a →
  (∀ i a1, i < K → P i a1 → ∃ a2, f a1 i = Ok a2 ∧ P (S i) a2) →
  ∃ r, foldM f (seq 0 K) a = Ok r ∧ P K r.
Proof.
  intros H0 Hstep.
  destruct (foldM_list_ind f (λ pre a, P (length pre) a) (seq 0 K) a H0)
    as (r & Hr & HP).
  - intros pre x suf a1 Hl HP.
    assert (x = length pre ∧ x < K) as [-> Hlt].
    { assert (seq 0 K !! length pre = Some x) as Hx.
      { rewrite Hl. by rewrite list_lookup_middle. }
      apply lookup_seq in Hx. lia. }
    destruct (Hstep _ _ Hlt HP) as (a2 & ? & ?).
    exists a2. split; [done|]. rewrite length_app. simpl.
    by replace (length pre + 1) with (S (length pre)) by lia.
  - exists r. split; [done|]. by rewrite length_seq in HP.
Qed.

(** ** Pass 1: round-robin partition *)

Section partition_facts.
Import Planner.

Lemma concat_insert_snoc (ll : list (list NodeIndex)) s l x :
  ll !! s = Some l → concat (<[s := l ++ [x]]> ll) ≡ₚ x :: concat ll.
Proof.
  revert s. induction ll as [|l0 ll IH]; intros [|s] Hs; simplify_eq/=.
  - rewrite <-app_assoc. simpl. by rewrite <-Permutation_middle.
  - rewrite (IH _ Hs). by rewrite <-Permutation_middle.
Qed.

Lemma slot_length K (topo l : list NodeIndex) s :
  0 < K → s = length topo mod K →
  (∀ q, l !! q = topo !! (q * K + s)) →
  length l = length topo / K.
Proof.
  intros HK -> Hl.
  pose proof (Nat.div_mod_eq (length topo) K) as Hdm.
  pose proof (Nat.mod_upper_bound (length topo) K ltac:(lia)) as Hlt.
  set (m := length topo) in *. set (r := m mod K) in *. set (d := m / K) in *.
  assert (l !! length l = None) as Hn by (apply lookup_ge_None; lia).
  rewrite Hl in Hn. apply lookup_ge_None in Hn. fold m in Hn.
  destruct (decide (length l = 0)) as [H0|H0].
  - rewrite H0 in *. simpl in Hn. nia.
  - assert (is_Some (l !! (length l - 1))) as [y Hy]
      by (apply lookup_lt_is_Some; lia).
    rewrite Hl in Hy. apply lookup_lt_Some in Hy. fold m in Hy. nia.
Qed.

Lemma mod_slot_unique K d r q s :
  r < K → s < K → q * K + s = K * d + r → s = r ∧ q = d.
Proof. intros. assert (q = d) by nia. subst. lia. Qed.

Lemma partition_step_ok g K topo p x :
  0 < K → NoDup (topo ++ [x]) → x < length (node_stream_map p) →
  is_Some (GetNode g x) →
  partition_ok K topo p →
  ∃ p', partition_step g K p x = Ok p' ∧ partition_ok K (topo ++ [x]) p' ∧
        length (node_stream_map p') = length (node_stream_map p).
Proof.
  intros HK Hnd Hx [node Hnode] [Hlen Hslot Hperm Hmap Hiter].
  pose proof (Nat.mod_upper_bound (length topo) K ltac:(lia)) as Hlt.
  pose proof (Nat.div_mod_eq (length topo) K) as Hdm.
  assert ((stream_iter p + 1) mod K = length (topo ++ [x]) mod K) as Hnext.
  { rewrite length_app. simpl. rewrite Hiter.
    by rewrite Nat.Div0.add_mod_idemp_l. }
  rewrite <-Hiter in Hlt, Hdm.
  destruct (lookup_lt_is_Some_2 (nodes_in_stream p) (stream_iter p))
    as [l Hl]; [lia|].
  pose proof (slot_length K topo l (stream_iter p) HK Hiter
                (λ q, Hslot _ _ q Hl)) as Hll.
  clear Hiter. set (d := length topo / K) in *. clearbody d.
  unfold partition_step. rewrite Hl. simpl. rewrite Hnode. simpl.
  rewrite decide_True by done.
  eexists. split; [done|]. split; [split; simpl|].
  - by rewrite length_insert.
  - intros s l' q Hs.
    destruct (decide (s = stream_iter p)) as [->|Hne].
    + rewrite list_lookup_insert_eq in Hs by lia. simplify_eq.
      destruct (decide (q < length l)) as [Hq|Hq].
      * rewrite lookup_app_l by done. rewrite (Hslot _ _ _ Hl).
        rewrite lookup_app_l; [done|]. nia.
      * destruct (decide (q = length l)) as [->|Hq'].
        -- rewrite list_lookup_middle by done.
           rewrite list_lookup_middle; [done|]. nia.
        -- rewrite !lookup_ge_None_2; [done| |].
           ++ rewrite length_app. simpl. nia.
           ++ rewrite length_app. simpl. lia.
    + rewrite list_lookup_insert_ne in Hs by done.
      assert (s < K) by (apply lookup_lt_Some in Hs; lia).
      rewrite (Hslot _ _ _ Hs).
      destruct (decide (q * K + s < length topo)) as [Hq|Hq].
      * by rewrite lookup_app_l.
      * assert (q * K + s ≠ length topo).
        { intros Heq. apply Hne.
          by destruct (mod_slot_unique K d (stream_iter p) q s) as [? _];
            [..|lia|]. }
        rewrite !lookup_ge_None_2; [done| |lia].
        rewrite length_app. simpl. lia.
  - rewrite (concat_insert_snoc _ _ _ _ Hl), Hperm.
    by rewrite <-Permutation_cons_append.
  - intros i y Hy. unfold stream_of. simpl.
    apply NoDup_app in Hnd as (Hnd & Hnin & _).
    destruct (decide (i < length topo)) as [Hi|Hi].
    + rewrite lookup_app_l in Hy by done.
      assert (y ≠ x).
      { intros ->. apply (Hnin x); [|by left].
        by eapply list_elem_of_lookup_2. }
      rewrite list_lookup_insert_ne by done.
      by apply Hmap.
    + assert (i = length topo) as ->.
      { apply lookup_lt_Some in Hy. rewrite length_app in Hy.
        simpl in Hy. lia. }
      rewrite list_lookup_middle in Hy by done. simplify_eq.
      rewrite list_lookup_insert_eq by done. simpl.
      f_equal. rewrite Hdm.
      rewrite Nat.add_comm, Nat.mul_comm, Nat.Div0.mod_add.
      symmetry. by apply Nat.mod_small.
  - done.
  - simpl. by rewrite length_insert.
Qed.

Lemma partition_init_ok K n : 0 < K → partition_ok K [] (partition_init K n).
Proof.
  intros HK. split; simpl.
  - by rewrite length_replicate.
  - intros s l q Hs. apply lookup_replicate in Hs as [-> _].
    by rewrite !lookup_nil.
  - induction K as [|K IH]; [done|]. simpl.
    destruct K; [done|]. apply IH. lia.
  - intros i x Hx. by rewrite lookup_nil in Hx.
  - by rewrite Nat.Div0.mod_0_l.
Qed.

Lemma partition_total (g : GraphViewer) K :
  0 < K → NoDup (GetNodesInTopologicalOrder g) →
  (∀ x, x ∈ GetNodesInTopologicalOrder g → x < MaxNodeIndex g) →
  (∀ x, x ∈ GetNodesInTopologicalOrder g → is_Some (GetNode g x)) →
  ∃ p, partition g K = Ok p ∧
       partition_ok K (GetNodesInTopologicalOrder g) p.
Proof.
  intros HK Hnd Hmax Hnode. unfold partition.
  destruct (foldM_list_ind (partition_step g K)
              (λ pre p, partition_ok K pre p ∧
                        length (node_stream_map p) = MaxNodeIndex g)
              (GetNodesInTopologicalOrder g)
              (partition_init K (MaxNodeIndex g))) as (p & Hp & Hok & _).
  - split; [by apply partition_init_ok|]. simpl. by rewrite length_replicate.
  - intros pre x suf p Hl [Hok Hlen].
        assert (x ∈ GetNodesInTopologicalOrder g) as Hx.
    { rewrite Hl. apply elem_of_app. right. by left. }
    destruct (partition_step_ok g K pre p x) as (p' & Hp' & Hok' & Hlen');
      try done.
    + rewrite Hl, (cons_middle x pre suf), (assoc_L (++)) in Hnd.
      by apply NoDup_app in Hnd as (? & _).
    + rewrite Hlen. by apply Hmax.
    + by apply Hnode.
    + exists p'. split; [done|]. split; [done|]. congruence.
  - eauto.
Qed.
End partition_facts.

Lemma elem_of_concat {A} (x : A) (ll : list (list A)) :
  x ∈ concat ll ↔ ∃ l, x ∈ l ∧ l ∈ ll.
Proof.
  induction ll as [|l ll IH]; simpl.
  - split; [by intros ?%elem_of_nil | by intros (? & _ & ?%elem_of_nil)].
  - rewrite elem_of_app, IH. split.
    + intros [?|(l' & ? & ?)]; [exists l | exists l']; split; try done.
      * by left.
      * by right.
    + intros (l' & ? & [->|?]%elem_of_cons); [by left | right; eauto].
Qed.

Section partition_consequences.
Import Planner.
Context (K : nat) (topo : list NodeIndex) (p : Partition).
Context (HK : 0 < K) (Hnd : NoDup topo) (Hok : partition_ok K topo p).

Lemma po_lookup_lt s l :
  nodes_in_stream p !! s = Some l → s < K.
Proof.
  intros Hs. apply lookup_lt_Some in Hs. by rewrite (po_length _ _ _ Hok) in Hs.
Qed.

Lemma po_elem s l x :
  nodes_in_stream p !! s = Some l →
  x ∈ l ↔ ∃ i, topo !! i = Some x ∧ i mod K = s.
Proof.
  intros Hs. pose proof (po_lookup_lt _ _ Hs) as HsK. split.
  - intros [q Hq]%list_elem_of_lookup_1.
    rewrite (po_slot _ _ _ Hok _ _ _ Hs) in Hq.
    exists (q * K + s). split; [done|].
    rewrite Nat.add_comm, Nat.Div0.mod_add. by apply Nat.mod_small.
  - intros (i & Hi & <-).
    apply (list_elem_of_lookup_2 _ (i / K)).
    rewrite (po_slot _ _ _ Hok _ _ _ Hs).
    rewrite <-Hi. f_equal.
    pose proof (Nat.div_mod_eq i K). lia.
Qed.

Lemma po_stream_of s l x :
  nodes_in_stream p !! s = Some l → x ∈ l → stream_of p x = Ok s.
Proof.
  intros Hs Hx. apply (po_elem _ _ _ Hs) in Hx as (i & Hi & <-).
  by apply (po_map _ _ _ Hok).
Qed.

Lemma po_unique s s' l l' x :
  nodes_in_stream p !! s = Some l → nodes_in_stream p !! s' = Some l' →
  x ∈ l → x ∈ l' → s = s'.
Proof.
  intros Hs Hs' Hx Hx'.
  pose proof (po_stream_of _ _ _ Hs Hx). pose proof (po_stream_of _ _ _ Hs' Hx').
  congruence.
Qed.

Lemma po_elem_topo x :
  x ∈ topo ↔ ∃ s l, nodes_in_stream p !! s = Some l ∧ x ∈ l.
Proof.
  rewrite <-(po_perm _ _ _ Hok). rewrite elem_of_concat. split.
  - intros (l & Hx & [s Hs]%list_elem_of_lookup_1). eauto.
  - intros (s & l & Hs & Hx). exists l. split; [done|].
    by eapply list_elem_of_lookup_2.
Qed.

Lemma po_NoDup_concat : NoDup (concat (nodes_in_stream p)).
Proof. by rewrite (po_perm _ _ _ Hok). Qed.

Lemma po_split s l :
  nodes_in_stream p !! s = Some l →
  concat (nodes_in_stream p) =
    concat (take s (nodes_in_stream p)) ++ l ++
    concat (drop (S s) (nodes_in_stream p)).
Proof.
  intros Hs. rewrite <-(take_drop_middle _ _ _ Hs) at 1.
  by rewrite concat_app.
Qed.

Lemma po_NoDup s l : nodes_in_stream p !! s = Some l → NoDup l.
Proof.
  intros Hs. pose proof po_NoDup_concat as H.
  rewrite (po_split _ _ Hs) in H.
  apply NoDup_app in H as (_ & _ & H). by apply NoDup_app in H as (? & _).
Qed.

Lemma po_earlier_disjoint s l x :
  nodes_in_stream p !! s = Some l → x ∈ l →
  x ∉ concat (take s (nodes_in_stream p)).
Proof.
  intros Hs Hx Hin. pose proof po_NoDup_concat as H.
  rewrite (po_split _ _ Hs) in H.
  apply NoDup_app in H as (_ & H & _). apply (H x Hin).
  apply elem_of_app. by left.
Qed.

(** Membership in the stream's node list against the stream recorded
    for the node. *)
Lemma po_not_found s l x :
  nodes_in_stream p !! s = Some l → x ∈ topo →
  not_found x l = true ↔ stream_of p x ≠ Ok s.
Proof.
  intros Hs Hx. unfold not_found. rewrite bool_decide_eq_true. split.
  - intros Hnin Hso. apply Hnin.
    apply po_elem_topo in Hx as (s' & l' & Hs' & Hx').
    pose proof (po_stream_of _ _ _ Hs' Hx').
    assert (s = s') as -> by congruence. by simplify_eq.
  - intros Hne Hin. by apply Hne, (po_stream_of _ l).
Qed.
End partition_consequences.

(** ** Pass 2: notification ids *)

Section discover_facts.
Import Planner.

Lemma notifications_ok_snoc prods n x :
  notifications_ok prods n → x ∉ prods →
  notifications_ok (prods ++ [x])
    {| node_to_notification :=
         <[x := num_notifications n]> (node_to_notification n);
       num_notifications := S (num_notifications n) |}.
Proof.
  intros [Hnum Hmap] Hnin. split; simpl.
  - rewrite length_app. simpl. lia.
  - intros y id. rewrite Hnum.
    destruct (decide (y = x)) as [->|Hne].
    + rewrite lookup_insert_eq. split.
      * intros [= <-]. by rewrite list_lookup_middle.
      * intros Hid. f_equal.
        destruct (decide (id < length prods)) as [Hlt|Hge].
        -- rewrite lookup_app_l in Hid by done.
           destruct Hnin. by eapply list_elem_of_lookup_2.
        -- apply lookup_lt_Some in Hid. rewrite length_app in Hid.
           simpl in Hid. lia.
    + rewrite lookup_insert_ne by done. rewrite Hmap.
      destruct (decide (id < length prods)) as [Hlt|Hge].
      * by rewrite lookup_app_l.
      * rewrite (lookup_ge_None_2 prods) by lia. split; [done|].
        intros Hid. destruct (decide (id = length prods)) as [->|].
        -- rewrite list_lookup_middle in Hid by done. congruence.
        -- apply lookup_lt_Some in Hid. rewrite length_app in Hid.
           simpl in Hid. lia.
Qed.

Lemma discover_stream (g : GraphViewer) nodes prods n :
  NoDup nodes → (∀ x, x ∈ nodes → x ∉ prods) →
  (∀ x, x ∈ nodes → is_Some (GetNode g x)) →
  notifications_ok prods n →
  ∃ n', foldM (discover_node g nodes) nodes n = Ok n' ∧
        notifications_ok
          (prods ++ filter (λ x, crosses g nodes x) nodes) n'.
Proof.
  intros Hnd Hdisj Hnode Hok.
  apply (foldM_list_ind (discover_node g nodes)
           (λ pre n, notifications_ok
                       (prods ++ filter (λ x, crosses g nodes x) pre) n)).
  { by rewrite app_nil_r. }
  intros pre x suf n1 Hl Hn1.
  destruct (Hnode x) as [node Hx].
  { rewrite Hl. apply elem_of_app. right. by left. }
  unfold discover_node. rewrite Hx. simpl.
  rewrite filter_app, filter_cons, filter_nil.
  assert (crosses g nodes x =
          existsb (λ out, not_found out nodes) (OutputNodes node)) as Hc.
  { unfold crosses. by rewrite Hx. }
  destruct (existsb _ _) eqn:Hex.
  - rewrite decide_True by (by rewrite Hc).
    eexists. split; [done|]. rewrite (assoc_L (++)).
    apply notifications_ok_snoc; [done|].
    rewrite Hl in Hnd. apply NoDup_app in Hnd as (_ & Hnd & _).
    intros [Hin|Hin%list_elem_of_filter]%elem_of_app.
    + apply (Hdisj x); [|done].
      rewrite Hl. apply elem_of_app. right. by left.
    + destruct Hin as [_ Hin]. apply (Hnd x Hin). by left.
  - rewrite decide_False by (rewrite Hc; simpl; tauto).
    exists n1. split; [done|]. by rewrite app_nil_r.
Qed.

Lemma producers_snoc g nis nodes :
  producers g (nis ++ [nodes]) =
  producers g nis ++ filter (λ x, crosses g nodes x) nodes.
Proof.
  unfold producers. rewrite fmap_app, concat_app. simpl.
  by rewrite app_nil_r.
Qed.

Lemma producers_subseteq g nis x :
  x ∈ producers g nis → x ∈ concat nis.
Proof.
  unfold producers. rewrite !elem_of_concat.
  intros (l & Hx & (nodes & -> & Hn)%list_elem_of_fmap).
  exists nodes. split; [|done]. by apply list_elem_of_filter in Hx as [_ ?].
Qed.

Lemma discover_total (g : GraphViewer) K p :
  0 < K → NoDup (GetNodesInTopologicalOrder g) →
  partition_ok K (GetNodesInTopologicalOrder g) p →
  (∀ x, x ∈ GetNodesInTopologicalOrder g → is_Some (GetNode g x)) →
  ∃ n, discover g K p = Ok n ∧
       notifications_ok (producers g (nodes_in_stream p)) n.
Proof.
  intros HK Hnd Hok Hnode. unfold discover.
  destruct (foldM_seq_ind
    (λ n i, nodes ← expect OutOfRange (nodes_in_stream p !! i);
            foldM (discover_node g nodes) nodes n)
    (λ i n, notifications_ok (producers g (take i (nodes_in_stream p))) n)
    K {| node_to_notification := ∅; num_notifications := 0 |})
    as (n & Hn & Hnok).
  - rewrite take_0. split; simpl; [done|]. intros x id.
    by rewrite lookup_empty.
  - intros i n Hi Hnok.
    destruct (lookup_lt_is_Some_2 (nodes_in_stream p) i) as [nodes Hs].
    { by rewrite (po_length _ _ _ Hok). }
    rewrite Hs. simpl.
    rewrite (take_S_r _ _ _ Hs), producers_snoc.
    apply discover_stream; [| | |done].
    + by eapply po_NoDup.
    + intros x Hx Hin%producers_subseteq.
      by eapply po_earlier_disjoint.
    + intros x Hx. apply Hnode. eapply po_elem_topo; eauto.
  - exists n. split; [done|].
    by rewrite take_ge in Hnok by (rewrite (po_length _ _ _ Hok); lia).
Qed.
End discover_facts.

(** ** Pass 3: device streams *)

Lemma find_stream_Some ep streams j :
  find_stream ep streams = Some j →
  ∃ s, streams !! j = Some s ∧ provider s = ep.
Proof.
  revert j. induction streams as [|s streams IH]; intros j; simpl; [done|].
  case_decide as Hp.
  - intros [= <-]. eauto.
  - destruct (find_stream ep streams) as [j'|]; [|done].
    intros [= <-]. by apply IH.
Qed.

Lemma find_stream_app_l ep streams more j :
  find_stream ep streams = Some j → find_stream ep (streams ++ more) = Some j.
Proof.
  revert j. induction streams as [|s streams IH]; intros j; simpl; [done|].
  case_decide; [done|].
  destruct (find_stream ep streams) as [j'|]; [|done].
  intros [= <-]. by rewrite (IH j').
Qed.

Lemma find_stream_snoc_None ep streams s :
  find_stream ep streams = None →
  find_stream ep (streams ++ [s]) =
    if decide (provider s = ep) then Some (length streams) else None.
Proof.
  induction streams as [|s' streams IH]; simpl.
  - intros _. by case_decide.
  - destruct (decide (provider s' = ep)); [done|].
    destruct (find_stream ep streams) as [j'|]; [done|].
    intros _. rewrite IH by done. by case_decide.
Qed.

Section binding_facts.
Import Planner.
Context (ss : SessionState) (K : nat) (p : Partition).
Local Abbreviation g := (GetGraphViewer ss).
Local Abbreviation binding_ok := (binding_ok ss K p).
Local Abbreviation node_ep := (node_ep ss).

Lemma lookup_stream_push streams s i x ep ptr :
  lookup_stream ss p streams x ep = Ok ptr →
  lookup_stream ss p (alter (push_device_stream s) i streams) x ep = Ok ptr.
Proof.
  unfold lookup_stream.
  destruct (stream_of p x) as [sx|]; simpl; [|done].
  destruct (streams !! sx) as [ls|] eqn:Hls; simpl; [|done].
  destruct (find_stream ep (device_streams_ ls)) as [j|] eqn:Hj; simpl; [|done].
  intros [= <-].
  destruct (decide (i = sx)) as [->|Hne].
  - rewrite list_lookup_alter_eq, Hls. simpl.
    by rewrite (find_stream_app_l _ _ _ _ Hj).
  - rewrite list_lookup_alter_ne by done. rewrite Hls. simpl. by rewrite Hj.
Qed.

Lemma bind_node_ok i visited providers b x node ep :
  stream_of p x = Ok i → x ∉ visited →
  GetNode g x = Some node → Get ss (GetExecutionProviderType node) = Some ep →
  is_Some (GetCreateStreamFn (registry ss) (Type_ ss ep)) →
  binding_ok visited b → providers_ok i providers b → later_empty (S i) b →
  ∃ providers' b',
    bind_node ss p i (providers, b) x = Ok (providers', b') ∧
    binding_ok (visited ++ [x]) b' ∧ providers_ok i providers' b' ∧
    later_empty (S i) b'.
Proof.
  intros Hsx Hnew Hnode Hep [fn Hfn] Hb (ls & Hls & Hprov) Hlater.
  unfold bind_node. rewrite Hnode. simpl. rewrite Hep. simpl.
  set (created := {| handle := fn (streams_created b); provider := ep |}).
  (* the state after the conditional creation *)
  assert (∃ providers' b1 ls1 j,
    (if decide (ep ∈ providers) then Ok (providers, b)
     else
       create_stream_fn ← expect EnforceCreateStreamFn
                            (GetCreateStreamFn (registry ss) (Type_ ss ep));
       _ ← expect OutOfRange (logic_streams_ b !! i);
       Ok ({[ep]} ∪ providers,
           {| logic_streams_ :=
                alter (push_device_stream
                         {| handle := create_stream_fn (streams_created b);
                            provider := ep |})
                      i (logic_streams_ b);
              node_to_stream_map_ := node_to_stream_map_ b;
              streams_created := S (streams_created b) |}))
    = Ok (providers', b1) ∧
    binding_ok visited b1 ∧ later_empty (S i) b1 ∧
    logic_streams_ b1 !! i = Some ls1 ∧
    (∀ ep', ep' ∈ providers' ↔ is_Some (find_stream ep' (device_streams_ ls1))) ∧
    find_stream ep (device_streams_ ls1) = Some j)
    as (providers' & b1 & ls1 & j & -> & Hb1 & Hlater1 & Hls1 & Hprov1 & Hj).
  { case_decide as Hin.
    - destruct (proj1 (Hprov ep) Hin) as [j Hj].
      exists providers, b, ls, j. done.
    - rewrite Hfn. simpl. rewrite Hls. simpl.
      assert (find_stream ep (device_streams_ ls) = None) as Hnone.
      { destruct (find_stream ep (device_streams_ ls)) eqn:E; [|done].
        destruct Hin. apply Hprov. by rewrite E. }
      eexists _, _, (push_device_stream created ls), (length (device_streams_ ls)).
      split; [done|]. split; [|split; [|split; [|split]]].
      + destruct Hb as [Hl Hc Hbd Hub]. split; simpl; [| | |done].
        * by rewrite length_alter.
        * intros i' ls' Hi'.
          destruct (decide (i = i')) as [->|Hne].
          -- rewrite list_lookup_alter_eq, Hls in Hi'. simplify_eq/=. eauto.
          -- rewrite list_lookup_alter_ne in Hi' by done. eauto.
        * intros y Hy. destruct (Hbd y Hy) as (epy & ptr & ? & ? & ?).
          exists epy, ptr. split; [done|]. split; [|done].
          by apply lookup_stream_push.
      + intros j' ls' Hj' Hlk. simpl in Hlk.
        rewrite list_lookup_alter_ne in Hlk by lia. eauto.
      + simpl. by rewrite list_lookup_alter_eq, Hls.
      + intros ep'. simpl. rewrite elem_of_union, elem_of_singleton, Hprov.
        destruct (find_stream ep' (device_streams_ ls)) as [j'|] eqn:E.
        * rewrite (find_stream_app_l _ _ _ _ E). split; eauto.
        * rewrite (find_stream_snoc_None _ _ _ E). simpl.
          case_decide; split; try done; eauto.
          by intros [->|[? [=]]].
      + simpl. rewrite (find_stream_snoc_None _ _ _ Hnone). simpl.
        by rewrite decide_True. }
  simpl. unfold lookup_stream. rewrite Hsx. simpl. rewrite Hls1. simpl.
  rewrite Hj. simpl.
  eexists _, _. split; [done|].
  destruct Hb1 as [Hl Hc Hbd Hub].
  split; [split; simpl; try done|split; [|done]].
  - intros y [Hy| ->%list_elem_of_singleton]%elem_of_app.
    + destruct (Hbd y Hy) as (epy & ptr & ? & ? & ?).
      exists epy, ptr. split; [done|]. split; [done|].
      rewrite lookup_insert_ne; [done|]. by intros ->.
    + exists ep, (i, j). split.
      { unfold Inv.node_ep. rewrite Hnode. done. }
      split.
      { unfold lookup_stream. rewrite Hsx. simpl. rewrite Hls1. simpl.
        by rewrite Hj. }
      by rewrite lookup_insert_eq.
  - intros y Hy. rewrite lookup_insert_ne.
    + apply Hub. intros ?. apply Hy, elem_of_app. by left.
    + intros ->. apply Hy, elem_of_app. right. by left.
  - exists ls1. done.
Qed.
Lemma bind_stream_ok i nodes visited b :
  0 < K → partition_ok K (GetNodesInTopologicalOrder g) p →
  well_formed ss →
  nodes_in_stream p !! i = Some nodes →
  (∀ x, x ∈ nodes → x ∉ visited) →
  binding_ok visited b → later_empty i b →
  ∃ st, foldM (bind_node ss p i) nodes (∅, b) = Ok st ∧
        binding_ok (visited ++ nodes) st.2 ∧ later_empty (S i) st.2.
Proof.
  intros HK Hok Hwf Hs Hdisj Hb Hlater.
  pose proof (wf_NoDup _ Hwf) as Hnd.
  destruct (foldM_list_ind (bind_node ss p i)
    (λ pre st, binding_ok (visited ++ pre) st.2 ∧
               providers_ok i st.1 st.2 ∧ later_empty (S i) st.2)
    nodes (∅, b)) as (st & Hst & Hb' & _ & Hlater').
  - simpl. rewrite app_nil_r. split; [done|]. split.
    + destruct (lookup_lt_is_Some_2 (logic_streams_ b) i) as [ls Hls].
      { rewrite (bo_length _ _ _ _ _ Hb). by eapply po_lookup_lt. }
      exists ls. split; [done|]. intros ep.
      rewrite (Hlater i ls) by done. simpl. split; [set_solver|].
      by intros [? ?].
    + intros j ls Hj. apply Hlater. lia.
  - intros pre x suf [providers b1] Hl (Hb1 & Hprov & Hlater1). simpl in *.
    assert (x ∈ nodes) as Hx.
    { rewrite Hl. apply elem_of_app. right. by left. }
    assert (x ∈ GetNodesInTopologicalOrder g) as Hxt.
    { eapply po_elem_topo; eauto. }
    destruct (wf_node _ Hwf x Hxt) as [node Hnode].
    destruct (wf_provider _ Hwf x node Hxt Hnode) as (ep & Hep & Hfn).
    destruct (bind_node_ok i (visited ++ pre) providers b1 x node ep)
      as (providers' & b' & Hbn & ? & ? & ?); try done.
    + by eapply po_stream_of.
    + intros [Hin|Hin]%elem_of_app.
      * by apply (Hdisj x).
      * pose proof (po_NoDup _ _ _ Hnd Hok _ _ Hs) as Hndn.
        rewrite Hl in Hndn. apply NoDup_app in Hndn as (_ & Hndn & _).
        apply (Hndn x Hin). by left.
    + exists (providers', b'). simpl. by rewrite (assoc_L (++)).
  - exists st. done.
Qed.

Lemma bind_streams_total :
  0 < K → partition_ok K (GetNodesInTopologicalOrder g) p →
  well_formed ss →
  ∃ b, bind_streams ss K p (replicate K empty_logic_stream) = Ok b ∧
       binding_ok (concat (nodes_in_stream p)) b.
Proof.
  intros HK Hok Hwf. unfold bind_streams.
  pose proof (wf_NoDup _ Hwf) as Hnd.
  destruct (foldM_seq_ind
    (λ b i, nodes ← expect OutOfRange (nodes_in_stream p !! i);
            st ← foldM (bind_node ss p i) nodes (∅, b);
            Ok st.2)
    (λ i b, binding_ok (concat (take i (nodes_in_stream p))) b ∧
            later_empty i b)
    K {| logic_streams_ := replicate K empty_logic_stream;
         node_to_stream_map_ := ∅;
         streams_created := 0 |}) as (b & Hb & Hbok & _).
  - rewrite take_0. split; [split; simpl|].
    + by rewrite length_replicate.
    + by intros i ls [-> _]%lookup_replicate.
    + by intros x ?%elem_of_nil.
    + intros x _. by rewrite lookup_empty.
    + by intros j ls _ [-> _]%lookup_replicate.
  - intros i b Hi [Hb Hlater].
    destruct (lookup_lt_is_Some_2 (nodes_in_stream p) i) as [nodes Hs].
    { by rewrite (po_length _ _ _ Hok). }
    rewrite Hs. simpl.
    destruct (bind_stream_ok i nodes (concat (take i (nodes_in_stream p))) b
                HK Hok Hwf Hs) as (st & -> & ? & ?); try done.
    { intros x Hx. by eapply po_earlier_disjoint. }
    simpl. exists st.2. split; [done|].
    rewrite (take_S_r _ _ _ Hs), concat_app. simpl. by rewrite app_nil_r.
  - exists b. split; [done|].
    by rewrite take_ge in Hbok by (rewrite (po_length _ _ _ Hok); lia).
Qed.
End binding_facts.

(** ** Pass 4: notification owners *)

Section owner_facts.
Import Planner.
Context (ss : SessionState) (K : nat) (p : Partition).
Context (n : Notifications) (b : Binding).
Local Abbreviation g := (GetGraphViewer ss).
Local Abbreviation topo := (GetNodesInTopologicalOrder (GetGraphViewer ss)).
Context (HK : 0 < K) (Hwf : well_formed ss).
Context (Hp : partition_ok K topo p).
Context (Hn : notifications_ok (producers g (nodes_in_stream p)) n).
Context (Hb : binding_ok ss K p (concat (nodes_in_stream p)) b).

Lemma notification_lt x id :
  node_to_notification n !! x = Some id → id < num_notifications n.
Proof.
  intros Hx. apply (no_map _ _ Hn) in Hx. apply lookup_lt_Some in Hx.
  by rewrite (no_num _ _ Hn).
Qed.

Lemma notification_inj x y id :
  node_to_notification n !! x = Some id →
  node_to_notification n !! y = Some id → x = y.
Proof.
  intros Hx Hy. apply (no_map _ _ Hn) in Hx, Hy. congruence.
Qed.

Lemma notification_topo x id :
  node_to_notification n !! x = Some id → x ∈ topo.
Proof.
  intros Hx. apply (no_map _ _ Hn) in Hx.
  rewrite <-(po_perm _ _ _ Hp). eapply producers_subseteq.
  by eapply list_elem_of_lookup_2.
Qed.

Lemma bound_stream x :
  x ∈ topo →
  ∃ node ep ptr, GetNode g x = Some node ∧
    Get ss (GetExecutionProviderType node) = Some ep ∧
    lookup_stream ss p (logic_streams_ b) x ep = Ok ptr ∧
    node_to_stream_map_ b !! x = Some (Some ptr).
Proof.
  intros Hx. rewrite <-(po_perm _ _ _ Hp) in Hx.
  destruct (bo_bound _ _ _ _ _ Hb x Hx) as (ep & ptr & Hep & Hl & Hm).
  unfold node_ep in Hep.
  destruct (GetNode g x) as [node|] eqn:Hnode; [|done].
  exists node, ep, ptr. done.
Qed.

Lemma set_owners_total :
  ∃ owners, set_owners ss p n b = Ok owners ∧ owners_ok n b topo owners.
Proof.
  unfold set_owners.
  apply (foldM_list_ind (set_owner ss p n b) (owners_ok n b)).
  - split; [by rewrite length_replicate|]. by intros x id ?%elem_of_nil.
  - intros pre x suf owners Hl [Hlen Hown].
    assert (x ∈ topo) as Hx.
    { rewrite Hl. apply elem_of_app. right. by left. }
    unfold set_owner.
    destruct (node_to_notification n !! x) as [id|] eqn:Hid.
    + destruct (bound_stream x Hx) as (node & ep & ptr & -> & Hep & Hls & Hm).
      simpl. rewrite Hep. simpl. rewrite Hls. simpl.
      pose proof (notification_lt _ _ Hid) as Hlt.
      rewrite decide_True by lia.
      eexists. split; [done|]. split; [by rewrite length_insert|].
      intros y id' [Hy| ->%list_elem_of_singleton]%elem_of_app Hid'.
      * destruct (decide (id' = id)) as [->|Hne].
        -- rewrite (notification_inj _ _ _ Hid' Hid).
           rewrite list_lookup_insert_eq by lia. done.
        -- rewrite list_lookup_insert_ne by done. by apply Hown.
      * assert (id' = id) as -> by congruence.
        rewrite list_lookup_insert_eq by lia. done.
    + exists owners. split; [done|]. split; [done|].
      intros y id' [Hy| ->%list_elem_of_singleton]%elem_of_app Hid'.
      * by apply Hown.
      * congruence.
Qed.
End owner_facts.

(** ** Pass 5: commands *)

Lemma push_ok i c streams ls :
  streams !! i = Some ls →
  Planner.push i c streams = Ok (alter (push_commands [c]) i streams).
Proof. intros Hls. unfold Planner.push. by rewrite Hls. Qed.

Lemma push_commands_twice cs1 cs2 i (streams : list LogicStream) :
  alter (push_commands cs2) i (alter (push_commands cs1) i streams) =
  alter (push_commands (cs1 ++ cs2)) i streams.
Proof.
  rewrite list_alter_alter_eq. apply list_alter_ext; [|done].
  intros ls _. unfold push_commands. simpl. by rewrite (assoc_L (++)).
Qed.

Lemma push_commands_nil i (streams : list LogicStream) :
  alter (push_commands []) i streams = streams.
Proof.
  apply list_alter_id. intros [devs cs]. unfold push_commands. simpl.
  by rewrite app_nil_r.
Qed.

Lemma lookup_push_commands cs i (streams : list LogicStream) ls :
  streams !! i = Some ls →
  alter (push_commands cs) i streams !! i = Some (push_commands cs ls).
Proof. intros Hls. by rewrite list_lookup_alter_eq, Hls. Qed.

Lemma producers_elem g nis x :
  x ∈ producers g nis ↔ ∃ nodes, nodes ∈ nis ∧ x ∈ nodes ∧ crosses g nodes x.
Proof.
  unfold producers. rewrite elem_of_concat. split.
  - intros (l & Hx & (nodes & -> & Hn)%list_elem_of_fmap).
    apply list_elem_of_filter in Hx as [? ?]. eauto.
  - intros (nodes & Hn & Hx & Hc).
    exists (filter (λ x, crosses g nodes x) nodes). split.
    + by apply list_elem_of_filter.
    + apply list_elem_of_fmap. eauto.
Qed.

Section emit_facts.
Import Planner.
Context (ss : SessionState) (K : nat) (p : Partition).
Context (n : Notifications) (b : Binding) (owners : list (option StreamPtr)).
Local Abbreviation g := (GetGraphViewer ss).
Local Abbreviation topo := (GetNodesInTopologicalOrder (GetGraphViewer ss)).
Local Abbreviation m := (node_to_stream_map_ b).
Context (HK : 0 < K) (Hwf : well_formed ss).
Context (Hp : partition_ok K topo p).
Context (Hn : notifications_ok (producers g (nodes_in_stream p)) n).
Context (Hb : binding_ok ss K p (concat (nodes_in_stream p)) b).
Context (Ho : owners_ok n b topo owners).

(** A producer in another stream has a notification: the enforcement
    of pass 5 holds. *)
Lemma input_has_notification i nodes x node u :
  nodes_in_stream p !! i = Some nodes → x ∈ nodes →
  GetNode g x = Some node → u ∈ InputNodes node →
  not_found u nodes = true →
  ∃ id, node_to_notification n !! u = Some id ∧ id < length owners.
Proof.
  intros Hs Hx Hnode Hu Hnf.
  assert (x ∈ topo) as Hxt by (eapply po_elem_topo; eauto).
  destruct (wf_inputs _ Hwf x node u Hxt Hnode Hu) as (Hut & unode & Hun & Hout).
  apply (po_elem_topo _ _ _ Hp) in Hut as (s' & l' & Hs' & Hu').
  assert (u ∈ producers g (nodes_in_stream p)) as Hprod.
  { apply producers_elem. exists l'. split; [by eapply list_elem_of_lookup_2|].
    split; [done|]. unfold crosses. rewrite Hun.
    apply Is_true_true, existsb_exists. exists x.
    split; [by apply list_elem_of_In|].
    unfold not_found. apply bool_decide_eq_true. intros Hxl'.
    assert (i = s') as -> by (by eapply (po_unique K topo p HK Hp)).
    assert (nodes = l') as -> by congruence.
    unfold not_found in Hnf. by apply bool_decide_eq_true in Hnf. }
  apply list_elem_of_lookup_1 in Hprod as [id Hid].
  exists id. split; [by apply (no_map _ _ Hn)|].
  apply lookup_lt_Some in Hid.
  by rewrite (oo_length _ _ _ _ Ho), (no_num _ _ Hn).
Qed.

Lemma emit_wait_ok i nodes x node u streams :
  is_Some (streams !! i) →
  (not_found u nodes = true →
     ∃ id, node_to_notification n !! u = Some id ∧ id < length owners) →
  emit_wait n owners m nodes i x node streams u =
  Ok (alter (push_commands (option_list (wait_for n owners m nodes x node u)))
            i streams).
Proof.
  intros [ls Hls] Hin. unfold emit_wait, wait_for.
  destruct (not_found u nodes) eqn:Hnf.
  - destruct Hin as (id & Hid & Hlt); [done|].
    rewrite Hid. simpl.
    destruct (lookup_lt_is_Some_2 owners id Hlt) as [owner Ho'].
    rewrite Ho'. simpl. by rewrite (push_ok _ _ _ _ Hls).
  - simpl. by rewrite push_commands_nil.
Qed.

Lemma emit_waits_ok i nodes x node inputs streams :
  is_Some (streams !! i) →
  (∀ u, u ∈ inputs → not_found u nodes = true →
     ∃ id, node_to_notification n !! u = Some id ∧ id < length owners) →
  foldM (emit_wait n owners m nodes i x node) inputs streams =
  Ok (alter (push_commands (omap (wait_for n owners m nodes x node) inputs))
            i streams).
Proof.
  revert streams. induction inputs as [|u inputs IH]; intros streams Hi Hin.
  - simpl. by rewrite push_commands_nil.
  - change (foldM ?f (u :: inputs) streams)
      with (f streams u ≫= foldM f inputs).
    rewrite emit_wait_ok; [|done|apply Hin; by left].
    simpl. rewrite IH.
    + rewrite push_commands_twice. f_equal. f_equal. f_equal.
      by destruct (wait_for n owners m nodes x node u).
    + destruct Hi as [ls Hls]. by rewrite (lookup_push_commands _ _ _ _ Hls).
    + intros u' Hu'. apply Hin. by right.
Qed.

Lemma emit_node_ok i nodes x streams ls :
  nodes_in_stream p !! i = Some nodes → x ∈ nodes →
  streams !! i = Some ls →
  (∃ ls0, logic_streams_ b !! i = Some ls0 ∧
          device_streams_ ls = device_streams_ ls0) →
  emit_node ss n owners m nodes i streams x =
  Ok (alter (push_commands
               (node_commands ss n owners m (device_streams_ ls) nodes i x))
            i streams).
Proof.
  intros Hs Hx Hls (ls0 & Hls0 & Hdevs).
  assert (x ∈ topo) as Hxt by (eapply po_elem_topo; eauto).
  destruct (bound_stream ss K p b Hp Hb x Hxt)
    as (node & ep & ptr & Hnode & Hep & Hlk & Hm).
  unfold emit_node, node_commands. rewrite Hnode. simpl.
  rewrite (emit_waits_ok i nodes x node (InputNodes node) streams); cycle 1.
  { by rewrite Hls. }
  { intros u Hu Hnf. by eapply input_has_notification. }
  simpl. rewrite (lookup_push_commands _ _ _ _ Hls). simpl.
  rewrite Hep. simpl.
  unfold lookup_stream in Hlk.
  rewrite (po_stream_of K topo p HK Hp _ _ _ Hs Hx) in Hlk. simpl in Hlk.
  rewrite Hls0 in Hlk. simpl in Hlk. rewrite <-Hdevs in Hlk.
  destruct (find_stream ep (device_streams_ ls)) as [j|] eqn:Hj; [|done].
  simpl.
  erewrite push_ok by (by apply lookup_push_commands).
  simpl. rewrite push_commands_twice.
  unfold notify_for, node_ep. rewrite Hnode. simpl. rewrite Hep. simpl.
  rewrite Hj.
  destruct (node_to_notification n !! x) as [id|] eqn:Hid.
  - erewrite push_ok by (by apply lookup_push_commands).
    rewrite push_commands_twice. by rewrite <-(assoc_L (++)).
  - done.
Qed.

Lemma emit_stream_ok i nodes streams ls :
  nodes_in_stream p !! i = Some nodes →
  streams !! i = Some ls →
  (∃ ls0, logic_streams_ b !! i = Some ls0 ∧
          device_streams_ ls = device_streams_ ls0) →
  foldM (emit_node ss n owners m nodes i) nodes streams =
  Ok (alter (push_commands
               (stream_commands ss n owners m (device_streams_ ls) nodes i))
            i streams).
Proof.
  intros Hs Hls Hdevs.
  destruct (foldM_list_ind (emit_node ss n owners m nodes i)
    (λ pre streams',
       streams' =
       alter (push_commands
                (concat (node_commands ss n owners m (device_streams_ ls)
                           nodes i <$> pre)))
             i streams) nodes streams) as (r & -> & ->); [| |done].
  - simpl. by rewrite push_commands_nil.
  - intros pre x suf streams' Hl ->.
    eexists. split.
    + erewrite emit_node_ok; [done|done| |by apply lookup_push_commands|done].
      rewrite Hl. apply elem_of_app. right. by left.
    + simpl. rewrite push_commands_twice.
      rewrite fmap_app, concat_app. simpl. by rewrite app_nil_r.
Qed.

Local Abbreviation emitted := (emitted ss K p n b owners).

Lemma emit_total :
  ∃ streams,
    emit ss K p n owners m (logic_streams_ b) = Ok streams ∧ emitted streams.
Proof.
  unfold emit.
  destruct (foldM_seq_ind
    (λ streams i,
       nodes ← expect OutOfRange (nodes_in_stream p !! i);
       foldM (emit_node ss n owners m nodes i) nodes streams)
    (λ i streams,
       length streams = K ∧
       ∀ s ls0 nodes,
         logic_streams_ b !! s = Some ls0 → nodes_in_stream p !! s = Some nodes →
         streams !! s =
         Some (if decide (s < i) then
                 {| device_streams_ := device_streams_ ls0;
                    commands_ := stream_commands ss n owners m
                                   (device_streams_ ls0) nodes s |}
               else ls0))
    K (logic_streams_ b)) as (streams & Hs & Hlen & Hst).
  - split; [by apply (bo_length _ _ _ _ _ Hb)|].
    intros s ls0 nodes Hls0 _. by rewrite decide_False by lia.
  - intros i streams Hi [Hlen Hst].
    destruct (lookup_lt_is_Some_2 (nodes_in_stream p) i) as [nodes Hnodes].
    { by rewrite (po_length _ _ _ Hp). }
    destruct (lookup_lt_is_Some_2 (logic_streams_ b) i) as [ls0 Hls0].
    { by rewrite (bo_length _ _ _ _ _ Hb). }
    pose proof (Hst i ls0 nodes Hls0 Hnodes) as Hi0.
    rewrite decide_False in Hi0 by lia.
    rewrite Hnodes. simpl.
    rewrite (emit_stream_ok i nodes streams ls0 Hnodes Hi0); [|by eauto].
    eexists. split; [done|]. split; [by rewrite length_alter|].
    intros s ls1 nodes1 Hls1 Hnodes1.
    destruct (decide (s = i)) as [->|Hne].
    + simplify_eq. rewrite (lookup_push_commands _ _ _ _ Hi0).
      rewrite decide_True by lia. unfold push_commands.
      by rewrite (bo_commands _ _ _ _ _ Hb _ _ Hls0).
    + rewrite list_lookup_alter_ne by done.
      rewrite (Hst s ls1 nodes1 Hls1 Hnodes1).
      by repeat case_decide; try lia.
  - exists streams. split; [done|]. split; [done|].
    intros i ls0 nodes Hls0 Hnodes.
    rewrite (Hst i ls0 nodes Hls0 Hnodes).
    rewrite decide_True; [done|].
    apply lookup_lt_Some in Hls0. by rewrite (bo_length _ _ _ _ _ Hb) in Hls0.
Qed.
End emit_facts.

(** ** The constructor succeeds on a well-formed session *)

Lemma plan_total (ss : SessionState) (K : nat) :
  well_formed ss → 0 < K →
  ∃ pl b, Planner.ParallelExecutionPlanImpl ss K = Ok pl ∧ plan_ok ss K b pl.
Proof.
  intros Hwf HK. unfold Planner.ParallelExecutionPlanImpl.
    destruct (partition_total (GetGraphViewer ss) K HK
              (wf_NoDup _ Hwf) (wf_bound _ Hwf) (wf_node _ Hwf))
    as (p & -> & Hp).
  simpl.
  destruct (discover_total (GetGraphViewer ss) K p HK
              (wf_NoDup _ Hwf) Hp (wf_node _ Hwf)) as (n & -> & Hn).
  simpl.
  destruct (bind_streams_total ss K p HK Hp Hwf) as (b & -> & Hb).
  simpl.
  destruct (set_owners_total ss K p n b) as (owners & -> & Ho); [done..|].
  simpl.
  destruct (emit_total ss K p n b owners) as (streams & -> & He); [done..|].
  simpl. eexists _, b. split; [done|]. by split.
Qed.

(** ** The shape of a stream's command list *)

Section command_facts.
Import Planner.
Context (ss : SessionState) (n : Notifications).
Context (owners : list (option StreamPtr)) (m : gmap NodeIndex (option StreamPtr)).
Context (devs : list Stream) (nodes : list NodeIndex) (i : nat).
Local Abbreviation g := (GetGraphViewer ss).
Local Abbreviation node_commands := (node_commands ss n owners m devs nodes i).
Local Abbreviation stream_commands := (stream_commands ss n owners m devs nodes i).

Lemma stream_commands_split l l1 x l2 :
  l = l1 ++ x :: l2 →
  concat (node_commands <$> l) =
  concat (node_commands <$> l1) ++ node_commands x ++
  concat (node_commands <$> l2).
Proof. intros ->. by rewrite fmap_app, concat_app. Qed.

Lemma elem_of_stream_commands c :
  c ∈ stream_commands ↔ ∃ x, x ∈ nodes ∧ c ∈ node_commands x.
Proof.
  unfold Inv.stream_commands. rewrite elem_of_concat. split.
  - intros (l & Hc & (x & -> & Hx)%list_elem_of_fmap). eauto.
  - intros (x & Hx & Hc). eexists. split; [done|].
    apply list_elem_of_fmap. eauto.
Qed.

Lemma elem_of_notify_for c x :
  c ∈ notify_for ss n devs i x →
  ∃ id j, c = NotifyCmd (i, j) id ∧ node_to_notification n !! x = Some id.
Proof.
  unfold notify_for.
  destruct (node_to_notification n !! x) as [id|]; [|by intros ?%elem_of_nil].
  destruct (node_ep ss x ≫= _) as [j|]; [|by intros ?%elem_of_nil].
  intros ->%list_elem_of_singleton. eauto.
Qed.

Lemma elem_of_waits c x node (inputs : list nat) :
  c ∈ omap (wait_for n owners m nodes x node) inputs →
  ∃ u id owner, u ∈ inputs ∧ not_found u nodes = true ∧
    node_to_notification n !! u = Some id ∧ owners !! id = Some owner ∧
    c = WaitCmd {| wait_owner := owner;
                   wait_consumer := GetExecutionProviderType node |}
                (cur_stream_of m x) id.
Proof.
  intros (u & Hu & Hw)%list_elem_of_omap. unfold wait_for in Hw.
  destruct (not_found u nodes) eqn:Hnf; [|done].
  destruct (node_to_notification n !! u) as [id|] eqn:Hid; [|done].
  simpl in Hw. destruct (owners !! id) as [owner|] eqn:Ho; [|done].
  simpl in Hw. simplify_eq. by exists u, id, owner.
Qed.

(** A compute command in the list of a stream is the one of a node of
    that stream. *)
Lemma compute_in_node_commands x y :
  ComputeCmd y ∈ node_commands x → y = x.
Proof.
  unfold Inv.node_commands. destruct (GetNode g x) as [node|].
  - intros [Hw|Hc]%elem_of_app.
    + by apply elem_of_waits in Hw as (? & ? & ? & _ & _ & _ & _ & ?).
    + apply elem_of_cons in Hc as [[= ->]|Hc]; [done|].
      by apply elem_of_notify_for in Hc as (? & ? & ? & _).
  - by intros ?%elem_of_nil.
Qed.

Lemma compute_in_stream_commands y :
  (∀ x, x ∈ nodes → is_Some (GetNode g x)) →
  ComputeCmd y ∈ stream_commands ↔ y ∈ nodes.
Proof.
  intros Hnode. rewrite elem_of_stream_commands. split.
  - intros (x & Hx & ->%compute_in_node_commands). done.
  - intros Hy. exists y. split; [done|].
    destruct (Hnode y Hy) as [node Hn]. unfold Inv.node_commands.
    rewrite Hn. apply elem_of_app. right. by left.
Qed.

Lemma wait_in_stream_commands wh cs id :
  WaitCmd wh cs id ∈ stream_commands →
  ∃ u, not_found u nodes = true ∧ node_to_notification n !! u = Some id.
Proof.
  intros (x & Hx & Hc)%elem_of_stream_commands.
  unfold Inv.node_commands in Hc. destruct (GetNode g x) as [node|].
  - apply elem_of_app in Hc as [Hw|Hc].
    + apply elem_of_waits in Hw as (u & id' & ? & _ & ? & ? & _ & ?).
      simplify_eq. eauto.
    + apply elem_of_cons in Hc as [?|Hc]; [done|].
      by apply elem_of_notify_for in Hc as (? & ? & ? & _).
  - by apply elem_of_nil in Hc.
Qed.

Lemma notify_in_stream_commands h id :
  NotifyCmd h id ∈ stream_commands →
  ∃ x, x ∈ nodes ∧ node_to_notification n !! x = Some id.
Proof.
  intros (x & Hx & Hc)%elem_of_stream_commands.
  unfold Inv.node_commands in Hc. destruct (GetNode g x) as [node|].
  - apply elem_of_app in Hc as [Hw|Hc].
    + by apply elem_of_waits in Hw as (? & ? & ? & _ & _ & _ & _ & ?).
    + apply elem_of_cons in Hc as [?|Hc]; [done|].
      apply elem_of_notify_for in Hc as (? & ? & ? & ?). simplify_eq. eauto.
  - by apply elem_of_nil in Hc.
Qed.

(** The wait of a cross-stream in-edge sits before the compute command
    of the consumer. *)
Lemma wait_before_compute v vnode u id :
  v ∈ nodes → GetNode g v = Some vnode → u ∈ InputNodes vnode →
  not_found u nodes = true →
  node_to_notification n !! u = Some id → id < length owners →
  wait_precedes_compute stream_commands id v.
Proof.
  intros Hv Hnode Hu Hnf Hid Hlt.
  apply list_elem_of_split in Hv as (l1 & l2 & Hv).
  destruct (lookup_lt_is_Some_2 owners id Hlt) as [owner Ho].
  set (w := WaitCmd {| wait_owner := owner;
                       wait_consumer := GetExecutionProviderType vnode |}
                    (cur_stream_of m v) id).
  assert (w ∈ omap (wait_for n owners m nodes v vnode)
                   (InputNodes vnode)) as Hw.
  { apply list_elem_of_omap. exists u. split; [done|].
    unfold wait_for. rewrite Hnf, Hid. simpl. by rewrite Ho. }
  apply list_elem_of_split in Hw as (w1 & w2 & Hw).
  unfold Inv.stream_commands. rewrite (stream_commands_split _ _ _ _ Hv).
  unfold Inv.node_commands at 2. rewrite Hnode, Hw.
  set (A := concat _). set (B := concat _). set (N := notify_for _ _ _ _ _).
  exists (length (A ++ w1)), (length (A ++ w1 ++ w :: w2)).
  eexists _, (cur_stream_of m v). split; [|split].
  - replace (A ++ ((w1 ++ w :: w2) ++ ComputeCmd v :: N) ++ B)
      with ((A ++ w1) ++ w :: (w2 ++ ComputeCmd v :: N ++ B)).
    + by rewrite list_lookup_middle.
    + by rewrite <-!(assoc_L (++)).
  - replace (A ++ ((w1 ++ w :: w2) ++ ComputeCmd v :: N) ++ B)
      with ((A ++ w1 ++ w :: w2) ++ ComputeCmd v :: (N ++ B)).
    + by rewrite list_lookup_middle.
    + by rewrite <-!(assoc_L (++)).
  - rewrite !length_app. simpl. lia.
Qed.
End command_facts.

(** ** Properties of a plan *)

Section plan_facts.
Import Planner.
Context (ss : SessionState) (K : nat) (b : Binding) (pl : Plan).
Context (Hwf : well_formed ss) (HK : 0 < K) (Hpl : plan_ok ss K b pl).
Local Abbreviation g := (GetGraphViewer ss).
Local Abbreviation topo := (GetNodesInTopologicalOrder (GetGraphViewer ss)).
Local Abbreviation p := (plan_partition pl).
Local Abbreviation n := (plan_notifications pl).
Local Abbreviation owners := (plan_notification_owners pl).
Local Abbreviation m := (node_to_stream_map_ b).

Lemma plan_stream s :
  s < K →
  ∃ ls nodes ls0,
    plan_logic_streams pl !! s = Some ls ∧
    nodes_in_stream p !! s = Some nodes ∧
    logic_streams_ b !! s = Some ls0 ∧
    device_streams_ ls = device_streams_ ls0 ∧
    commands_ ls = stream_commands ss n owners m (device_streams_ ls0) nodes s.
Proof.
  intros Hs. destruct Hpl as [_ Hp _ Hb _ _ [_ He]].
  destruct (lookup_lt_is_Some_2 (nodes_in_stream p) s) as [nodes Hnodes].
  { by rewrite (po_length _ _ _ Hp). }
  destruct (lookup_lt_is_Some_2 (logic_streams_ b) s) as [ls0 Hls0].
  { by rewrite (bo_length _ _ _ _ _ Hb). }
  eexists _, nodes, ls0. split; [by apply He|]. done.
Qed.

Lemma plan_stream_of x :
  x ∈ topo →
  ∃ s nodes, stream_of p x = Ok s ∧ s < K ∧
             nodes_in_stream p !! s = Some nodes ∧ x ∈ nodes.
Proof.
  intros Hx. pose proof (pk_partition _ _ _ _ Hpl) as Hp.
  apply (po_elem_topo _ _ _ Hp) in Hx as (s & nodes & Hs & Hx).
  exists s, nodes. split; [by eapply po_stream_of|].
  split; [by eapply po_lookup_lt|done].
Qed.

Lemma plan_node_exists nodes s x :
  nodes_in_stream p !! s = Some nodes → x ∈ nodes → is_Some (GetNode g x).
Proof.
  intros Hs Hx. apply (wf_node _ Hwf).
  eapply po_elem_topo; [apply (pk_partition _ _ _ _ Hpl)|eauto].
Qed.

Lemma plan_edge_waits u v :
  edge g u v →
  ∃ su sv ls,
    logic_stream_of pl u = Ok su ∧ logic_stream_of pl v = Ok sv ∧
    plan_logic_streams pl !! sv = Some ls ∧
    (su ≠ sv → ∃ id, notification_of pl u = Some id ∧
                     wait_precedes_compute (commands_ ls) id v) ∧
    (su = sv → ∀ id, notification_of pl u = Some id →
               ¬ has_wait (commands_ ls) id).
Proof.
  intros (Hu & Hv & unode & Hunode & Hout).
  pose proof (pk_partition _ _ _ _ Hpl) as Hp.
  pose proof (pk_notifications _ _ _ _ Hpl) as Hn.
  destruct (wf_outputs _ Hwf u unode v Hu Hunode Hout) as (_ & vnode & Hvnode & Hin).
  destruct (plan_stream_of u Hu) as (su & nodes_u & Hsu & _ & Hnu & Hunodes).
  destruct (plan_stream_of v Hv) as (sv & nodes_v & Hsv & HsvK & Hnv & Hvnodes).
  destruct (plan_stream sv HsvK) as (ls & nodes & ls0 & Hls & Hnodes & Hls0 & _ & Hcmds).
  assert (nodes = nodes_v) as -> by congruence.
  exists su, sv, ls. split; [done|]. split; [done|]. split; [done|].
  rewrite Hcmds. split.
  - intros Hne.
    assert (not_found u nodes_v = true) as Hnf.
    { apply (po_not_found K topo p HK Hp _ _ _ Hnv Hu). congruence. }
    destruct (input_has_notification ss K p n b owners HK Hwf Hp Hn
                (pk_owners _ _ _ _ Hpl) sv nodes_v v vnode u)
      as (id & Hid & Hlt); try done.
    exists id. split; [done|]. by eapply wait_before_compute.
  - intros <- id Hid (wh & cs & Hw).
    apply wait_in_stream_commands in Hw as (u' & Hnf & Hid').
    assert (u' = u) as -> by (by eapply notification_inj).
    assert (nodes_u = nodes_v) as -> by congruence.
    unfold not_found in Hnf. by apply bool_decide_eq_true in Hnf.
Qed.

(** The device stream bound to a planned node. *)
Lemma plan_bound x :
  x ∈ topo →
  ∃ node ep s j st ls,
    GetNode g x = Some node ∧ Get ss (GetExecutionProviderType node) = Some ep ∧
    stream_of p x = Ok s ∧ s < K ∧
    plan_node_to_stream_map pl !! x = Some (Some (s, j)) ∧
    plan_logic_streams pl !! s = Some ls ∧
    find_stream ep (device_streams_ ls) = Some j ∧
    device_streams_ ls !! j = Some st ∧ provider st = ep.
Proof.
  intros Hx.
  destruct (bound_stream ss K p b (pk_partition _ _ _ _ Hpl)
              (pk_binding _ _ _ _ Hpl) x Hx)
    as (node & ep & ptr & Hnode & Hep & Hlk & Hm).
  destruct (plan_stream_of x Hx) as (s & nodes & Hs & HsK & _ & _).
  destruct (plan_stream s HsK) as (ls & nodes' & ls0 & Hls & _ & Hls0 & Hdevs & _).
  unfold lookup_stream in Hlk. rewrite Hs in Hlk. simpl in Hlk.
  rewrite Hls0 in Hlk. simpl in Hlk. rewrite <-Hdevs in Hlk.
  destruct (find_stream ep (device_streams_ ls)) as [j|] eqn:Hj; [|done].
  simpl in Hlk. simplify_eq.
  destruct (find_stream_Some _ _ _ Hj) as (st & Hst & Hprov).
  exists node, ep, s, j, st, ls. rewrite (pk_map _ _ _ _ Hpl). done.
Qed.

Lemma plan_unbound x :
  x ∉ topo → plan_node_to_stream_map pl !! x = None.
Proof.
  intros Hx. rewrite (pk_map _ _ _ _ Hpl).
  apply (bo_unbound _ _ _ _ _ (pk_binding _ _ _ _ Hpl)).
  by rewrite (po_perm _ _ _ (pk_partition _ _ _ _ Hpl)).
Qed.

Lemma plan_round_robin i x :
  topo !! i = Some x →
  logic_stream_of pl x = Ok (i mod K) ∧
  (∃ nodes, nodes_in_stream p !! (i mod K) = Some nodes ∧
            nodes !! (i / K) = Some x) ∧
  (∀ s, s < K →
     ∃ ls nodes,
       plan_logic_streams pl !! s = Some ls ∧
       nodes_in_stream p !! s = Some nodes ∧
       (x ∈ nodes ↔ s = i mod K) ∧
       (ComputeCmd x ∈ commands_ ls ↔ s = i mod K)) ∧
  is_Some (plan_node_to_stream_map pl !! x).
Proof.
  intros Hi. pose proof (pk_partition _ _ _ _ Hpl) as Hp.
  pose proof (po_map _ _ _ Hp _ _ Hi) as Hso.
  assert (x ∈ topo) as Hx by (by eapply list_elem_of_lookup_2).
  assert (i mod K < K) as Hlt by (apply Nat.mod_upper_bound; lia).
  split; [done|]. split; [|split].
  - destruct (lookup_lt_is_Some_2 (nodes_in_stream p) (i mod K)) as [nodes Hn].
    { by rewrite (po_length _ _ _ Hp). }
    exists nodes. split; [done|].
    rewrite (po_slot _ _ _ Hp _ _ _ Hn), <-Hi. f_equal.
    pose proof (Nat.div_mod_eq i K). lia.
  - intros s Hs.
    destruct (plan_stream s Hs) as (ls & nodes & ls0 & Hls & Hn & _ & _ & Hc).
    exists ls, nodes. split; [done|]. split; [done|].
    assert (x ∈ nodes ↔ s = i mod K) as Hiff.
    { split.
      - intros Hin. pose proof (po_stream_of K topo p HK Hp _ _ _ Hn Hin).
        congruence.
      - intros ->. apply (po_elem K topo p HK Hp _ _ _ Hn). eauto. }
    split; [done|]. rewrite <-Hiff, Hc.
    apply compute_in_stream_commands. intros y Hy. by eapply plan_node_exists.
  - destruct (plan_bound x Hx) as (? & ? & ? & ? & ? & ? & _ & _ & _ & _ & -> & _).
    done.
Qed.

Lemma plan_map_dom x :
  is_Some (plan_node_to_stream_map pl !! x) ↔ x ∈ topo.
Proof.
  split.
  - intros Hs. destruct (decide (x ∈ topo)) as [|Hn]; [done|].
    rewrite (plan_unbound x Hn) in Hs. by destruct Hs.
  - intros Hx.
    destruct (plan_bound x Hx) as (? & ? & ? & ? & ? & ? & _ & _ & _ & _ & -> & _).
    done.
Qed.

Lemma plan_compute_stream x :
  (GetComputeStreamForNode pl x = None ↔ x ∉ topo) ∧
  (x ∈ topo →
   ∃ s j st ep,
     GetComputeStreamForNode pl x = Some (s, j) ∧
     logic_stream_of pl x = Ok s ∧
     Exec.deref (plan_logic_streams pl) (s, j) = Some st ∧
     node_ep ss x = Some ep ∧ provider st = ep).
Proof.
  unfold GetComputeStreamForNode. split; [split|].
  - intros Hnone Hx.
    destruct (plan_bound x Hx) as (? & ? & ? & ? & ? & ? & _ & _ & _ & _ & Hm & _).
    by rewrite Hm in Hnone.
  - intros Hx. by rewrite (plan_unbound x Hx).
  - intros Hx.
    destruct (plan_bound x Hx)
      as (node & ep & s & j & st & ls & Hn & Hep & Hs & _ & Hm & Hls & _ & Hst & Hp).
    exists s, j, st, ep. rewrite Hm. split; [done|]. split; [done|].
    split; [|split; [|done]].
    + unfold Exec.deref. simpl. rewrite Hls. done.
    + unfold Inv.node_ep. rewrite Hn. done.
Qed.
End plan_facts.

(** C1.  Dependency closure: for every graph edge [u → v] whose
    endpoints are in different logic streams, the command list of [v]'s
    logic stream holds a wait on [u]'s notification at an index before
    [v]'s compute command; when the endpoints share a logic stream that
    list holds no wait on [u]'s notification. *)
Theorem dependency_closure (ss : SessionState) (K : nat) :
  well_formed ss → 0 < K →
  ∃ pl, Planner.ParallelExecutionPlanImpl ss K = Ok pl ∧
    ∀ u v, edge (GetGraphViewer ss) u v →
      ∃ su sv ls,
        logic_stream_of pl u = Ok su ∧ logic_stream_of pl v = Ok sv ∧
        Planner.plan_logic_streams pl !! sv = Some ls ∧
        (su ≠ sv → ∃ id, notification_of pl u = Some id ∧
                         wait_precedes_compute (commands_ ls) id v) ∧
        (su = sv → ∀ id, notification_of pl u = Some id →
                   ¬ has_wait (commands_ ls) id).
Proof.
  intros Hwf HK. destruct (plan_total ss K Hwf HK) as (pl & b & Hpl & Hok).
  exists pl. split; [done|]. intros u v. by eapply plan_edge_waits.
Qed.

Lemma dependency_closure_witness :
  well_formed (Scenario.session_of Scenario.chain3) ∧ 0 < 2 ∧
  ∃ pl,
    Planner.ParallelExecutionPlanImpl (Scenario.session_of Scenario.chain3) 2
      = Ok pl ∧
    ∀ u v, edge (GetGraphViewer (Scenario.session_of Scenario.chain3)) u v →
      ∃ su sv ls,
        logic_stream_of pl u = Ok su ∧ logic_stream_of pl v = Ok sv ∧
        Planner.plan_logic_streams pl !! sv = Some ls ∧
        (su ≠ sv → ∃ id, notification_of pl u = Some id ∧
                         wait_precedes_compute (commands_ ls) id v) ∧
        (su = sv → ∀ id, notification_of pl u = Some id →
                   ¬ has_wait (commands_ ls) id).
Proof.
  split; [apply check_well_formed_sound; vm_compute; reflexivity|].
  split; [lia|].
  apply dependency_closure; [|lia].
  apply check_well_formed_sound; vm_compute; reflexivity.
Defined.

(** C4.  Partition totality: the node at position [i] of the topological
    order goes to logic stream [i mod K] (slot [i / K] of its node
    list); it belongs to that logic stream and to no other, its compute
    command is in that stream's command list and in no other, and the
    node-to-stream map has an entry for it; the map has entries for the
    nodes of the view only. *)
Theorem partition_totality (ss : SessionState) (K : nat) :
  well_formed ss → 0 < K →
  ∃ pl, Planner.ParallelExecutionPlanImpl ss K = Ok pl ∧
    length (Planner.plan_logic_streams pl) = K ∧
    (∀ i x, GetNodesInTopologicalOrder (GetGraphViewer ss) !! i = Some x →
       logic_stream_of pl x = Ok (i mod K) ∧
       (∃ nodes,
          Planner.nodes_in_stream (Planner.plan_partition pl) !! (i mod K)
            = Some nodes ∧
          nodes !! (i / K) = Some x) ∧
       (∀ s, s < K →
          ∃ ls nodes,
            Planner.plan_logic_streams pl !! s = Some ls ∧
            Planner.nodes_in_stream (Planner.plan_partition pl) !! s
              = Some nodes ∧
            (x ∈ nodes ↔ s = i mod K) ∧
            (ComputeCmd x ∈ commands_ ls ↔ s = i mod K)) ∧
       is_Some (Planner.plan_node_to_stream_map pl !! x)) ∧
    (∀ x, is_Some (Planner.plan_node_to_stream_map pl !! x) ↔
          x ∈ GetNodesInTopologicalOrder (GetGraphViewer ss)).
Proof.
  intros Hwf HK. destruct (plan_total ss K Hwf HK) as (pl & b & Hpl & Hok).
  exists pl. split; [done|]. split; [|split].
  - by destruct (pk_emitted _ _ _ _ Hok).
  - intros i x. by eapply plan_round_robin.
  - intros x. by eapply plan_map_dom.
Qed.

Lemma partition_totality_witness :
  well_formed (Scenario.session_of Scenario.diamond) ∧ 0 < 2 ∧
  ∃ pl,
    Planner.ParallelExecutionPlanImpl (Scenario.session_of Scenario.diamond) 2
      = Ok pl ∧
    length (Planner.plan_logic_streams pl) = 2 ∧
    (∀ i x,
       GetNodesInTopologicalOrder
         (GetGraphViewer (Scenario.session_of Scenario.diamond)) !! i = Some x →
       logic_stream_of pl x = Ok (i mod 2) ∧
       (∃ nodes,
          Planner.nodes_in_stream (Planner.plan_partition pl) !! (i mod 2)
            = Some nodes ∧
          nodes !! (i / 2) = Some x) ∧
       (∀ s, s < 2 →
          ∃ ls nodes,
            Planner.plan_logic_streams pl !! s = Some ls ∧
            Planner.nodes_in_stream (Planner.plan_partition pl) !! s
              = Some nodes ∧
            (x ∈ nodes ↔ s = i mod 2) ∧
            (ComputeCmd x ∈ commands_ ls ↔ s = i mod 2)) ∧
       is_Some (Planner.plan_node_to_stream_map pl !! x)) ∧
    (∀ x, is_Some (Planner.plan_node_to_stream_map pl !! x) ↔
          x ∈ GetNodesInTopologicalOrder
                (GetGraphViewer (Scenario.session_of Scenario.diamond))).
Proof.
  split; [apply check_well_formed_sound; vm_compute; reflexivity|].
  split; [lia|].
  apply partition_totality; [|lia].
  apply check_well_formed_sound; vm_compute; reflexivity.
Defined.

(** C10.  [GetComputeStreamForNode] is null exactly for the indices that
    are not in the topological order; for a planned node it is the
    device stream recorded for the node, a device stream of the node's
    logic stream whose provider is the node's provider instance. *)
Theorem compute_stream_for_node (ss : SessionState) (K : nat) :
  well_formed ss → 0 < K →
  ∃ pl, Planner.ParallelExecutionPlanImpl ss K = Ok pl ∧
    ∀ x,
      (Planner.GetComputeStreamForNode pl x = None ↔
       x ∉ GetNodesInTopologicalOrder (GetGraphViewer ss)) ∧
      (x ∈ GetNodesInTopologicalOrder (GetGraphViewer ss) →
       ∃ s j st ep,
         Planner.GetComputeStreamForNode pl x = Some (s, j) ∧
         logic_stream_of pl x = Ok s ∧
         Exec.deref (Planner.plan_logic_streams pl) (s, j) = Some st ∧
         node_ep ss x = Some ep ∧ provider st = ep).
Proof.
  intros Hwf HK. destruct (plan_total ss K Hwf HK) as (pl & b & Hpl & Hok).
  exists pl. split; [done|]. intros x. by eapply plan_compute_stream.
Qed.

Lemma compute_stream_for_node_witness :
  well_formed (Scenario.session_of Scenario.chain3) ∧ 0 < 2 ∧
  ∃ pl,
    Planner.ParallelExecutionPlanImpl (Scenario.session_of Scenario.chain3) 2
      = Ok pl ∧
    ∀ x,
      (Planner.GetComputeStreamForNode pl x = None ↔
       x ∉ GetNodesInTopologicalOrder
             (GetGraphViewer (Scenario.session_of Scenario.chain3))) ∧
      (x ∈ GetNodesInTopologicalOrder
             (GetGraphViewer (Scenario.session_of Scenario.chain3)) →
       ∃ s j st ep,
         Planner.GetComputeStreamForNode pl x = Some (s, j) ∧
         logic_stream_of pl x = Ok s ∧
         Exec.deref (Planner.plan_logic_streams pl) (s, j) = Some st ∧
         node_ep (Scenario.session_of Scenario.chain3) x = Some ep ∧
         provider st = ep).
Proof.
  split; [apply check_well_formed_sound; vm_compute; reflexivity|].
  split; [lia|].
  apply compute_stream_for_node; [|lia].
  apply check_well_formed_sound; vm_compute; reflexivity.
Defined.

(** ** The execution context *)

Lemma ExecutionContext_new_ok streams (owners : list (option StreamPtr)) :
  (∀ id, id < length owners →
     ∃ ptr st, owners !! id = Some (Some ptr) ∧ Exec.deref streams ptr = Some st) →
  ∃ ctx tr,
    Exec.ExecutionContext_new streams owners = Ok (ctx, tr) ∧
    length (Exec.notifications ctx) = length owners ∧
    ∀ id, id < length owners → ∃ h, Exec.notification_at ctx id = Ok h.
Proof.
  intros Howners. unfold Exec.ExecutionContext_new.
  destruct (foldM_seq_ind (Exec.ExecutionContext_step streams owners)
    (λ i st, length (Exec.notifications st.1) = length owners ∧
             ∀ id, id < i → ∃ nt, Exec.notifications st.1 !! id = Some (Some nt))
    (length owners)
    ({| Exec.notifications := replicate (length owners) None;
        Exec.notification_release_fns := [] |}, []))
    as ([ctx tr] & Hr & Hlen & Hall).
  - simpl. split; [by rewrite length_replicate|]. intros id Hid. lia.
  - intros i [ctx tr] Hi [Hlen Hall]. simpl in *.
    destruct (Howners i Hi) as (ptr & st & Ho & Hd).
    rewrite Ho. simpl. rewrite Hd. simpl.
    rewrite decide_True by lia.
    eexists. split; [done|]. simpl. split; [by rewrite length_insert|].
    intros id Hid. destruct (decide (id = i)) as [->|Hne].
    + rewrite list_lookup_insert_eq by lia. eauto.
    + rewrite list_lookup_insert_ne by done. apply Hall. lia.
  - exists ctx, tr. split; [done|]. split; [done|].
    intros id Hid. destruct (Hall id Hid) as [nt Hnt].
    unfold Exec.notification_at. simpl in Hnt. rewrite Hnt. simpl. eauto.
Qed.

Section context_facts.
Import Planner.
Context (ss : SessionState) (K : nat) (b : Binding) (pl : Plan).
Context (Hwf : well_formed ss) (HK : 0 < K) (Hpl : plan_ok ss K b pl).
Local Abbreviation g := (GetGraphViewer ss).
Local Abbreviation topo := (GetNodesInTopologicalOrder (GetGraphViewer ss)).
Local Abbreviation p := (plan_partition pl).
Local Abbreviation n := (plan_notifications pl).
Local Abbreviation owners := (plan_notification_owners pl).

Lemma plan_owners_length : length owners = num_notifications n.
Proof. apply (oo_length _ _ _ _ (pk_owners _ _ _ _ Hpl)). Qed.

(** Every notification has a producer, and its owner is the device
    stream recorded for the producer. *)
Lemma plan_owner id :
  id < length owners →
  ∃ x ptr st,
    notification_of pl x = Some id ∧ x ∈ topo ∧
    owners !! id = Some (Some ptr) ∧
    GetComputeStreamForNode pl x = Some ptr ∧
    Exec.deref (plan_logic_streams pl) ptr = Some st.
Proof.
  intros Hid. rewrite plan_owners_length in Hid.
  pose proof (pk_notifications _ _ _ _ Hpl) as Hn.
  rewrite (no_num _ _ Hn) in Hid.
  destruct (lookup_lt_is_Some_2 _ _ Hid) as [x Hx].
  apply (no_map _ _ Hn) in Hx.
  assert (x ∈ topo) as Hxt.
  { eapply notification_topo; [apply (pk_partition _ _ _ _ Hpl)|done..]. }
  destruct (plan_bound ss K b pl HK Hpl x Hxt)
    as (node & ep & s & j & st & ls & _ & _ & _ & _ & Hm & Hls & _ & Hst & _).
  exists x, (s, j), st. split; [done|]. split; [done|].
  split; [|split].
  - rewrite (oo_owner _ _ _ _ (pk_owners _ _ _ _ Hpl) x id Hxt Hx).
    by rewrite <-(pk_map _ _ _ _ Hpl).
  - unfold GetComputeStreamForNode. by rewrite Hm.
  - unfold Exec.deref. simpl. by rewrite Hls.
Qed.

Lemma plan_index_bound s ls c idx :
  plan_logic_streams pl !! s = Some ls → c ∈ commands_ ls →
  captured_index c = Some idx → idx < length owners.
Proof.
  intros Hls Hc Hidx.
  assert (s < K) as Hs.
  { apply lookup_lt_Some in Hls.
    by rewrite (proj1 (pk_emitted _ _ _ _ Hpl)) in Hls. }
  destruct (plan_stream ss K b pl Hpl s Hs)
    as (ls' & nodes & ls0 & Hls' & _ & _ & _ & Hcmds).
  assert (ls' = ls) as -> by congruence.
  rewrite Hcmds in Hc. rewrite plan_owners_length.
  pose proof (pk_notifications _ _ _ _ Hpl) as Hn.
  destruct c as [wh cs id|x|h id]; simplify_eq/=.
  - apply wait_in_stream_commands in Hc as (u & _ & Hu).
    by eapply notification_lt.
  - apply notify_in_stream_commands in Hc as (x & _ & Hx).
    by eapply notification_lt.
Qed.
End context_facts.

(** C9.  Every notification index captured by a wait or a notify command
    of the plan is below the size of the notification-owners vector; the
    execution context allocates that many notifications, and
    [ctx.notifications[index]] is defined for every such index. *)
Theorem notification_indices_in_bounds (ss : SessionState) (K : nat) :
  well_formed ss → 0 < K →
  ∃ pl ctx tr,
    Planner.ParallelExecutionPlanImpl ss K = Ok pl ∧
    Exec.ExecutionContext_new (Planner.plan_logic_streams pl)
      (Planner.plan_notification_owners pl) = Ok (ctx, tr) ∧
    length (Exec.notifications ctx) =
      length (Planner.plan_notification_owners pl) ∧
    ∀ s ls c idx,
      Planner.plan_logic_streams pl !! s = Some ls → c ∈ commands_ ls →
      captured_index c = Some idx →
      idx < length (Planner.plan_notification_owners pl) ∧
      ∃ h, Exec.notification_at ctx idx = Ok h.
Proof.
  intros Hwf HK. destruct (plan_total ss K Hwf HK) as (pl & b & Hpl & Hok).
  destruct (ExecutionContext_new_ok (Planner.plan_logic_streams pl)
              (Planner.plan_notification_owners pl))
    as (ctx & tr & Hctx & Hlen & Hat).
  { intros id Hid.
    destruct (plan_owner ss K b pl HK Hok id Hid)
      as (x & ptr & st & _ & _ & ? & _ & ?).
    eauto. }
  exists pl, ctx, tr. split; [done|]. split; [done|]. split; [done|].
  intros s ls c idx Hls Hc Hidx.
  pose proof (plan_index_bound ss K b pl Hok s ls c idx Hls Hc Hidx) as Hlt.
  split; [done|]. by apply Hat.
Qed.

Lemma notification_indices_in_bounds_witness :
  well_formed (Scenario.session_of Scenario.chain4) ∧ 0 < 2 ∧
  ∃ pl ctx tr,
    Planner.ParallelExecutionPlanImpl (Scenario.session_of Scenario.chain4) 2
      = Ok pl ∧
    Exec.ExecutionContext_new (Planner.plan_logic_streams pl)
      (Planner.plan_notification_owners pl) = Ok (ctx, tr) ∧
    length (Exec.notifications ctx) =
      length (Planner.plan_notification_owners pl) ∧
    ∀ s ls c idx,
      Planner.plan_logic_streams pl !! s = Some ls → c ∈ commands_ ls →
      captured_index c = Some idx →
      idx < length (Planner.plan_notification_owners pl) ∧
      ∃ h, Exec.notification_at ctx idx = Ok h.
Proof.
  split; [apply check_well_formed_sound; vm_compute; reflexivity|].
  split; [lia|].
  apply notification_indices_in_bounds; [|lia].
  apply check_well_formed_sound; vm_compute; reflexivity.
Defined.

(** ** Notify commands *)

Lemma filter_singleton_length {A} (P : A → Prop) `{!∀ x, Decision (P x)}
    (l : list A) (x : A) :
  NoDup l → x ∈ l → P x → (∀ y, y ∈ l → P y → y = x) →
  length (filter P l) = 1.
Proof.
  intros Hnd Hx HP Huniq.
  assert (filter P l ≡ₚ [x]) as ->; [|done].
  apply NoDup_Permutation.
  - by apply NoDup_filter.
  - apply NoDup_singleton.
  - intros y. rewrite list_elem_of_filter, list_elem_of_singleton. split.
    + intros [? ?]. by apply Huniq.
    + by intros ->.
Qed.

Section notify_facts.
Import Planner.
Context (ss : SessionState) (n : Notifications).
Context (owners : list (option StreamPtr)) (m : gmap NodeIndex (option StreamPtr)).
Context (devs : list Stream) (nodes : list NodeIndex) (i : nat).
Local Abbreviation g := (GetGraphViewer ss).
Local Abbreviation node_commands := (node_commands ss n owners m devs nodes i).
Local Abbreviation bound_in := (bound_in ss devs).

Lemma count_notify_app id (l1 l2 : list Command) :
  count_notify id (l1 ++ l2) = count_notify id l1 + count_notify id l2.
Proof. unfold count_notify. by rewrite filter_app, length_app. Qed.

Lemma count_notify_waits id x node (inputs : list nat) :
  count_notify id (omap (wait_for n owners m nodes x node) inputs) = 0.
Proof.
  unfold count_notify. induction inputs as [|u inputs IH]; [done|].
  simpl. destruct (wait_for n owners m nodes x node u) as [c|] eqn:Hc; [|done].
  unfold wait_for in Hc.
  destruct (not_found u nodes); [|done].
  destruct (node_to_notification n !! u) as [id'|]; [|done]. simpl in Hc.
  destruct (owners !! id') as [owner|]; [|done]. simpl in Hc. simplify_eq.
  by rewrite filter_cons_False by (simpl; tauto).
Qed.

Lemma count_notify_node id x :
  bound_in x →
  count_notify id (node_commands x) =
    if decide (node_to_notification n !! x = Some id) then 1 else 0.
Proof.
  intros [[node Hnode] [j Hj]]. unfold Inv.node_commands. rewrite Hnode.
  rewrite count_notify_app, count_notify_waits. simpl.
  unfold count_notify, notify_for. rewrite Hj.
  rewrite filter_cons_False by (simpl; tauto).
  destruct (node_to_notification n !! x) as [id'|]; [|by case_decide].
  rewrite filter_cons. simpl.
  destruct (decide (id' = id)) as [->|Hne].
  - rewrite decide_True by (by apply bool_decide_pack).
    by rewrite decide_True.
  - rewrite decide_False; [by rewrite decide_False by congruence|].
    intros ?%bool_decide_unpack. done.
Qed.

Lemma count_notify_nodes id (l : list nat) :
  (∀ x, x ∈ l → bound_in x) →
  count_notify id (concat (node_commands <$> l)) =
  length (filter (λ x, node_to_notification n !! x = Some id) l).
Proof.
  induction l as [|x l IH]; intros Hall; [done|].
  rewrite fmap_cons. simpl concat.
  rewrite count_notify_app, count_notify_node by (apply Hall; by left).
  rewrite IH by (intros y Hy; apply Hall; by right).
  rewrite filter_cons. by case_decide.
Qed.

(** The notify command of a producer is the command after its compute
    command. *)
Lemma notify_follows_compute x id j :
  x ∈ nodes → bound_in x →
  node_to_notification n !! x = Some id →
  node_ep ss x ≫= (λ ep, find_stream ep devs) = Some j →
  ∃ a, stream_commands ss n owners m devs nodes i !! a = Some (ComputeCmd x) ∧
       stream_commands ss n owners m devs nodes i !! S a
         = Some (NotifyCmd (i, j) id).
Proof.
  intros Hx [[node Hnode] _] Hid Hj.
  apply list_elem_of_split in Hx as (l1 & l2 & Hx).
  set (A := concat (node_commands <$> l1)).
  set (B := concat (node_commands <$> l2)).
  set (W := omap (wait_for n owners m nodes x node) (InputNodes node)).
  assert (stream_commands ss n owners m devs nodes i =
          (A ++ W) ++ ComputeCmd x :: NotifyCmd (i, j) id :: B) as ->.
  { unfold stream_commands.
    rewrite (stream_commands_split _ _ _ _ _ _ _ _ _ _ _ Hx).
    unfold Inv.node_commands at 2. rewrite Hnode.
    unfold notify_for. rewrite Hid, Hj. by rewrite <-!(assoc_L (++)). }
  exists (length (A ++ W)). split.
  - by rewrite list_lookup_middle.
  - rewrite (cons_middle (ComputeCmd x)), (assoc_L (++)).
    rewrite list_lookup_middle; [done|].
    rewrite (length_app (A ++ W)). simpl. lia.
Qed.
End notify_facts.

Lemma count_notify_concat id (P : nat → Prop) `{!∀ x, Decision (P x)}
    (streams : list LogicStream) (nis : list (list nat)) :
  Forall2 (λ ls nodes, count_notify id (commands_ ls) = length (filter P nodes))
          streams nis →
  count_notify id (concat (commands_ <$> streams)) =
  length (filter P (concat nis)).
Proof.
  induction 1 as [|ls nodes streams nis Hhd _ IH]; [done|].
  rewrite fmap_cons. simpl concat.
  rewrite count_notify_app, filter_app, length_app. by rewrite Hhd, IH.
Qed.

Section notify_plan_facts.
Import Planner.
Context (ss : SessionState) (K : nat) (b : Binding) (pl : Plan).
Context (Hwf : well_formed ss) (HK : 0 < K) (Hpl : plan_ok ss K b pl).
Local Abbreviation g := (GetGraphViewer ss).
Local Abbreviation topo := (GetNodesInTopologicalOrder (GetGraphViewer ss)).
Local Abbreviation p := (plan_partition pl).
Local Abbreviation n := (plan_notifications pl).
Local Abbreviation owners := (plan_notification_owners pl).
Local Abbreviation m := (node_to_stream_map_ b).

Lemma plan_bound_in s ls nodes x :
  plan_logic_streams pl !! s = Some ls →
  nodes_in_stream p !! s = Some nodes → x ∈ nodes →
  ∃ j, bound_in ss (device_streams_ ls) x ∧
       node_ep ss x ≫= (λ ep, find_stream ep (device_streams_ ls)) = Some j ∧
       GetComputeStreamForNode pl x = Some (s, j).
Proof.
  intros Hls Hnodes Hx.
  pose proof (pk_partition _ _ _ _ Hpl) as Hp.
  assert (x ∈ topo) as Hxt by (eapply po_elem_topo; eauto).
  destruct (plan_bound ss K b pl HK Hpl x Hxt)
    as (node & ep & s' & j & st & ls' & Hn & Hep & Hs & _ & Hm & Hls' & Hj & _).
  pose proof (po_stream_of K topo p HK Hp _ _ _ Hnodes Hx) as Hs'.
  assert (s' = s) as -> by congruence.
  assert (ls' = ls) as -> by congruence.
  assert (node_ep ss x ≫= (λ ep, find_stream ep (device_streams_ ls)) = Some j)
    as Hbind.
  { unfold node_ep. rewrite Hn. simpl. rewrite Hep. done. }
  exists j. split; [|split; [done|]].
  - split; [by rewrite Hn|]. by rewrite Hbind.
  - unfold GetComputeStreamForNode. by rewrite Hm.
Qed.

Lemma plan_count_notify id :
  count_notify id (all_commands pl) =
  length (filter (λ x, notification_of pl x = Some id)
                 (concat (nodes_in_stream p))).
Proof.
  unfold all_commands. apply count_notify_concat.
  apply Forall2_same_length_lookup_2.
  - rewrite (proj1 (pk_emitted _ _ _ _ Hpl)).
    by rewrite (po_length _ _ _ (pk_partition _ _ _ _ Hpl)).
  - intros s ls nodes Hls Hnodes.
    assert (s < K) as Hs.
    { apply lookup_lt_Some in Hls.
      by rewrite (proj1 (pk_emitted _ _ _ _ Hpl)) in Hls. }
    destruct (plan_stream ss K b pl Hpl s Hs)
      as (ls' & nodes' & ls0 & Hls' & Hnodes' & _ & Hdevs & Hcmds).
    simplify_eq. rewrite Hcmds, <-Hdevs.
    apply count_notify_nodes. intros x Hx.
    by destruct (plan_bound_in s ls nodes x Hls Hnodes Hx) as (j & ? & _).
Qed.

Lemma plan_notify_unique id :
  id < length owners → count_notify id (all_commands pl) = 1.
Proof.
  intros Hid. rewrite plan_count_notify.
  pose proof (pk_partition _ _ _ _ Hpl) as Hp.
  destruct (plan_owner ss K b pl HK Hpl id Hid) as (x & _ & _ & Hx & Hxt & _).
  apply (filter_singleton_length _ _ x).
  - apply (po_NoDup_concat K topo p (wf_NoDup _ Hwf) Hp).
  - by rewrite (po_perm _ _ _ Hp).
  - done.
  - intros y _ Hy.
    eapply notification_inj; [apply (pk_notifications _ _ _ _ Hpl)|done..].
Qed.

Lemma plan_notify_position id :
  id < length owners →
  ∃ x s ls a h,
    notification_of pl x = Some id ∧ logic_stream_of pl x = Ok s ∧
    plan_logic_streams pl !! s = Some ls ∧
    commands_ ls !! a = Some (ComputeCmd x) ∧
    commands_ ls !! S a = Some (NotifyCmd h id) ∧
    GetComputeStreamForNode pl x = Some h.
Proof.
  intros Hid.
  destruct (plan_owner ss K b pl HK Hpl id Hid) as (x & _ & _ & Hx & Hxt & _).
  destruct (plan_stream_of ss K b pl HK Hpl x Hxt)
    as (s & nodes & Hs & HsK & Hnodes & Hin).
  destruct (plan_stream ss K b pl Hpl s HsK)
    as (ls & nodes' & ls0 & Hls & Hnodes' & _ & Hdevs & Hcmds).
  simplify_eq.
  destruct (plan_bound_in s ls nodes x Hls Hnodes Hin) as (j & Hb & Hj & Hget).
  destruct (notify_follows_compute ss n owners m (device_streams_ ls) nodes s
              x id j Hin Hb Hx Hj) as (a & Ha & HSa).
  exists x, s, ls, a, (s, j). rewrite Hcmds, <-Hdevs. done.
Qed.
End notify_plan_facts.

(** C3.  Notify uniqueness: for every notification id of the plan the
    command lists of all logic streams together hold exactly one notify
    command with that id, and it is the command right after the compute
    command of the node that produced the notification (issued on the
    device stream of that node). *)
Theorem notify_uniqueness (ss : SessionState) (K : nat) :
  well_formed ss → 0 < K →
  ∃ pl, Planner.ParallelExecutionPlanImpl ss K = Ok pl ∧
    ∀ id, id < length (Planner.plan_notification_owners pl) →
      count_notify id (all_commands pl) = 1 ∧
      ∃ x s ls a h,
        notification_of pl x = Some id ∧ logic_stream_of pl x = Ok s ∧
        Planner.plan_logic_streams pl !! s = Some ls ∧
        commands_ ls !! a = Some (ComputeCmd x) ∧
        commands_ ls !! S a = Some (NotifyCmd h id) ∧
        Planner.GetComputeStreamForNode pl x = Some h.
Proof.
  intros Hwf HK. destruct (plan_total ss K Hwf HK) as (pl & b & Hpl & Hok).
  exists pl. split; [done|]. intros id Hid. split.
  - by eapply plan_notify_unique.
  - by eapply plan_notify_position.
Qed.

Lemma notify_uniqueness_witness :
  well_formed (Scenario.session_of Scenario.chain4) ∧ 0 < 2 ∧
  ∃ pl,
    Planner.ParallelExecutionPlanImpl (Scenario.session_of Scenario.chain4) 2
      = Ok pl ∧
    ∀ id, id < length (Planner.plan_notification_owners pl) →
      count_notify id (all_commands pl) = 1 ∧
      ∃ x s ls a h,
        notification_of pl x = Some id ∧ logic_stream_of pl x = Ok s ∧
        Planner.plan_logic_streams pl !! s = Some ls ∧
        commands_ ls !! a = Some (ComputeCmd x) ∧
        commands_ ls !! S a = Some (NotifyCmd h id) ∧
        Planner.GetComputeStreamForNode pl x = Some h.
Proof.
  split; [apply check_well_formed_sound; vm_compute; reflexivity|].
  split; [lia|].
  apply notify_uniqueness; [|lia].
  apply check_well_formed_sound; vm_compute; reflexivity.
Defined.

(** ** Counting the notifications *)

Lemma filter_ext_in {A} (P Q : A → Prop)
    `{!∀ x, Decision (P x)} `{!∀ x, Decision (Q x)} (l : list A) :
  (∀ x, x ∈ l → P x ↔ Q x) → filter P l = filter Q l.
Proof.
  induction l as [|x l IH]; intros Hext; [done|].
  rewrite !filter_cons.
  rewrite IH by (intros y Hy; apply Hext; by right).
  destruct (decide (P x)) as [HP|HP], (decide (Q x)) as [HQ|HQ]; try done.
  - destruct HQ. apply Hext; [by left|done].
  - destruct HP. apply Hext; [by left|done].
Qed.

Lemma filter_none {A} (P : A → Prop) `{!∀ x, Decision (P x)} (l : list A) :
  (∀ x, x ∈ l → ¬ P x) → filter P l = [].
Proof.
  intros Hall. destruct (filter P l) as [|x l'] eqn:E; [done|].
  assert (x ∈ filter P l) as [HP Hx]%list_elem_of_filter by (rewrite E; by left).
  by destruct (Hall x Hx).
Qed.

Lemma existsb_ext_in {A} (f h : A → bool) (l : list A) :
  (∀ x, x ∈ l → f x = h x) → existsb f l = existsb h l.
Proof.
  induction l as [|x l IH]; intros Hext; [done|].
  simpl. rewrite (Hext x) by (by left).
  by rewrite IH by (intros y Hy; apply Hext; by right).
Qed.

Lemma producers_filter g (Q : nat → bool) (ll : list (list nat)) :
  (∀ nodes x, nodes ∈ ll → x ∈ nodes → crosses g nodes x = Q x) →
  producers g ll = filter (λ x, Q x) (concat ll).
Proof.
  unfold producers. induction ll as [|nodes ll IH]; intros Hext; [done|].
  rewrite fmap_cons. simpl concat. rewrite filter_app. f_equal.
  - apply filter_ext_in. intros x Hx.
    rewrite (Hext nodes x); [done|by left|done].
  - apply IH. intros nodes' x Hn Hx. apply Hext; [by right|done].
Qed.

Section count_facts.
Import Planner.
Context (ss : SessionState) (K : nat) (b : Binding) (pl : Plan).
Context (Hwf : well_formed ss) (HK : 0 < K) (Hpl : plan_ok ss K b pl).
Local Abbreviation g := (GetGraphViewer ss).
Local Abbreviation topo := (GetNodesInTopologicalOrder (GetGraphViewer ss)).
Local Abbreviation p := (plan_partition pl).
Local Abbreviation n := (plan_notifications pl).
Local Abbreviation owners := (plan_notification_owners pl).

(** The membership test of pass 2 says that a consumer is in another
    logic stream. *)
Lemma crosses_is_crosses_boundary s nodes x :
  nodes_in_stream p !! s = Some nodes → x ∈ nodes →
  crosses g nodes x = crosses_boundary g pl x.
Proof.
  intros Hs Hx. pose proof (pk_partition _ _ _ _ Hpl) as Hp.
  assert (x ∈ topo) as Hxt by (eapply po_elem_topo; eauto).
  unfold crosses, crosses_boundary, logic_stream_of.
  destruct (GetNode g x) as [node|] eqn:Hnode; [|done].
  rewrite (po_stream_of K topo p HK Hp _ _ _ Hs Hx).
  apply existsb_ext_in. intros out Hout.
  destruct (wf_outputs _ Hwf x node out Hxt Hnode Hout) as (Hot & _).
  destruct (plan_stream_of ss K b pl HK Hpl out Hot) as (s' & nodes' & Hs' & _ & Hn' & Ho').
  rewrite Hs'.
  pose proof (po_not_found K topo p HK Hp s nodes out Hs Hot) as Hnf.
  rewrite Hs' in Hnf.
  destruct (not_found out nodes) eqn:E.
  - symmetry. apply negb_true_iff, Nat.eqb_neq. intros ->.
    by apply (proj1 Hnf).
  - symmetry. apply negb_false_iff, Nat.eqb_eq.
    destruct (decide (s' = s)) as [|Hne]; [done|].
    assert (false = true); [|done]. apply Hnf. congruence.
Qed.

Lemma plan_producers :
  producers g (nodes_in_stream p) =
  filter (λ x, crosses_boundary g pl x) (concat (nodes_in_stream p)).
Proof.
  apply producers_filter.
  intros nodes x [s Hs]%list_elem_of_lookup_1 Hx.
  by eapply crosses_is_crosses_boundary.
Qed.

Lemma plan_notification_count :
  num_notifications n = length (filter (λ x, crosses_boundary g pl x) topo) ∧
  length owners = num_notifications n ∧
  (∀ x k, notification_of pl x = Some k ↔
          filter (λ x, crosses_boundary g pl x)
                 (concat (nodes_in_stream p)) !! k = Some x).
Proof.
  pose proof (pk_notifications _ _ _ _ Hpl) as Hn.
  rewrite plan_producers in Hn. split; [|split].
  - rewrite (no_num _ _ Hn).
    by rewrite (po_perm _ _ _ (pk_partition _ _ _ _ Hpl)).
  - apply (oo_length _ _ _ _ (pk_owners _ _ _ _ Hpl)).
  - apply (no_map _ _ Hn).
Qed.
End count_facts.

(** C5.  No spurious notifications: the planner allocates as many
    notifications as there are nodes with an out-edge to a node of
    another logic stream, the owners vector has that size, and the
    [k]-th such node in the order pass 2 visits the nodes (the node
    list of stream 0, then of stream 1, ...) gets the id [k], so the
    ids are [0 .. n-1]. *)
Theorem no_spurious_notifications (ss : SessionState) (K : nat) :
  well_formed ss → 0 < K →
  ∃ pl, Planner.ParallelExecutionPlanImpl ss K = Ok pl ∧
    Planner.num_notifications (Planner.plan_notifications pl) =
      length (filter (λ x, crosses_boundary (GetGraphViewer ss) pl x)
                     (GetNodesInTopologicalOrder (GetGraphViewer ss))) ∧
    length (Planner.plan_notification_owners pl) =
      Planner.num_notifications (Planner.plan_notifications pl) ∧
    (∀ x k, notification_of pl x = Some k ↔
            filter (λ x, crosses_boundary (GetGraphViewer ss) pl x)
                   (concat (Planner.nodes_in_stream (Planner.plan_partition pl)))
              !! k = Some x).
Proof.
  intros Hwf HK. destruct (plan_total ss K Hwf HK) as (pl & b & Hpl & Hok).
  exists pl. split; [done|]. by eapply plan_notification_count.
Qed.

Lemma no_spurious_notifications_witness :
  well_formed (Scenario.session_of Scenario.diamond) ∧ 0 < 2 ∧
  ∃ pl,
    Planner.ParallelExecutionPlanImpl (Scenario.session_of Scenario.diamond) 2
      = Ok pl ∧
    Planner.num_notifications (Planner.plan_notifications pl) =
      length (filter
                (λ x, crosses_boundary
                        (GetGraphViewer (Scenario.session_of Scenario.diamond))
                        pl x)
                (GetNodesInTopologicalOrder
                   (GetGraphViewer (Scenario.session_of Scenario.diamond)))) ∧
    length (Planner.plan_notification_owners pl) =
      Planner.num_notifications (Planner.plan_notifications pl) ∧
    (∀ x k, notification_of pl x = Some k ↔
            filter
              (λ x, crosses_boundary
                      (GetGraphViewer (Scenario.session_of Scenario.diamond))
                      pl x)
              (concat (Planner.nodes_in_stream (Planner.plan_partition pl)))
              !! k = Some x).
Proof.
  split; [apply check_well_formed_sound; vm_compute; reflexivity|].
  split; [lia|].
  apply no_spurious_notifications; [|lia].
  apply check_well_formed_sound; vm_compute; reflexivity.
Defined.

(** ** One logic stream *)

Section sequential_facts.
Import Planner.
Context (ss : SessionState) (b : Binding) (pl : Plan).
Context (Hwf : well_formed ss) (Hpl : plan_ok ss 1 b pl).
Local Abbreviation g := (GetGraphViewer ss).
Local Abbreviation topo := (GetNodesInTopologicalOrder (GetGraphViewer ss)).
Local Abbreviation p := (plan_partition pl).
Local Abbreviation n := (plan_notifications pl).
Local Abbreviation owners := (plan_notification_owners pl).

Lemma sequential_partition : nodes_in_stream p = [topo].
Proof.
  pose proof (pk_partition _ _ _ _ Hpl) as Hp.
  pose proof (po_length _ _ _ Hp) as Hlen.
  destruct (nodes_in_stream p) as [|nodes [|? ?]] eqn:E; try done.
  f_equal. apply list_eq. intros q.
  rewrite (po_slot _ _ _ Hp 0 nodes q) by (by rewrite E).
  f_equal. lia.
Qed.

Lemma sequential_no_producers : producers g (nodes_in_stream p) = [].
Proof.
  rewrite sequential_partition. unfold producers. simpl.
  rewrite app_nil_r. apply filter_none.
  intros x Hx Hc. unfold crosses in Hc.
  destruct (GetNode g x) as [node|] eqn:Hnode; [|done].
  apply Is_true_true, existsb_exists in Hc as (out & Hout & Hnf).
  unfold not_found in Hnf. apply bool_decide_eq_true in Hnf. apply Hnf.
  apply list_elem_of_In in Hout.
  by destruct (wf_outputs _ Hwf x node out Hx Hnode Hout).
Qed.

Lemma sequential_no_notification x : node_to_notification n !! x = None.
Proof.
  pose proof (pk_notifications _ _ _ _ Hpl) as Hn.
  rewrite sequential_no_producers in Hn.
  destruct (node_to_notification n !! x) as [id|] eqn:E; [|done].
  by apply (no_map _ _ Hn) in E.
Qed.

Lemma sequential_num : num_notifications n = 0 ∧ owners = [].
Proof.
  pose proof (pk_notifications _ _ _ _ Hpl) as Hn.
  rewrite sequential_no_producers in Hn.
  pose proof (no_num _ _ Hn) as Hnum. simpl in Hnum. split; [done|].
  apply nil_length_inv.
  by rewrite (oo_length _ _ _ _ (pk_owners _ _ _ _ Hpl)).
Qed.

Lemma sequential_node_commands m devs x :
  x ∈ topo →
  node_commands ss n owners m devs topo 0 x = [ComputeCmd x].
Proof.
  intros Hx. unfold node_commands.
  destruct (wf_node _ Hwf x Hx) as [node Hnode]. rewrite Hnode.
  unfold notify_for. rewrite sequential_no_notification.
  assert (omap (wait_for n owners m topo x node) (InputNodes node) = []) as ->;
    [|done].
  assert (∀ u, u ∈ InputNodes node → u ∈ topo) as Hin.
  { intros u Hu. by destruct (wf_inputs _ Hwf x node u Hx Hnode Hu). }
  induction (InputNodes node) as [|u inputs IH]; [done|].
  simpl. unfold wait_for at 1. unfold not_found.
  rewrite bool_decide_eq_false_2.
  - apply IH. intros u' Hu'. apply Hin. by right.
  - intros Hnin. apply Hnin, Hin. by left.
Qed.

Lemma sequential_commands :
  ∃ ls, plan_logic_streams pl = [ls] ∧ commands_ ls = ComputeCmd <$> topo.
Proof.
  destruct (plan_stream ss 1 b pl Hpl 0 ltac:(lia))
    as (ls & nodes & ls0 & Hls & Hnodes & _ & _ & Hcmds).
  rewrite sequential_partition in Hnodes. simplify_eq/=.
  pose proof (proj1 (pk_emitted _ _ _ _ Hpl)) as Hlen.
  exists ls. split.
  - destruct (plan_logic_streams pl) as [|ls' [|? ?]]; simplify_eq/=. done.
  - rewrite Hcmds. unfold stream_commands.
    assert (∀ l, (∀ x, x ∈ l → x ∈ topo) →
              concat (node_commands ss n owners (node_to_stream_map_ b)
                        (device_streams_ ls0) topo 0 <$> l)
              = ComputeCmd <$> l) as Hall; [|by apply Hall].
    induction l as [|x l IH]; intros Hl; [done|].
    rewrite !fmap_cons. simpl concat.
    rewrite sequential_node_commands by (apply Hl; by left).
    rewrite IH by (intros y Hy; apply Hl; by right). done.
Qed.
End sequential_facts.

(** C7.  Degenerate [K = 1]: no notification is created, there is one
    logic stream, it holds every node, and its command list is the
    compute commands of the nodes in the topological order of the
    graph view, with no wait and no notify command. *)
Theorem sequential_plan (ss : SessionState) :
  well_formed ss →
  ∃ pl ls,
    Planner.ParallelExecutionPlanImpl ss 1 = Ok pl ∧
    Planner.num_notifications (Planner.plan_notifications pl) = 0 ∧
    Planner.plan_notification_owners pl = [] ∧
    Planner.plan_logic_streams pl = [ls] ∧
    Planner.nodes_in_stream (Planner.plan_partition pl) =
      [GetNodesInTopologicalOrder (GetGraphViewer ss)] ∧
    commands_ ls =
      ComputeCmd <$> GetNodesInTopologicalOrder (GetGraphViewer ss).
Proof.
  intros Hwf.
  destruct (plan_total ss 1 Hwf ltac:(lia)) as (pl & b & Hpl & Hok).
  destruct (sequential_commands ss b pl Hwf Hok) as (ls & Hls & Hcmds).
  destruct (sequential_num ss b pl Hwf Hok) as [Hnum Howners].
  exists pl, ls. split; [done|]. split; [done|]. split; [done|].
  split; [done|]. split; [|done].
  by eapply sequential_partition.
Qed.

Lemma sequential_plan_witness :
  well_formed (Scenario.session_of Scenario.chain3) ∧
  ∃ pl ls,
    Planner.ParallelExecutionPlanImpl (Scenario.session_of Scenario.chain3) 1
      = Ok pl ∧
    Planner.num_notifications (Planner.plan_notifications pl) = 0 ∧
    Planner.plan_notification_owners pl = [] ∧
    Planner.plan_logic_streams pl = [ls] ∧
    Planner.nodes_in_stream (Planner.plan_partition pl) =
      [GetNodesInTopologicalOrder
         (GetGraphViewer (Scenario.session_of Scenario.chain3))] ∧
    commands_ ls =
      ComputeCmd <$> GetNodesInTopologicalOrder
                       (GetGraphViewer (Scenario.session_of Scenario.chain3)).
Proof.
  split; [apply check_well_formed_sound; vm_compute; reflexivity|].
  apply sequential_plan.
  apply check_well_formed_sound; vm_compute; reflexivity.
Defined.

(** ** Running and destroying a logic stream *)

Section run_facts.
Context {Frame : Type} (ss : SessionState).
Context (kernel_Compute : nat → Frame → Exec.Status * Frame).
Local Abbreviation run_command := (Exec.run_command kernel_Compute).
Local Abbreviation Run := (Exec.Run ss kernel_Compute).

Lemma destroy_trace (devs : list Stream) (w : Exec.World (Frame := Frame)) :
  Exec.trace
    (foldl (λ w device_stream,
              Exec.emit_event
                (Exec.ReleaseStream (Type_ ss (provider device_stream))
                                    (handle device_stream)) w)
           w devs) =
  Exec.trace w ++ (release_of ss <$> devs).
Proof.
  revert w. induction devs as [|s devs IH]; intros w; simpl.
  - by rewrite app_nil_r.
  - rewrite IH. simpl. by rewrite <-(assoc_L (++)).
Qed.

Lemma run_compute_ok ctx w x :
  Exec.IsOK (kernel_Compute x (Exec.frame w)).1 = true →
  run_command ctx w (ComputeCmd x) =
  Ok {| Exec.frame := (kernel_Compute x (Exec.frame w)).2;
        Exec.trace := Exec.trace w ++ [Exec.Compute x] |}.
Proof.
  intros Hok. simpl. destruct (kernel_Compute x (Exec.frame w)) as [st fr].
  simpl in *. by rewrite Hok.
Qed.

Lemma run_compute_fail ctx w x :
  Exec.IsOK (kernel_Compute x (Exec.frame w)).1 = false →
  run_command ctx w (ComputeCmd x) = Fail EnforceKernel.
Proof.
  intros Hok. simpl. destruct (kernel_Compute x (Exec.frame w)) as [st fr].
  simpl in *. by rewrite Hok.
Qed.
End run_facts.

(** C8.  A compute command is fatal exactly when the kernel's [Compute]
    returns a status that is not OK, and then by the enforcement check;
    on an OK status the command returns, and the logic stream goes on
    with the commands after it, while a failure ends [Run] there. *)
Theorem kernel_failure_is_fatal {Frame : Type} (ss : SessionState)
    (kernel_Compute : nat → Frame → Exec.Status * Frame)
    (ctx : Exec.ExecutionContext) (w : Exec.World) (x : nat) :
  ((∃ e, Exec.run_command kernel_Compute ctx w (ComputeCmd x) = Fail e) ↔
   Exec.IsOK (kernel_Compute x (Exec.frame w)).1 = false) ∧
  (∀ e, Exec.run_command kernel_Compute ctx w (ComputeCmd x) = Fail e →
        e = EnforceKernel) ∧
  (Exec.IsOK (kernel_Compute x (Exec.frame w)).1 = true →
   ∃ w', Exec.run_command kernel_Compute ctx w (ComputeCmd x) = Ok w' ∧
         Exec.trace w' = Exec.trace w ++ [Exec.Compute x] ∧
         ∀ devs rest,
           Exec.Run ss kernel_Compute
             {| device_streams_ := devs; commands_ := ComputeCmd x :: rest |}
             ctx w =
           Exec.Run ss kernel_Compute
             {| device_streams_ := devs; commands_ := rest |} ctx w') ∧
  (Exec.IsOK (kernel_Compute x (Exec.frame w)).1 = false →
   ∀ devs rest,
     Exec.Run ss kernel_Compute
       {| device_streams_ := devs; commands_ := ComputeCmd x :: rest |} ctx w
     = Fail EnforceKernel).
Proof.
  destruct (Exec.IsOK (kernel_Compute x (Exec.frame w)).1) eqn:Hok.
  - pose proof (run_compute_ok kernel_Compute ctx w x Hok) as Hrun.
    split; [|split; [|split]].
    + split; [|done]. intros [e He]. by rewrite Hrun in He.
    + intros e He. by rewrite Hrun in He.
    + intros _. eexists. split; [done|]. split; [done|].
      intros devs rest. unfold Exec.Run. simpl commands_.
      change (foldM ?f (?c :: ?l) ?a) with (f a c ≫= foldM f l).
      by rewrite Hrun.
    + done.
  - pose proof (run_compute_fail kernel_Compute ctx w x Hok) as Hrun.
    split; [|split; [|split]].
    + split; [done|]. intros _. eauto.
    + intros e He. rewrite Hrun in He. by simplify_eq.
    + done.
    + intros _ devs rest. unfold Exec.Run. simpl commands_.
      change (foldM ?f (?c :: ?l) ?a) with (f a c ≫= foldM f l).
      by rewrite Hrun.
Qed.

(** C6 as stated fails: a logic stream with two device streams releases
    them in the order of insertion, which is not the reverse order. *)
Lemma release_reverse_counterexample :
  ¬ released_in_reverse (Scenario.session_of Scenario.chain3)
      Scenario.two_device_streams.
Proof.
  intros H.
  specialize (H {| Exec.frame := (); Exec.trace := [] |}).
  vm_compute in H. discriminate H.
Qed.

(** C6, amended.  The destructor of a logic stream calls [release_stream]
    once for each owned device stream, in the order in which the device
    streams were inserted. *)
Theorem release_in_insertion_order {Frame : Type} (ss : SessionState)
    (ls : LogicStream) (w : Exec.World (Frame := Frame)) :
  Exec.trace (Exec.LogicStream_destroy ss ls w) =
  Exec.trace w ++ (release_of ss <$> device_streams_ ls).
Proof. apply destroy_trace. Qed.

Example scenario_C_streams :
  (pl ← Planner.ParallelExecutionPlanImpl (Scenario.session_of Scenario.chain3) 1;
   Ok (Planner.plan_logic_streams pl))
  = Ok [Scenario.two_device_streams].
Proof. vm_compute. reflexivity. Qed.

(** ** [Execute] *)

Section execute_facts.
Import Execute.
Context (K : nat).
Local Abbreviation execute_inv := (execute_inv K).

Lemma execute_inv_init : execute_inv (init K).
Proof.
  split; simpl; [by rewrite length_replicate|done..].
Qed.

Lemma barrier_stays_set (bs : list bool) i j :
  bs !! j = Some true → <[i := true]> bs !! j = Some true.
Proof.
  intros Hj. destruct (decide (i = j)) as [->|Hne].
  - rewrite list_lookup_insert_eq; [done|]. by eapply lookup_lt_Some.
  - by rewrite list_lookup_insert_ne.
Qed.

Lemma execute_inv_step s s' :
  step K s s' → execute_inv s → execute_inv s'.
Proof.
  intros Hstep [Hlen Hw Hr].
  destruct Hstep; split; simpl in *; try done; try congruence.
  - intros i' j [= <-] Hj. lia.
  - intros i' j [= <-] Hj. destruct (decide (j = i)) as [->|Hne]; [done|].
    apply (Hw i); [done|lia].
  - intros _ j Hj. apply (Hw i); [done|lia].
  - by rewrite length_insert.
  - intros i j Hm Hj. apply barrier_stays_set. by eapply Hw.
  - intros Hm j Hj. apply barrier_stays_set. by apply Hr.
Qed.

Lemma execute_inv_reachable s : reachable K s → execute_inv s.
Proof.
  unfold reachable. intros Hrtc.
  assert (execute_inv (init K)) as Hinit by apply execute_inv_init.
  induction Hrtc as [|s0 s1 s2 Hstep _ IH]; [done|].
  apply IH. by eapply execute_inv_step.
Qed.

(** [Execute] returns only after every barrier has been set. *)
Lemma returns_after_barriers s :
  reachable K s → main s = Returned →
  ∀ j, j < K - 1 → barriers s !! j = Some true.
Proof. intros Hs. by apply (ei_returned _ _ (execute_inv_reachable s Hs)). Qed.
End execute_facts.

Section execute_tasks.
Import Execute.
Context (K : nat).

Lemma tasks_inv_init : tasks_inv (init K).
Proof.
  split; simpl; try done.
  - by intros i [= <-].
  - by intros _ k r ?%elem_of_nil.
Qed.

Lemma tasks_inv_step s s' : step K s s' → tasks_inv s → tasks_inv s'.
Proof.
  intros Hstep [Hcap Hhead Hing Hed Hlive Hruns].
  destruct Hstep; split; simpl in *; try done; try congruence; eauto.
  - intros i' [= <-]. eauto.
  - intros k t Hk. apply lookup_app_Some in Hk as [Hk|[Hge Hk]]; [eauto|].
    apply list_lookup_singleton_Some in Hk as [Hk <-]. simpl.
    rewrite (Hing i) in Hge, Hk by done. lia.
  - intros i' [= <-]. rewrite length_app. simpl. rewrite (Hing i) by done. lia.
  - intros i' [= <-]. eauto.
  - intros Hd k r [Hin|Hin%list_elem_of_singleton]%elem_of_app; [eauto|done].
  - intros k' t' Hk'. destruct (decide (k = k')) as [->|Hne].
    + rewrite list_lookup_insert_eq in Hk' by (by eapply lookup_lt_Some).
      simplify_eq/=. eauto.
    + rewrite list_lookup_insert_ne in Hk' by done. eauto.
  - intros i Hm. rewrite length_insert. eauto.
  - intros i Hm. rewrite length_insert. eauto.
  - intros i Hm. rewrite length_insert. eauto.
  - intros [Hd Hl]%orb_false_iff k' r'
      [Hin|Hin%list_elem_of_singleton]%elem_of_app; [eauto|].
    simplify_eq. apply negb_false_iff, bool_decide_eq_true in Hl.
    rewrite (Hlive _ Hl). simpl. eauto.
  - intros k' t' Hk'. destruct (decide (k = k')) as [->|Hne].
    + rewrite list_lookup_insert_eq in Hk' by (by eapply lookup_lt_Some).
      simplify_eq/=. eauto.
    + rewrite list_lookup_insert_ne in Hk' by done. eauto.
  - intros i Hm. rewrite length_insert. eauto.
  - intros i Hm. rewrite length_insert. eauto.
  - intros i Hm. rewrite length_insert. eauto.
  - intros [Hd Hl]%orb_false_iff. eauto.
Qed.

Lemma tasks_inv_reachable s : reachable K s → tasks_inv s.
Proof.
  unfold reachable. intros Hrtc.
  assert (tasks_inv (init K)) as Hinit by apply tasks_inv_init.
  induction Hrtc as [|s0 s1 s2 Hstep _ IH]; [done|].
  apply IH. by eapply tasks_inv_step.
Qed.

(** A task of the pool runs another logic stream than its own only by
    reading the loop variables after their iteration has ended. *)
Lemma wrong_stream_is_dangling s k r :
  reachable K s → (PoolTask k, r) ∈ runs s → r ≠ k → dangling s = true.
Proof.
  intros Hs Hin Hne.
  pose proof (tasks_inv_reachable s Hs) as Hinv.
  destruct (dangling s) eqn:Hd; [done|].
  destruct Hne. by eapply (ti_runs _ Hinv).
Qed.
End execute_tasks.

(** One step of the calling thread or of a task, then the rest. *)
Tactic Notation "exec_step" uconstr(rule) :=
  eapply rtc_l;
  [ eapply rule; simpl; first [reflexivity | lia]
  | simpl ].

(** With three logic streams and the tasks run by the pool while the
    loop variables of their iteration are alive, task [i] runs logic
    stream [i] and sets barrier [i], and [Execute] returns. *)
Example execute_tasks_run_at_once :
  ∃ s, Execute.reachable 3 s ∧
       Execute.main s = Execute.Returned ∧
       Execute.dangling s = false ∧
       Execute.runs s = [(Execute.PoolTask 0, 0); (Execute.PoolTask 1, 1);
                         (Execute.MainThread, 2)] ∧
       Execute.barriers s = [true; true].
Proof.
  eexists. split.
  - unfold Execute.reachable, Execute.init. simpl.
    exec_step Execute.step_enter.
    exec_step Execute.step_schedule.
    exec_step (Execute.step_task_run 3 _ 0).
    exec_step (Execute.step_task_set 3 _ 0).
    exec_step Execute.step_leave.
    exec_step Execute.step_enter.
    exec_step Execute.step_schedule.
    exec_step (Execute.step_task_run 3 _ 1).
    exec_step (Execute.step_task_set 3 _ 1).
    exec_step Execute.step_leave.
    exec_step Execute.step_exit.
    exec_step Execute.step_run_last.
    exec_step Execute.step_wait.
    exec_step Execute.step_wait.
    exec_step Execute.step_return.
    apply rtc_refl.
  - done.
Qed.

(** With two or more logic streams a task can read the loop variables
    after their iteration has ended. *)
Lemma dangling_read_reachable (K : nat) :
  2 ≤ K → ∃ s, Execute.reachable K s ∧ Execute.dangling s = true.
Proof.
  intros HK. eexists. split.
  - unfold Execute.reachable, Execute.init.
    exec_step Execute.step_enter.
    exec_step Execute.step_schedule.
    exec_step Execute.step_leave.
    exec_step (Execute.step_task_run K _ 0).
    apply rtc_refl.
  - done.
Qed.

(** C2 on the code.  With three logic streams and a pool that starts the
    tasks when the scheduling loop is over, the task scheduled for
    stream 0 reads [stream] and [barrier] through references to
    variables of an iteration that has ended: it runs logic stream 1 and
    sets barrier 1.  Logic stream 0 is never run, barrier 0 is never
    set, and the calling thread stays in [barriers[0].wait()]. *)
Theorem scheduled_task_reads_dead_locals :
  ∃ s, Execute.reachable 3 s ∧
       Execute.dangling s = true ∧
       Execute.runs s = [(Execute.PoolTask 0, 1); (Execute.PoolTask 1, 1);
                         (Execute.MainThread, 2)] ∧
       Execute.barriers s = [false; true] ∧
       Execute.main s = Execute.WaitLoop 0 ∧
       ∀ s', ¬ Execute.step 3 s s'.
Proof.
  eexists. split.
  - unfold Execute.reachable, Execute.init. simpl.
    exec_step Execute.step_enter.
    exec_step Execute.step_schedule.
    exec_step Execute.step_leave.
    exec_step Execute.step_enter.
    exec_step Execute.step_schedule.
    exec_step Execute.step_leave.
    exec_step (Execute.step_task_run 3 _ 0).
    exec_step (Execute.step_task_set 3 _ 0).
    exec_step (Execute.step_task_run 3 _ 1).
    exec_step (Execute.step_task_set 3 _ 1).
    exec_step Execute.step_exit.
    exec_step Execute.step_run_last.
    apply rtc_refl.
  - simpl. split; [done|]. split; [done|]. split; [done|]. split; [done|].
    intros s' Hstep. inversion Hstep; simplify_eq/=; try lia;
      match goal with
      | H : _ !! ?k = Some _ |- _ => destruct k as [|[|?]]; simplify_eq/=
      end.
Qed.

(** ** The scenarios of the design document, run on the embedding *)

(** Scenario A: chain of four nodes, two logic streams, three
    notifications. *)
Example scenario_A :
  (pl ← Planner.ParallelExecutionPlanImpl (Scenario.session_of Scenario.chain4) 2;
   Ok (Planner.nodes_in_stream (Planner.plan_partition pl),
       length (Planner.plan_notification_owners pl)))
  = Ok ([[0; 2]; [1; 3]], 3).
Proof. vm_compute. reflexivity. Qed.

(** Scenario B: diamond, two logic streams.  [B] waits on [A], [D] waits
    on [C]; [B → D] and [A → C] stay inside a stream. *)
Example scenario_B :
  (pl ← Planner.ParallelExecutionPlanImpl
          (Scenario.session_of Scenario.diamond) 2;
   Ok (commands_ <$> Planner.plan_logic_streams pl))
  = Ok [ [ ComputeCmd 0; NotifyCmd (0, 0) 0; ComputeCmd 2; NotifyCmd (0, 0) 1 ];
         [ WaitCmd {| wait_owner := Some (0, 0); wait_consumer := "cpu" |}
                   (Some (1, 0)) 0;
           ComputeCmd 1;
           WaitCmd {| wait_owner := Some (0, 0); wait_consumer := "cpu" |}
                   (Some (1, 0)) 1;
           ComputeCmd 3 ] ].
Proof. vm_compute. reflexivity. Qed.

(** Scenario D: A(cpu) → B(gpu) → C(cpu), two logic streams. *)
Example scenario_D :
  (pl ← Planner.ParallelExecutionPlanImpl
          (Scenario.session_of Scenario.chain3) 2;
   Ok (commands_ <$> Planner.plan_logic_streams pl))
  = Ok [ [ ComputeCmd 0; NotifyCmd (0, 0) 0;
           WaitCmd {| wait_owner := Some (1, 0); wait_consumer := "cpu" |}
                   (Some (0, 0)) 1;
           ComputeCmd 2 ];
         [ WaitCmd {| wait_owner := Some (0, 0); wait_consumer := "gpu" |}
                   (Some (1, 0)) 0;
           ComputeCmd 1; NotifyCmd (1, 0) 1 ] ].
Proof. vm_compute. reflexivity. Qed.

(** Scenario E: one node, four logic streams; three of them are empty. *)
Example scenario_E :
  (pl ← Planner.ParallelExecutionPlanImpl
          (Scenario.session_of [Scenario.mk_node 0 [] [] "cpu"]) 4;
   Ok (commands_ <$> Planner.plan_logic_streams pl))
  = Ok [ [ComputeCmd 0]; []; []; [] ].
Proof. vm_compute. reflexivity. Qed.

(** A consumer whose producer is left out of the view stops the
    constructor at the enforcement of pass 5. *)
Example producer_outside_view :
  Planner.ParallelExecutionPlanImpl
    {| GetGraphViewer :=
         {| GetNodesInTopologicalOrder := [1];
            GetNode := λ i, [ Scenario.mk_node 0 [] [1] "cpu";
                              Scenario.mk_node 1 [0] [] "cpu" ] !! i;
            MaxNodeIndex := 2 |};
       Get := Get (Scenario.session_of []);
       Type_ := Type_ (Scenario.session_of []);
       registry := registry (Scenario.session_of []) |} 1
  = Fail EnforceNotificationFound.
Proof. vm_compute. reflexivity. Qed.


(** ** Loops that are known to have run to their end *)

Section foldM_partial.
Context {A B : Type} (f : A → B → Result A).

Lemma foldM_invariant (P : list B → A → Prop) l a r :
  P [] a →
  (∀ pre x suf a1 a2, l = pre ++ x :: suf → P pre a1 → f a1 x = Ok a2 →
     P (pre ++ [x]) a2) →
  foldM f l a = Ok r → P l r.
Proof.
  intros H0 Hstep.
  cut (∀ suf pre a1, l = pre ++ suf → P pre a1 → foldM f suf a1 = Ok r → P l r).
  { intros H. by apply (H l [] a). }
  induction suf as [|x suf IH]; intros pre a1 Hl HP Hr.
  - rewrite app_nil_r in Hl. simpl in Hr. by simplify_eq.
  - simpl in Hr. destruct (f a1 x) as [a2|e] eqn:Hf; [|done]. simpl in Hr.
    apply (IH (pre ++ [x]) a2); [by rewrite <-(assoc_L (++))| |done].
    by eapply Hstep.
Qed.
End foldM_partial.

Lemma foldM_seq_invariant {A} (f : A → nat → Result A) (P : nat → A → Prop)
    K a r :
  P 0 a →
  (∀ i a1 a2, i < K → P i a1 → f a1 i = Ok a2 → P (S i) a2) →
  foldM f (seq 0 K) a = Ok r → P K r.
Proof.
  intros H0 Hstep Hr.
  pose proof (foldM_invariant f (λ pre a, P (length pre) a) (seq 0 K) a r H0)
    as HP.
  simpl in HP. rewrite length_seq in HP. apply HP; [|done].
  intros pre x suf a1 a2 Hl HP1 Hf.
  assert (x = length pre ∧ x < K) as [-> Hlt].
  { assert (seq 0 K !! length pre = Some x) as Hx.
    { rewrite Hl. by rewrite list_lookup_middle. }
    apply lookup_seq in Hx. lia. }
  rewrite length_app. simpl.
  replace (length pre + 1) with (S (length pre)) by lia. by eapply Hstep.
Qed.

(** ** Pass 3: one device stream per provider instance *)

Lemma find_stream_is_Some ep (devs : list Stream) :
  is_Some (find_stream ep devs) ↔ ep ∈ provider <$> devs.
Proof.
  induction devs as [|s devs IH]; simpl.
  - split; [by intros [? ?]|by intros ?%elem_of_nil].
  - destruct (decide (provider s = ep)) as [<-|Hne].
    + split; [intros _; by left|eauto].
    + rewrite elem_of_cons, <-IH. split.
      * intros Hs. right.
        destruct (find_stream ep devs); [eauto|by destruct Hs].
      * intros [?|[j Hj]]; [congruence|]. rewrite Hj. eauto.
Qed.

Section binding_shape.
Import Planner.
Context (ss : SessionState) (p : Partition).
Local Abbreviation g := (GetGraphViewer ss).
Local Abbreviation nis := (nodes_in_stream p).

(** What a step of pass 3 that did not throw has done. *)
Lemma bind_node_inv i providers b x providers' b' :
  bind_node ss p i (providers, b) x = Ok (providers', b') →
  ∃ node ep,
    GetNode g x = Some node ∧
    Get ss (GetExecutionProviderType node) = Some ep ∧
    ((ep ∈ providers ∧ providers' = providers ∧
      logic_streams_ b' = logic_streams_ b) ∨
     ((ep ∉ providers) ∧ providers' = ({[ep]} ∪ providers) ∧
      ∃ fn ls,
        GetCreateStreamFn (registry ss) (Type_ ss ep) = Some fn ∧
        logic_streams_ b !! i = Some ls ∧
        logic_streams_ b' =
          alter (push_device_stream
                   {| handle := fn (streams_created b); provider := ep |})
                i (logic_streams_ b))) ∧
    ∃ ptr, lookup_stream ss p (logic_streams_ b') x ep = Ok ptr ∧
           node_to_stream_map_ b' = <[x := Some ptr]> (node_to_stream_map_ b).
Proof.
  unfold bind_node.
  destruct (GetNode g x) as [node|] eqn:Hnode; [|done]. simpl.
  destruct (Get ss (GetExecutionProviderType node)) as [ep|] eqn:Hep; [|done].
  simpl. intros H. exists node, ep. split; [done|]. split; [done|].
  destruct (decide (ep ∈ providers)) as [Hin|Hin]; simpl in H.
  - destruct (lookup_stream ss p (logic_streams_ b) x ep) as [ptr|] eqn:Hl;
      [|done].
    simpl in H. simplify_eq/=. split; [left; done|]. eauto.
  - destruct (GetCreateStreamFn (registry ss) (Type_ ss ep)) as [fn|] eqn:Hfn;
      [|done].
    simpl in H. destruct (logic_streams_ b !! i) as [ls|] eqn:Hls; [|done].
    simpl in H.
    destruct (lookup_stream ss p _ x ep) as [ptr|] eqn:Hl; [|done].
    simpl in H. simplify_eq/=. split; [|eauto].
    right. split; [done|]. split; [done|]. by exists fn, ls.
Qed.

Lemma bind_node_shape i pre providers b x providers' b' :
  bind_node ss p i (providers, b) x = Ok (providers', b') →
  streams_ok ss nis i pre b → providers_match i providers b →
  later_empty (S i) b →
  streams_ok ss nis i (pre ++ [x]) b' ∧ providers_match i providers' b' ∧
  later_empty (S i) b'.
Proof.
  intros (node & ep & Hnode & Hep & Hcase & _)%bind_node_inv
    [Hnd Hused] Hprov Hlater.
  assert (node_ep ss x = Some ep) as Hx.
  { unfold node_ep. by rewrite Hnode. }
  assert (∀ j, j ≠ i → bound_nodes nis i (pre ++ [x]) j = bound_nodes nis i pre j)
    as Hother.
  { intros j Hj. unfold bound_nodes. by repeat case_decide. }
  assert (bound_nodes nis i (pre ++ [x]) i = pre ++ [x] ∧
          bound_nodes nis i pre i = pre) as [Hbi Hbi'].
  { unfold bound_nodes. destruct (decide (i < i)); [lia|].
    by destruct (decide (i = i)). }
  destruct Hcase as [(Hin & -> & Hs)|(Hin & -> & fn & ls & Hfn & Hls & Hs)].
  - split; [split|split].
    + intros j ls' Hj. rewrite Hs in Hj. eauto.
    + intros j ls' ep' Hj. rewrite Hs in Hj. rewrite (Hused j ls' ep' Hj).
      destruct (decide (j = i)) as [->|Hne]; [|by rewrite Hother].
      rewrite Hbi, Hbi'. split.
      * intros (y & Hy & ?). exists y. split; [|done].
        apply elem_of_app. by left.
      * intros (y & [Hy| ->%list_elem_of_singleton]%elem_of_app & Hyep);
          [eauto|].
        assert (ep' = ep) as -> by congruence.
        apply Hprov in Hin as (ls0 & Hls0 & Hin).
        assert (ls0 = ls') as -> by congruence.
        rewrite <-Hbi'. by apply (Hused i ls' ep Hj).
    + intros ep'. rewrite Hs. apply Hprov.
    + intros j ls' Hj Hlk. rewrite Hs in Hlk. eauto.
  - assert (ep ∉ providers_of ls) as Hfresh.
    { intros Hin'. apply Hin, Hprov. eauto. }
    assert (∀ ls', providers_of (push_device_stream
                      {| handle := fn (streams_created b); provider := ep |} ls')
                   = providers_of ls' ++ [ep]) as Hpush.
    { intros ls'. unfold providers_of. simpl. by rewrite fmap_app. }
    split; [split|split].
    + intros j ls' Hj. rewrite Hs in Hj.
      destruct (decide (j = i)) as [->|Hne].
      * rewrite list_lookup_alter_eq, Hls in Hj. simplify_eq/=.
        rewrite Hpush. apply NoDup_app. split; [eauto|].
        split; [|apply NoDup_singleton].
        by intros y Hy ->%list_elem_of_singleton.
      * rewrite list_lookup_alter_ne in Hj by done. eauto.
    + intros j ls' ep' Hj. rewrite Hs in Hj.
      destruct (decide (j = i)) as [->|Hne].
      * rewrite list_lookup_alter_eq, Hls in Hj. simplify_eq/=.
        rewrite Hpush, elem_of_app, list_elem_of_singleton, Hbi.
        rewrite (Hused i ls ep' Hls), Hbi'. split.
        -- intros [(y & Hy & ?)| ->].
           ++ exists y. split; [|done]. apply elem_of_app. by left.
           ++ exists x. split; [|done]. apply elem_of_app. right. by left.
        -- intros (y & [Hy| ->%list_elem_of_singleton]%elem_of_app & Hyep);
             [left; eauto|right; congruence].
      * rewrite list_lookup_alter_ne in Hj by done.
        rewrite (Hused j ls' ep' Hj). by rewrite Hother.
    + intros ep'. rewrite elem_of_union, elem_of_singleton, (Hprov ep').
      rewrite Hs, list_lookup_alter_eq, Hls. simpl. split.
      * intros [->|(ls0 & Hls0 & Hin')].
        -- eexists. split; [done|]. rewrite Hpush. apply elem_of_app.
           right. by left.
        -- simplify_eq. eexists. split; [done|]. rewrite Hpush.
           apply elem_of_app. by left.
      * intros (ls0 & [= <-] & Hin').
        rewrite Hpush in Hin'.
        apply elem_of_app in Hin' as [?| ->%list_elem_of_singleton]; eauto.
    + intros j ls' Hj Hlk. rewrite Hs in Hlk.
      rewrite list_lookup_alter_ne in Hlk by lia. eauto.
Qed.

Lemma bind_streams_shape K streams b :
  (∀ ls, ls ∈ streams → device_streams_ ls = []) →
  bind_streams ss K p streams = Ok b →
  streams_ok ss nis K [] b.
Proof.
  intros Hempty Hb. unfold bind_streams in Hb.
  apply (foldM_seq_invariant _
           (λ i b, streams_ok ss nis i [] b ∧ later_empty i b)) in Hb;
    [by destruct Hb| |].
  - split; [split|]; simpl.
    + intros j ls Hj. unfold providers_of.
      rewrite (Hempty ls) by (by eapply list_elem_of_lookup_2). constructor.
    + intros j ls ep Hj. unfold providers_of.
      rewrite (Hempty ls) by (by eapply list_elem_of_lookup_2). simpl.
      unfold bound_nodes. rewrite decide_False by lia.
      split; [by intros ?%elem_of_nil|].
      intros (x & Hx & _). case_decide; by apply elem_of_nil in Hx.
    + intros j ls _ Hj. apply Hempty. by eapply list_elem_of_lookup_2.
  - intros i b1 b2 Hi [Hok Hlater] Hstep.
    destruct (nodes_in_stream p !! i) as [nodes|] eqn:Hnodes; [|done].
    simpl in Hstep.
    destruct (foldM (bind_node ss p i) nodes (∅, b1)) as [[providers b3]|]
      eqn:Hinner; [|done].
    simpl in Hstep. simplify_eq.
    apply (foldM_invariant _
             (λ pre st, streams_ok ss nis i pre st.2 ∧
                        providers_match i st.1 st.2 ∧
                        later_empty (S i) st.2)) in Hinner.
    + destruct Hinner as ([Hnd Hused] & _ & Hlater'). simpl in *.
      split; [split|done]; [done|].
      intros j ls ep Hj. rewrite (Hused j ls ep Hj). unfold bound_nodes.
      repeat case_decide; try lia; subst; try reflexivity.
      by rewrite Hnodes.
    + simpl. split; [done|]. split.
      * intros ep. split; [by intros ?%elem_of_empty|].
        intros (ls & Hls & Hin). unfold providers_of in Hin.
        rewrite (Hlater i ls) in Hin by done. by apply elem_of_nil in Hin.
      * intros j ls Hj. apply Hlater. lia.
    + intros pre x suf [pr1 b4] [pr2 b5] _ (Hok1 & Hprov1 & Hlater1) Hf.
      simpl in *. by eapply bind_node_shape.
Qed.
End binding_shape.


(** ** The constructor, pass by pass *)

(** A constructor that returned has run its five passes to their end. *)
Lemma plan_passes ss K pl :
  Planner.ParallelExecutionPlanImpl ss K = Ok pl →
  ∃ b,
    Planner.partition (GetGraphViewer ss) K = Ok (Planner.plan_partition pl) ∧
    Planner.discover (GetGraphViewer ss) K (Planner.plan_partition pl)
      = Ok (Planner.plan_notifications pl) ∧
    Planner.bind_streams ss K (Planner.plan_partition pl)
      (replicate K empty_logic_stream) = Ok b ∧
    Planner.set_owners ss (Planner.plan_partition pl)
      (Planner.plan_notifications pl) b
      = Ok (Planner.plan_notification_owners pl) ∧
    Planner.emit ss K (Planner.plan_partition pl)
      (Planner.plan_notifications pl) (Planner.plan_notification_owners pl)
      (Planner.node_to_stream_map_ b) (Planner.logic_streams_ b)
      = Ok (Planner.plan_logic_streams pl) ∧
    Planner.plan_node_to_stream_map pl = Planner.node_to_stream_map_ b ∧
    Planner.plan_num_logic_streams pl = K.
Proof.
  unfold Planner.ParallelExecutionPlanImpl. intros H.
  destruct (Planner.partition (GetGraphViewer ss) K) as [p|] eqn:Hp; [|done].
  simpl in H.
  destruct (Planner.discover (GetGraphViewer ss) K p) as [n|] eqn:Hn; [|done].
  simpl in H.
  destruct (Planner.bind_streams ss K p (replicate K empty_logic_stream))
    as [b|] eqn:Hb; [|done].
  simpl in H.
  destruct (Planner.set_owners ss p n b) as [owners|] eqn:Ho; [|done].
  simpl in H.
  destruct (Planner.emit ss K p n owners (Planner.node_to_stream_map_ b)
              (Planner.logic_streams_ b)) as [streams|] eqn:He; [|done].
  simpl in H. simplify_eq/=. by exists b.
Qed.

(** On a well-formed session the constructor returns; [b] is the state
    that pass 3 leaves. *)
Lemma plan_total_bound (ss : SessionState) (K : nat) :
  well_formed ss → 0 < K →
  ∃ pl b, Planner.ParallelExecutionPlanImpl ss K = Ok pl ∧ plan_ok ss K b pl ∧
          Planner.bind_streams ss K (Planner.plan_partition pl)
            (replicate K empty_logic_stream) = Ok b.
Proof.
  intros Hwf HK. unfold Planner.ParallelExecutionPlanImpl.
  destruct (partition_total (GetGraphViewer ss) K HK
              (wf_NoDup _ Hwf) (wf_bound _ Hwf) (wf_node _ Hwf))
    as (p & -> & Hp).
  simpl.
  destruct (discover_total (GetGraphViewer ss) K p HK
              (wf_NoDup _ Hwf) Hp (wf_node _ Hwf)) as (n & -> & Hn).
  simpl.
  destruct (bind_streams_total ss K p HK Hp Hwf) as (b & Hb & Hbok).
  rewrite Hb. simpl.
  destruct (set_owners_total ss K p n b) as (owners & -> & Ho); [done..|].
  simpl.
  destruct (emit_total ss K p n b owners) as (streams & -> & He); [done..|].
  simpl. eexists _, b. split; [done|]. split; [by split|done].
Qed.


(** ** Device streams of a plan *)

Section device_stream_facts.
Import Planner.
Context (ss : SessionState) (K : nat) (b : Binding) (pl : Plan).
Context (Hwf : well_formed ss) (HK : 0 < K) (Hpl : plan_ok ss K b pl).
Context (Hb : bind_streams ss K (plan_partition pl)
                (replicate K empty_logic_stream) = Ok b).
Local Abbreviation topo := (GetNodesInTopologicalOrder (GetGraphViewer ss)).
Local Abbreviation p := (plan_partition pl).

Lemma plan_lookup_lt s ls : plan_logic_streams pl !! s = Some ls → s < K.
Proof.
  intros Hls%lookup_lt_Some. by rewrite (proj1 (pk_emitted _ _ _ _ Hpl)) in Hls.
Qed.

Lemma plan_providers s ls nodes :
  plan_logic_streams pl !! s = Some ls →
  nodes_in_stream p !! s = Some nodes →
  NoDup (providers_of ls) ∧
  ∀ ep, ep ∈ providers_of ls ↔ ∃ x, x ∈ nodes ∧ node_ep ss x = Some ep.
Proof.
  intros Hls Hnodes. pose proof (plan_lookup_lt s ls Hls) as Hs.
  destruct (plan_stream ss K b pl Hpl s Hs)
    as (ls' & nodes' & ls0 & Hls' & Hnodes' & Hls0 & Hdevs & _).
  assert (ls' = ls) as -> by congruence.
  assert (nodes' = nodes) as -> by congruence.
  destruct (bind_streams_shape ss p K (replicate K empty_logic_stream) b)
    as [Hnd Hused]; [|done|].
  { by intros ls1 [-> _]%elem_of_replicate. }
  unfold providers_of in *. rewrite Hdevs. split; [by eapply Hnd|].
  intros ep. rewrite (Hused s ls0 ep Hls0). unfold bound_nodes.
  rewrite decide_True by done. by rewrite Hnodes.
Qed.

Lemma plan_surplus s :
  length topo ≤ s → s < K →
  plan_logic_streams pl !! s = Some empty_logic_stream.
Proof.
  intros Hge Hs.
  destruct (plan_stream ss K b pl Hpl s Hs)
    as (ls & nodes & ls0 & Hls & Hnodes & Hls0 & Hdevs & Hcmds).
  assert (nodes = []) as ->.
  { destruct nodes as [|x nodes]; [done|].
    pose proof (po_slot _ _ _ (pk_partition _ _ _ _ Hpl) s _ 0 Hnodes) as Hx.
    simpl in Hx. symmetry in Hx. apply lookup_lt_Some in Hx. lia. }
  destruct (plan_providers s ls [] Hls Hnodes) as [_ Hused].
  assert (device_streams_ ls = []) as Hd.
  { destruct (device_streams_ ls) as [|st devs] eqn:Hdv; [done|].
    assert (provider st ∈ providers_of ls) as Hin.
    { unfold providers_of. rewrite Hdv. by left. }
    apply Hused in Hin as (x & Hx & _). by apply elem_of_nil in Hx. }
  rewrite Hls. f_equal. destruct ls as [devs cmds]. simpl in Hd, Hcmds.
  by rewrite Hd, Hcmds.
Qed.

Lemma plan_same_stream x y :
  x ∈ topo → y ∈ topo →
  GetComputeStreamForNode pl x = GetComputeStreamForNode pl y ↔
  logic_stream_of pl x = logic_stream_of pl y ∧ node_ep ss x = node_ep ss y.
Proof.
  intros Hx Hy.
  destruct (plan_bound ss K b pl HK Hpl x Hx)
    as (nx & ex & sx & jx & stx & lsx & Hnx & Hex & Hsx & _ & Hmx & Hlsx
        & Hfx & Hstx & Hpx).
  destruct (plan_bound ss K b pl HK Hpl y Hy)
    as (ny & ey & sy & jy & sty & lsy & Hny & Hey & Hsy & _ & Hmy & Hlsy
        & Hfy & Hsty & Hpy).
  unfold GetComputeStreamForNode, logic_stream_of, node_ep.
  rewrite Hmx, Hmy, Hsx, Hsy, Hnx, Hny. simpl. rewrite Hex, Hey. split.
  - intros [= -> ->]. split; [done|]. f_equal. congruence.
  - intros [[= ->] [= ->]]. do 2 f_equal. congruence.
Qed.
End device_stream_facts.

(** X1.  Each logic stream of the plan owns one device stream for every
    provider instance that one of its nodes resolves to, and no other:
    the provider instances of its device streams are pairwise different,
    and a provider instance is among them exactly if a node of the
    stream runs on it. *)
Theorem one_device_stream_per_provider (ss : SessionState) (K : nat) :
  well_formed ss → 0 < K →
  ∃ pl, Planner.ParallelExecutionPlanImpl ss K = Ok pl ∧
    ∀ s ls nodes,
      Planner.plan_logic_streams pl !! s = Some ls →
      Planner.nodes_in_stream (Planner.plan_partition pl) !! s = Some nodes →
      NoDup (providers_of ls) ∧
      ∀ ep, ep ∈ providers_of ls ↔ ∃ x, x ∈ nodes ∧ node_ep ss x = Some ep.
Proof.
  intros Hwf HK.
  destruct (plan_total_bound ss K Hwf HK) as (pl & b & Hpl & Hok & Hb).
  exists pl. split; [done|]. intros s ls nodes. by eapply plan_providers.
Qed.

Lemma one_device_stream_per_provider_witness :
  well_formed (Scenario.session_of Scenario.chain3) ∧ 0 < 2 ∧
  ∃ pl,
    Planner.ParallelExecutionPlanImpl (Scenario.session_of Scenario.chain3) 2
      = Ok pl ∧
    ∀ s ls nodes,
      Planner.plan_logic_streams pl !! s = Some ls →
      Planner.nodes_in_stream (Planner.plan_partition pl) !! s = Some nodes →
      NoDup (providers_of ls) ∧
      ∀ ep, ep ∈ providers_of ls ↔
            ∃ x, x ∈ nodes ∧
                 node_ep (Scenario.session_of Scenario.chain3) x = Some ep.
Proof.
  split; [apply check_well_formed_sound; vm_compute; reflexivity|].
  split; [lia|].
  apply one_device_stream_per_provider; [|lia].
  apply check_well_formed_sound; vm_compute; reflexivity.
Defined.

(** X2.  Two nodes of the view are bound to the same device stream
    exactly if they were put into the same logic stream and resolve to
    the same provider instance. *)
Theorem device_stream_shared_iff (ss : SessionState) (K : nat) :
  well_formed ss → 0 < K →
  ∃ pl, Planner.ParallelExecutionPlanImpl ss K = Ok pl ∧
    ∀ x y,
      x ∈ GetNodesInTopologicalOrder (GetGraphViewer ss) →
      y ∈ GetNodesInTopologicalOrder (GetGraphViewer ss) →
      Planner.GetComputeStreamForNode pl x = Planner.GetComputeStreamForNode pl y
      ↔ logic_stream_of pl x = logic_stream_of pl y ∧
        node_ep ss x = node_ep ss y.
Proof.
  intros Hwf HK.
  destruct (plan_total ss K Hwf HK) as (pl & b & Hpl & Hok).
  exists pl. split; [done|]. intros x y. by eapply plan_same_stream.
Qed.

Lemma device_stream_shared_iff_witness :
  well_formed (Scenario.session_of Scenario.chain3) ∧ 0 < 1 ∧
  ∃ pl,
    Planner.ParallelExecutionPlanImpl (Scenario.session_of Scenario.chain3) 1
      = Ok pl ∧
    ∀ x y,
      x ∈ GetNodesInTopologicalOrder
            (GetGraphViewer (Scenario.session_of Scenario.chain3)) →
      y ∈ GetNodesInTopologicalOrder
            (GetGraphViewer (Scenario.session_of Scenario.chain3)) →
      Planner.GetComputeStreamForNode pl x = Planner.GetComputeStreamForNode pl y
      ↔ logic_stream_of pl x = logic_stream_of pl y ∧
        node_ep (Scenario.session_of Scenario.chain3) x =
        node_ep (Scenario.session_of Scenario.chain3) y.
Proof.
  split; [apply check_well_formed_sound; vm_compute; reflexivity|].
  split; [lia|].
  apply device_stream_shared_iff; [|lia].
  apply check_well_formed_sound; vm_compute; reflexivity.
Defined.

(** X3.  With more logic streams than nodes, the logic streams from
    index [length topo] on stay as they were created: no device stream
    and no command. *)
Theorem surplus_streams_stay_empty (ss : SessionState) (K : nat) :
  well_formed ss → 0 < K →
  ∃ pl, Planner.ParallelExecutionPlanImpl ss K = Ok pl ∧
    ∀ s,
      length (GetNodesInTopologicalOrder (GetGraphViewer ss)) ≤ s → s < K →
      Planner.plan_logic_streams pl !! s = Some empty_logic_stream.
Proof.
  intros Hwf HK.
  destruct (plan_total_bound ss K Hwf HK) as (pl & b & Hpl & Hok & Hb).
  exists pl. split; [done|]. intros s. by eapply plan_surplus.
Qed.

Lemma surplus_streams_stay_empty_witness :
  well_formed (Scenario.session_of [Scenario.mk_node 0 [] [] "cpu"]) ∧ 0 < 4 ∧
  ∃ pl,
    Planner.ParallelExecutionPlanImpl
      (Scenario.session_of [Scenario.mk_node 0 [] [] "cpu"]) 4 = Ok pl ∧
    ∀ s,
      length (GetNodesInTopologicalOrder
                (GetGraphViewer
                   (Scenario.session_of [Scenario.mk_node 0 [] [] "cpu"]))) ≤ s →
      s < 4 →
      Planner.plan_logic_streams pl !! s = Some empty_logic_stream.
Proof.
  split; [apply check_well_formed_sound; vm_compute; reflexivity|].
  split; [lia|].
  apply surplus_streams_stay_empty; [|lia].
  apply check_well_formed_sound; vm_compute; reflexivity.
Defined.


(** ** Where the commands of a plan come from *)

Lemma launched_app (l1 l2 : list Command) :
  launched (l1 ++ l2) = launched l1 ++ launched l2.
Proof. apply omap_app. Qed.

Lemma launched_concat (ls : list (list Command)) :
  launched (concat ls) = concat (launched <$> ls).
Proof.
  induction ls as [|l ls IH]; [done|].
  simpl. by rewrite launched_app, IH.
Qed.

Section launch_facts.
Import Planner.
Context (ss : SessionState) (n : Notifications).
Context (owners : list (option StreamPtr)) (m : gmap NodeIndex (option StreamPtr)).
Context (devs : list Stream) (nodes : list NodeIndex) (i : nat).
Local Abbreviation g := (GetGraphViewer ss).

Lemma launched_waits x node (inputs : list nat) :
  launched (omap (wait_for n owners m nodes x node) inputs) = [].
Proof.
  induction inputs as [|u inputs IH]; [done|].
  simpl. destruct (wait_for n owners m nodes x node u) as [c|] eqn:Hc; [|done].
  unfold wait_for in Hc.
  destruct (not_found u nodes); [|done].
  destruct (node_to_notification n !! u) as [id|]; [|done]. simpl in Hc.
  destruct (owners !! id) as [owner|]; [|done]. simpl in Hc. by simplify_eq.
Qed.

Lemma launched_notify x : launched (notify_for ss n devs i x) = [].
Proof.
  unfold notify_for. destruct (node_to_notification n !! x); [|done].
  by destruct (node_ep ss x ≫= _).
Qed.

Lemma launched_node x :
  is_Some (GetNode g x) →
  launched (node_commands ss n owners m devs nodes i x) = [x].
Proof.
  intros [node Hnode]. unfold node_commands. rewrite Hnode.
  rewrite launched_app, launched_waits. simpl.
  change (omap compute_node ?l) with (launched l). by rewrite launched_notify.
Qed.

Lemma launched_nodes (l : list nat) :
  (∀ x, x ∈ l → is_Some (GetNode g x)) →
  launched (concat (node_commands ss n owners m devs nodes i <$> l)) = l.
Proof.
  induction l as [|x l IH]; intros Hall; [done|].
  rewrite fmap_cons. simpl concat.
  rewrite launched_app, launched_node by (apply Hall; by left).
  rewrite IH; [done|]. intros y Hy. apply Hall. by right.
Qed.

(** A notify command of a stream's list, with its producer. *)
Lemma notify_origin h id :
  NotifyCmd h id ∈ stream_commands ss n owners m devs nodes i →
  ∃ x j, x ∈ nodes ∧ node_to_notification n !! x = Some id ∧
         node_ep ss x ≫= (λ ep, find_stream ep devs) = Some j ∧ h = (i, j).
Proof.
  intros (x & Hx & Hc)%elem_of_stream_commands.
  unfold node_commands in Hc. destruct (GetNode g x) as [node|].
  - apply elem_of_app in Hc as [Hw|Hc].
    + by apply elem_of_waits in Hw as (? & ? & ? & _ & _ & _ & _ & ?).
    + apply elem_of_cons in Hc as [?|Hc]; [done|].
      unfold notify_for in Hc.
      destruct (node_to_notification n !! x) as [id'|] eqn:Hid;
        [|by apply elem_of_nil in Hc].
      destruct (node_ep ss x ≫= _) as [j|] eqn:Hj;
        [|by apply elem_of_nil in Hc].
      apply list_elem_of_singleton in Hc. simplify_eq. by exists x, j.
  - by apply elem_of_nil in Hc.
Qed.

(** A wait command of a stream's list, with the in-edge it stands for. *)
Lemma wait_origin wh cs id :
  WaitCmd wh cs id ∈ stream_commands ss n owners m devs nodes i →
  ∃ v vnode u,
    v ∈ nodes ∧ GetNode g v = Some vnode ∧ u ∈ InputNodes vnode ∧
    not_found u nodes = true ∧ node_to_notification n !! u = Some id ∧
    owners !! id = Some (wait_owner wh) ∧
    wait_consumer wh = GetExecutionProviderType vnode ∧
    cs = cur_stream_of m v.
Proof.
  intros (v & Hv & Hc)%elem_of_stream_commands.
  unfold node_commands in Hc. destruct (GetNode g v) as [vnode|] eqn:Hnode.
  - apply elem_of_app in Hc as [Hw|Hc].
    + apply elem_of_waits in Hw as (u & id' & owner & Hu & Hnf & Hid & Ho & Hc).
      simplify_eq. by exists v, vnode, u.
    + apply elem_of_cons in Hc as [?|Hc]; [done|].
      by apply elem_of_notify_for in Hc as (? & ? & ? & _).
  - by apply elem_of_nil in Hc.
Qed.
End launch_facts.

Section origin_facts.
Import Planner.
Context (ss : SessionState) (K : nat) (b : Binding) (pl : Plan).
Context (Hwf : well_formed ss) (HK : 0 < K) (Hpl : plan_ok ss K b pl).
Local Abbreviation g := (GetGraphViewer ss).
Local Abbreviation topo := (GetNodesInTopologicalOrder (GetGraphViewer ss)).
Local Abbreviation p := (plan_partition pl).
Local Abbreviation n := (plan_notifications pl).
Local Abbreviation owners := (plan_notification_owners pl).
Local Abbreviation m := (node_to_stream_map_ b).

Lemma plan_commands s ls :
  plan_logic_streams pl !! s = Some ls →
  ∃ nodes,
    nodes_in_stream p !! s = Some nodes ∧
    commands_ ls = stream_commands ss n owners m (device_streams_ ls) nodes s.
Proof.
  intros Hls.
  assert (s < K) as Hs.
  { apply lookup_lt_Some in Hls.
    by rewrite (proj1 (pk_emitted _ _ _ _ Hpl)) in Hls. }
  destruct (plan_stream ss K b pl Hpl s Hs)
    as (ls' & nodes & ls0 & Hls' & Hnodes & _ & Hdevs & Hcmds).
  assert (ls' = ls) as -> by congruence.
  exists nodes. split; [done|]. by rewrite Hdevs.
Qed.

Lemma cur_stream_is_compute_stream x :
  cur_stream_of (plan_node_to_stream_map pl) x = GetComputeStreamForNode pl x.
Proof.
  unfold cur_stream_of, GetComputeStreamForNode.
  by destruct (plan_node_to_stream_map pl !! x).
Qed.

(** Pass 4: the owner of a notification is the device stream of its
    producer. *)
Lemma plan_owner_of x id :
  notification_of pl x = Some id →
  x ∈ topo ∧
  owners !! id = Some (GetComputeStreamForNode pl x) ∧
  ∃ ptr st ep,
    GetComputeStreamForNode pl x = Some ptr ∧
    logic_stream_of pl x = Ok ptr.1 ∧
    Exec.deref (plan_logic_streams pl) ptr = Some st ∧
    node_ep ss x = Some ep ∧ provider st = ep.
Proof.
  intros Hid.
  assert (x ∈ topo) as Hx.
  { eapply notification_topo;
      [apply (pk_partition _ _ _ _ Hpl)|apply (pk_notifications _ _ _ _ Hpl)|].
    done. }
  split; [done|].
  destruct (plan_compute_stream ss K b pl HK Hpl x) as [_ Hbound].
  destruct (Hbound Hx) as (s & j & st & ep & Hget & Hs & Hst & Hep & Hprov).
  split.
  - rewrite (oo_owner _ _ _ _ (pk_owners _ _ _ _ Hpl) x id Hx Hid).
    rewrite <-(pk_map _ _ _ _ Hpl). unfold GetComputeStreamForNode in *.
    by destruct (plan_node_to_stream_map pl !! x) as [ptr|].
  - by exists (s, j), st, ep.
Qed.

Lemma plan_wait_origin s ls wh cs id :
  plan_logic_streams pl !! s = Some ls → WaitCmd wh cs id ∈ commands_ ls →
  ∃ u v vnode,
    edge g u v ∧ GetNode g v = Some vnode ∧ u ∈ InputNodes vnode ∧
    logic_stream_of pl v = Ok s ∧ logic_stream_of pl u ≠ Ok s ∧
    notification_of pl u = Some id ∧
    cs = GetComputeStreamForNode pl v ∧
    wait_owner wh = GetComputeStreamForNode pl u ∧
    wait_consumer wh = GetExecutionProviderType vnode.
Proof.
  intros Hls Hc. pose proof (pk_partition _ _ _ _ Hpl) as Hp.
  destruct (plan_commands s ls Hls) as (nodes & Hnodes & Hcmds).
  rewrite Hcmds in Hc.
  apply wait_origin in Hc
    as (v & vnode & u & Hv & Hvnode & Hu & Hnf & Hid & Ho & Hty & Hcs).
  assert (v ∈ topo) as Hvt by (eapply po_elem_topo; eauto).
  destruct (wf_inputs _ Hwf v vnode u Hvt Hvnode Hu) as (Hut & unode & Hun & Hout).
  exists u, v, vnode. split; [|split; [done|split; [done|]]].
  { split; [done|]. split; [done|]. eauto. }
  split; [by eapply po_stream_of|]. split.
  { by apply (po_not_found K topo p HK Hp _ _ _ Hnodes Hut). }
  split; [done|]. split.
  { rewrite Hcs, <-(pk_map _ _ _ _ Hpl). apply cur_stream_is_compute_stream. }
  split; [|done].
  destruct (plan_owner_of u id Hid) as (_ & Ho' & _). congruence.
Qed.

Lemma plan_notify_origin s ls h id :
  plan_logic_streams pl !! s = Some ls → NotifyCmd h id ∈ commands_ ls →
  ∃ x, notification_of pl x = Some id ∧ logic_stream_of pl x = Ok s ∧
       GetComputeStreamForNode pl x = Some h ∧ h.1 = s.
Proof.
  intros Hls Hc. pose proof (pk_partition _ _ _ _ Hpl) as Hp.
  destruct (plan_commands s ls Hls) as (nodes & Hnodes & Hcmds).
  rewrite Hcmds in Hc.
  apply notify_origin in Hc as (x & j & Hx & Hid & Hj & ->).
  destruct (plan_bound_in ss K b pl HK Hpl s ls nodes x Hls Hnodes Hx)
    as (j' & _ & Hj' & Hget).
  assert (j' = j) as -> by congruence.
  exists x. split; [done|]. split; [by eapply po_stream_of|]. done.
Qed.

(** The notify command that a wait command waits for. *)
Lemma plan_wait_notified s ls wh cs id :
  plan_logic_streams pl !! s = Some ls → WaitCmd wh cs id ∈ commands_ ls →
  ∃ s' ls' h,
    s' ≠ s ∧ plan_logic_streams pl !! s' = Some ls' ∧
    NotifyCmd h id ∈ commands_ ls' ∧ h.1 = s' ∧
    wait_owner wh = Some h ∧ owners !! id = Some (Some h).
Proof.
  intros Hls Hc.
  destruct (plan_wait_origin s ls wh cs id Hls Hc)
    as (u & v & vnode & _ & _ & _ & _ & Hne & Hid & _ & Hown & _).
  destruct (plan_owner_of u id Hid) as (Hut & Ho & ptr & st & ep & Hget & _).
  assert (id < length owners) as Hlt by (by eapply lookup_lt_Some).
  destruct (plan_notify_position ss K b pl HK Hpl id Hlt)
    as (x & s' & ls' & a & h & Hx & Hs' & Hls' & _ & Hnot & Hh).
  assert (x = u) as ->.
  { eapply notification_inj; [apply (pk_notifications _ _ _ _ Hpl)|done..]. }
  assert (h = ptr) as -> by congruence.
  apply list_elem_of_lookup_2 in Hnot.
  destruct (plan_notify_origin s' ls' ptr id Hls' Hnot) as (_ & _ & _ & _ & Hfst).
  exists s', ls', ptr. split; [congruence|].
  split; [done|]. split; [done|]. split; [done|].
  split; congruence.
Qed.

Lemma plan_launched s ls :
  plan_logic_streams pl !! s = Some ls →
  nodes_in_stream p !! s = Some (launched (commands_ ls)) ∧
  ∀ q, launched (commands_ ls) !! q = topo !! (q * K + s).
Proof.
  intros Hls. pose proof (pk_partition _ _ _ _ Hpl) as Hp.
  destruct (plan_commands s ls Hls) as (nodes & Hnodes & Hcmds).
  assert (launched (commands_ ls) = nodes) as ->.
  { rewrite Hcmds. unfold stream_commands. apply launched_nodes.
    intros x Hx. by eapply plan_node_exists. }
  split; [done|]. intros q. by apply (po_slot _ _ _ Hp).
Qed.

Lemma plan_launched_all : launched (all_commands pl) ≡ₚ topo.
Proof.
  pose proof (pk_partition _ _ _ _ Hpl) as Hp.
  rewrite <-(po_perm _ _ _ Hp). unfold all_commands.
  rewrite launched_concat, <-list_fmap_compose.
  assert ((launched ∘ commands_) <$> plan_logic_streams pl = nodes_in_stream p)
    as ->; [|done].
  apply list_eq_same_length with K.
  - apply (po_length _ _ _ Hp).
  - by rewrite length_fmap, (proj1 (pk_emitted _ _ _ _ Hpl)).
  - intros s l1 l2 Hs Hl1 Hl2.
    rewrite list_lookup_fmap in Hl1.
    destruct (plan_logic_streams pl !! s) as [ls|] eqn:Hls; [|done].
    simpl in Hl1. destruct (plan_launched s ls Hls) as [Hn _]. congruence.
Qed.
End origin_facts.


(** ** Notifications, waits and kernel launches of a plan *)

(** X4.  Pass 4 fills every cell of [notification_owners_]: the vector
    has one cell per notification, every index below its size is the
    notification of a node of the view, and the cell of a producer's
    notification holds the device stream bound to the producer, a
    device stream of the producer's logic stream on the producer's
    provider instance. *)
Theorem owner_is_producer_stream (ss : SessionState) (K : nat) :
  well_formed ss → 0 < K →
  ∃ pl, Planner.ParallelExecutionPlanImpl ss K = Ok pl ∧
    length (Planner.plan_notification_owners pl) =
      Planner.num_notifications (Planner.plan_notifications pl) ∧
    (∀ id, id < length (Planner.plan_notification_owners pl) →
       ∃ x, notification_of pl x = Some id) ∧
    ∀ x id, notification_of pl x = Some id →
      x ∈ GetNodesInTopologicalOrder (GetGraphViewer ss) ∧
      Planner.plan_notification_owners pl !! id =
        Some (Planner.GetComputeStreamForNode pl x) ∧
      ∃ ptr st ep,
        Planner.GetComputeStreamForNode pl x = Some ptr ∧
        logic_stream_of pl x = Ok ptr.1 ∧
        Exec.deref (Planner.plan_logic_streams pl) ptr = Some st ∧
        node_ep ss x = Some ep ∧ provider st = ep.
Proof.
  intros Hwf HK. destruct (plan_total ss K Hwf HK) as (pl & b & Hpl & Hok).
  exists pl. split; [done|].
  split; [by eapply plan_owners_length|]. split.
  - intros id Hid.
    destruct (plan_owner ss K b pl HK Hok id Hid) as (x & _ & _ & Hx & _).
    by exists x.
  - intros x id. by eapply plan_owner_of.
Qed.

Lemma owner_is_producer_stream_witness :
  well_formed (Scenario.session_of Scenario.chain3) ∧ 0 < 2 ∧
  ∃ pl,
    Planner.ParallelExecutionPlanImpl (Scenario.session_of Scenario.chain3) 2
      = Ok pl ∧
    length (Planner.plan_notification_owners pl) =
      Planner.num_notifications (Planner.plan_notifications pl) ∧
    (∀ id, id < length (Planner.plan_notification_owners pl) →
       ∃ x, notification_of pl x = Some id) ∧
    ∀ x id, notification_of pl x = Some id →
      x ∈ GetNodesInTopologicalOrder
            (GetGraphViewer (Scenario.session_of Scenario.chain3)) ∧
      Planner.plan_notification_owners pl !! id =
        Some (Planner.GetComputeStreamForNode pl x) ∧
      ∃ ptr st ep,
        Planner.GetComputeStreamForNode pl x = Some ptr ∧
        logic_stream_of pl x = Ok ptr.1 ∧
        Exec.deref (Planner.plan_logic_streams pl) ptr = Some st ∧
        node_ep (Scenario.session_of Scenario.chain3) x = Some ep ∧
        provider st = ep.
Proof.
  split; [apply check_well_formed_sound; vm_compute; reflexivity|].
  split; [lia|].
  apply owner_is_producer_stream; [|lia].
  apply check_well_formed_sound; vm_compute; reflexivity.
Defined.

(** X5.  Every wait command of the plan stands for a graph edge that
    crosses logic streams: a wait in the command list of logic stream
    [s] was pushed for an input [u] of a node [v] of stream [s] with
    [u] in another logic stream; it captures [u]'s notification, the
    device stream bound to [v] as the waiting stream, and a wait handle
    asked for with the device stream bound to [u] and the provider type
    of [v]. *)
Theorem wait_stands_for_cross_edge (ss : SessionState) (K : nat) :
  well_formed ss → 0 < K →
  ∃ pl, Planner.ParallelExecutionPlanImpl ss K = Ok pl ∧
    ∀ s ls wh cs id,
      Planner.plan_logic_streams pl !! s = Some ls →
      WaitCmd wh cs id ∈ commands_ ls →
      ∃ u v vnode,
        edge (GetGraphViewer ss) u v ∧
        GetNode (GetGraphViewer ss) v = Some vnode ∧ u ∈ InputNodes vnode ∧
        logic_stream_of pl v = Ok s ∧ logic_stream_of pl u ≠ Ok s ∧
        notification_of pl u = Some id ∧
        cs = Planner.GetComputeStreamForNode pl v ∧
        wait_owner wh = Planner.GetComputeStreamForNode pl u ∧
        wait_consumer wh = GetExecutionProviderType vnode.
Proof.
  intros Hwf HK. destruct (plan_total ss K Hwf HK) as (pl & b & Hpl & Hok).
  exists pl. split; [done|].
  intros s ls wh cs id. by eapply plan_wait_origin.
Qed.

Lemma wait_stands_for_cross_edge_witness :
  well_formed (Scenario.session_of Scenario.chain3) ∧ 0 < 2 ∧
  ∃ pl,
    Planner.ParallelExecutionPlanImpl (Scenario.session_of Scenario.chain3) 2
      = Ok pl ∧
    ∀ s ls wh cs id,
      Planner.plan_logic_streams pl !! s = Some ls →
      WaitCmd wh cs id ∈ commands_ ls →
      ∃ u v vnode,
        edge (GetGraphViewer (Scenario.session_of Scenario.chain3)) u v ∧
        GetNode (GetGraphViewer (Scenario.session_of Scenario.chain3)) v
          = Some vnode ∧
        u ∈ InputNodes vnode ∧
        logic_stream_of pl v = Ok s ∧ logic_stream_of pl u ≠ Ok s ∧
        notification_of pl u = Some id ∧
        cs = Planner.GetComputeStreamForNode pl v ∧
        wait_owner wh = Planner.GetComputeStreamForNode pl u ∧
        wait_consumer wh = GetExecutionProviderType vnode.
Proof.
  split; [apply check_well_formed_sound; vm_compute; reflexivity|].
  split; [lia|].
  apply wait_stands_for_cross_edge; [|lia].
  apply check_well_formed_sound; vm_compute; reflexivity.
Defined.

(** X6.  Every wait has its notify: for a wait command in logic stream
    [s] there is a notify command with the same notification index in
    another logic stream [s'], issued on a device stream of [s'], and
    that device stream is the one the wait handle was asked for and the
    one recorded as the owner of the notification. *)
Theorem wait_has_matching_notify (ss : SessionState) (K : nat) :
  well_formed ss → 0 < K →
  ∃ pl, Planner.ParallelExecutionPlanImpl ss K = Ok pl ∧
    ∀ s ls wh cs id,
      Planner.plan_logic_streams pl !! s = Some ls →
      WaitCmd wh cs id ∈ commands_ ls →
      ∃ s' ls' h,
        s' ≠ s ∧ Planner.plan_logic_streams pl !! s' = Some ls' ∧
        NotifyCmd h id ∈ commands_ ls' ∧ h.1 = s' ∧
        wait_owner wh = Some h ∧
        Planner.plan_notification_owners pl !! id = Some (Some h).
Proof.
  intros Hwf HK. destruct (plan_total ss K Hwf HK) as (pl & b & Hpl & Hok).
  exists pl. split; [done|].
  intros s ls wh cs id. by eapply plan_wait_notified.
Qed.

Lemma wait_has_matching_notify_witness :
  well_formed (Scenario.session_of Scenario.diamond) ∧ 0 < 2 ∧
  ∃ pl,
    Planner.ParallelExecutionPlanImpl (Scenario.session_of Scenario.diamond) 2
      = Ok pl ∧
    ∀ s ls wh cs id,
      Planner.plan_logic_streams pl !! s = Some ls →
      WaitCmd wh cs id ∈ commands_ ls →
      ∃ s' ls' h,
        s' ≠ s ∧ Planner.plan_logic_streams pl !! s' = Some ls' ∧
        NotifyCmd h id ∈ commands_ ls' ∧ h.1 = s' ∧
        wait_owner wh = Some h ∧
        Planner.plan_notification_owners pl !! id = Some (Some h).
Proof.
  split; [apply check_well_formed_sound; vm_compute; reflexivity|].
  split; [lia|].
  apply wait_has_matching_notify; [|lia].
  apply check_well_formed_sound; vm_compute; reflexivity.
Defined.

(** X7.  The kernels a logic stream launches are its nodes, in the order
    of the topological sort: the [q]-th compute command of logic stream
    [s] launches the node at position [q * K + s] of the topological
    order, and over all logic streams every node of the view is launched
    once. *)
Theorem kernels_launched_in_topological_slots (ss : SessionState) (K : nat) :
  well_formed ss → 0 < K →
  ∃ pl, Planner.ParallelExecutionPlanImpl ss K = Ok pl ∧
    (∀ s ls,
       Planner.plan_logic_streams pl !! s = Some ls →
       Planner.nodes_in_stream (Planner.plan_partition pl) !! s
         = Some (launched (commands_ ls)) ∧
       ∀ q, launched (commands_ ls) !! q =
            GetNodesInTopologicalOrder (GetGraphViewer ss) !! (q * K + s)) ∧
    launched (all_commands pl) ≡ₚ
      GetNodesInTopologicalOrder (GetGraphViewer ss).
Proof.
  intros Hwf HK. destruct (plan_total ss K Hwf HK) as (pl & b & Hpl & Hok).
  exists pl. split; [done|]. split.
  - intros s ls. by eapply plan_launched.
  - by eapply plan_launched_all.
Qed.

Lemma kernels_launched_in_topological_slots_witness :
  well_formed (Scenario.session_of Scenario.diamond) ∧ 0 < 2 ∧
  ∃ pl,
    Planner.ParallelExecutionPlanImpl (Scenario.session_of Scenario.diamond) 2
      = Ok pl ∧
    (∀ s ls,
       Planner.plan_logic_streams pl !! s = Some ls →
       Planner.nodes_in_stream (Planner.plan_partition pl) !! s
         = Some (launched (commands_ ls)) ∧
       ∀ q, launched (commands_ ls) !! q =
            GetNodesInTopologicalOrder
              (GetGraphViewer (Scenario.session_of Scenario.diamond))
              !! (q * 2 + s)) ∧
    launched (all_commands pl) ≡ₚ
      GetNodesInTopologicalOrder
        (GetGraphViewer (Scenario.session_of Scenario.diamond)).
Proof.
  split; [apply check_well_formed_sound; vm_compute; reflexivity|].
  split; [lia|].
  apply kernels_launched_in_topological_slots; [|lia].
  apply check_well_formed_sound; vm_compute; reflexivity.
Defined.


(** ** What a constructor that returned has checked *)

Lemma foldM_steps {A B} (f : A → B → Result A) l a r x :
  foldM f l a = Ok r → x ∈ l → ∃ a1 a2, f a1 x = Ok a2.
Proof.
  revert a. induction l as [|y l IH]; intros a Hr Hx;
    [by apply elem_of_nil in Hx|].
  simpl in Hr. destruct (f a y) as [a'|] eqn:Hf; [|done]. simpl in Hr.
  apply elem_of_cons in Hx as [->|Hx]; eauto.
Qed.

(** The loops of passes 2 and 5: over the streams, and over the nodes
    of each stream. *)
Lemma nested_steps {A} (f : nat → list nat → A → nat → Result A)
    (nis : list (list nat)) K a r i nodes x :
  foldM (λ a i, nodes ← expect OutOfRange (nis !! i);
                foldM (f i nodes) nodes a) (seq 0 K) a = Ok r →
  i < K → nis !! i = Some nodes → x ∈ nodes →
  ∃ a1 a2, f i nodes a1 x = Ok a2.
Proof.
  intros Hr Hi Hnodes Hx.
  destruct (foldM_steps _ _ _ _ i Hr) as (a1 & a2 & Hstep).
  { apply elem_of_seq. lia. }
  rewrite Hnodes in Hstep. simpl in Hstep. by eapply foldM_steps.
Qed.

Lemma concat_replicate_nil {A} K : concat (replicate K (@nil A)) = [].
Proof. induction K as [|K IH]; [done|]. done. Qed.

Section constructor_checks.
Import Planner.
Context (ss : SessionState) (K : nat).
Local Abbreviation g := (GetGraphViewer ss).
Local Abbreviation topo := (GetNodesInTopologicalOrder (GetGraphViewer ss)).

(** What pass 3 asks of a node. *)
Local Abbreviation resolvable := (λ x : nat,
  ∃ node ep, GetNode g x = Some node ∧
             Get ss (GetExecutionProviderType node) = Some ep ∧
             is_Some (GetCreateStreamFn (registry ss) (Type_ ss ep))).

Lemma partition_checked p :
  partition g K = Ok p →
  length (nodes_in_stream p) = K ∧
  (∀ x, x ∈ concat (nodes_in_stream p) ↔ x ∈ topo) ∧
  ∀ x, x ∈ topo → is_Some (GetNode g x) ∧ x < MaxNodeIndex g.
Proof.
  unfold partition. intros Hp.
  apply (foldM_invariant _
           (λ pre p, length (nodes_in_stream p) = K ∧
                     length (node_stream_map p) = MaxNodeIndex g ∧
                     (∀ x, x ∈ concat (nodes_in_stream p) ↔ x ∈ pre) ∧
                     ∀ x, x ∈ pre → is_Some (GetNode g x) ∧ x < MaxNodeIndex g))
    in Hp; [by destruct Hp as (? & _ & ? & ?)| |].
  - unfold partition_init. simpl.
    rewrite !length_replicate, concat_replicate_nil.
    split; [done|]. split; [done|]. split; [done|].
    by intros ? ?%elem_of_nil.
  - intros pre x suf p1 p2 _ (Hlen & Hmap & Hel & Hpre) Hstep.
    unfold partition_step in Hstep.
    destruct (nodes_in_stream p1 !! stream_iter p1) as [nodes|] eqn:Hnodes;
      [|done].
    simpl in Hstep. destruct (GetNode g x) as [node|] eqn:Hnode; [|done].
    simpl in Hstep. case_decide as Hlt; [|done]. simplify_eq/=.
    rewrite length_insert, length_insert. split; [done|]. split; [done|].
    split.
    + intros y. rewrite (concat_insert_snoc _ _ _ _ Hnodes).
      rewrite elem_of_cons, elem_of_app, list_elem_of_singleton, Hel. tauto.
    + intros y [Hy| ->%list_elem_of_singleton]%elem_of_app; [eauto|].
      split; [by rewrite Hnode|lia].
Qed.

Lemma discover_checked (p : Partition) n u :
  discover g K p = Ok n →
  is_Some (node_to_notification n !! u) → u ∈ concat (nodes_in_stream p).
Proof.
  unfold discover. intros Hn. revert u.
  eapply (foldM_seq_invariant _
            (λ _ n, ∀ u, is_Some (node_to_notification n !! u) →
                         u ∈ concat (nodes_in_stream p))); [| |exact Hn].
  - simpl. intros u' [? Hu']. by rewrite lookup_empty in Hu'.
  - intros i n1 n2 _ Hn1 Hstep. simpl in Hstep.
    destruct (nodes_in_stream p !! i) as [nodes|] eqn:Hnodes; [|done].
    simpl in Hstep.
    eapply (foldM_invariant _
              (λ _ n, ∀ u, is_Some (node_to_notification n !! u) →
                           u ∈ concat (nodes_in_stream p)));
      [exact Hn1| |exact Hstep].
    intros pre x suf n3 n4 Hl Hn3 Hnode. unfold discover_node in Hnode.
    destruct (GetNode g x) as [node|]; [|done]. simpl in Hnode.
    destruct (existsb _ _); [|by injection Hnode as <-].
    injection Hnode as <-. simpl.
    intros u' Hu'. destruct (decide (u' = x)) as [->|Hne].
    + apply elem_of_concat. exists nodes.
      split; [|by eapply list_elem_of_lookup_2].
      rewrite Hl. apply elem_of_app. right. by left.
    + rewrite lookup_insert_ne in Hu' by done. eauto.
Qed.

Lemma bind_checked (p : Partition) streams b i nodes x :
  bind_streams ss K p streams = Ok b →
  i < K → nodes_in_stream p !! i = Some nodes → x ∈ nodes → resolvable x.
Proof.
  unfold bind_streams. intros Hb. revert i nodes x.
  eapply (foldM_seq_invariant _
            (λ i _, ∀ j nodes x, j < i → nodes_in_stream p !! j = Some nodes →
                                 x ∈ nodes → resolvable x)); [| |exact Hb].
  - intros j ? ? Hj. lia.
  - intros i b1 b2 _ Hdone Hstep. simpl in Hstep.
    destruct (nodes_in_stream p !! i) as [nodes|] eqn:Hnodes; [|done].
    simpl in Hstep.
    destruct (foldM (bind_node ss p i) nodes (∅, b1)) as [[providers b3]|]
      eqn:Hinner; [|done].
    assert ((∀ x, x ∈ nodes → resolvable x) ∧
            ∀ ep, ep ∈ providers →
              is_Some (GetCreateStreamFn (registry ss) (Type_ ss ep)))
      as [Hall _].
    { eapply (foldM_invariant _
                (λ pre st, (∀ x, x ∈ pre → resolvable x) ∧
                           ∀ ep, ep ∈ st.1 →
                             is_Some (GetCreateStreamFn (registry ss)
                                        (Type_ ss ep)))
                nodes (∅, b1) (providers, b3)); [| |exact Hinner].
      - split; [by intros ? ?%elem_of_nil|by intros ? ?%elem_of_empty].
      - intros pre x suf [pr1 b4] [pr2 b5] _ [Hpre Hprov] Hf. simpl in *.
        apply bind_node_inv in Hf as (node & ep & Hnode & Hep & Hcase & _).
        destruct Hcase as [(Hin & -> & _)|(_ & -> & fn & ? & Hfn & _)].
        + split; [|done].
          intros y [Hy| ->%list_elem_of_singleton]%elem_of_app; [eauto|].
          exists node, ep. eauto.
        + split.
          * intros y [Hy| ->%list_elem_of_singleton]%elem_of_app; [eauto|].
            exists node, ep. rewrite Hfn. eauto.
          * intros ep' [->%elem_of_singleton|Hin]%elem_of_union; [|eauto].
            by rewrite Hfn. }
    intros j nodes' x Hj Hnodes' Hx.
    destruct (decide (j = i)) as [->|Hne];
      [|apply (Hdone j nodes'); [lia|done..]].
    assert (nodes' = nodes) as -> by congruence. eauto.
Qed.

Lemma emit_checked (p : Partition) n owners m streams streams' i nodes x node u :
  emit ss K p n owners m streams = Ok streams' →
  i < K → nodes_in_stream p !! i = Some nodes → x ∈ nodes →
  GetNode g x = Some node → u ∈ InputNodes node → u ∉ nodes →
  is_Some (node_to_notification n !! u).
Proof.
  unfold emit. intros He Hi Hnodes Hx Hnode Hu Hnin.
  destruct (nested_steps (λ i nodes, emit_node ss n owners m nodes i)
              (nodes_in_stream p) K streams streams' i nodes x He Hi Hnodes Hx)
    as (a1 & a2 & Hstep).
  unfold emit_node in Hstep. rewrite Hnode in Hstep. simpl in Hstep.
  destruct (foldM _ (InputNodes node) a1) as [a3|] eqn:Hwaits; [|done].
  destruct (foldM_steps _ _ _ _ u Hwaits Hu) as (a4 & a5 & Hwait).
  unfold emit_wait, not_found in Hwait.
  rewrite bool_decide_eq_true_2 in Hwait by done.
  by destruct (node_to_notification n !! u).
Qed.

Lemma plan_checked pl x :
  ParallelExecutionPlanImpl ss K = Ok pl → x ∈ topo →
  x < MaxNodeIndex g ∧ resolvable x ∧
  ∀ node u, GetNode g x = Some node → u ∈ InputNodes node → u ∈ topo.
Proof.
  intros (b & Hp & Hn & Hb & _ & He & _)%plan_passes Hx.
  destruct (partition_checked _ Hp) as (Hlen & Hel & Hnodes).
  split; [by apply Hnodes|].
  pose proof Hx as Hx'. apply Hel, elem_of_concat in Hx' as (nodes & Hin & Hs).
  apply list_elem_of_lookup_1 in Hs as [i Hi].
  assert (i < K) as HiK by (rewrite <-Hlen; by eapply lookup_lt_Some).
  split; [by eapply bind_checked|].
  intros node u Hnode Hu. apply Hel.
  destruct (decide (u ∈ nodes)) as [Hun|Hun].
  - apply elem_of_concat. exists nodes. split; [done|].
    by eapply list_elem_of_lookup_2.
  - eapply discover_checked; [done|]. by eapply emit_checked.
Qed.
End constructor_checks.


(** X8.  A constructor that returns has resolved every node of the
    topological order: the index is below [MaxNodeIndex ()], [GetNode]
    gives a node, the node's provider type names a registered provider
    instance, and the registry has a [create_stream_fn] for that
    provider. *)
Theorem constructor_resolves_every_node (ss : SessionState) (K : nat)
    (pl : Planner.Plan) :
  Planner.ParallelExecutionPlanImpl ss K = Ok pl →
  ∀ x, x ∈ GetNodesInTopologicalOrder (GetGraphViewer ss) →
    x < MaxNodeIndex (GetGraphViewer ss) ∧
    ∃ node ep,
      GetNode (GetGraphViewer ss) x = Some node ∧
      Get ss (GetExecutionProviderType node) = Some ep ∧
      is_Some (GetCreateStreamFn (registry ss) (Type_ ss ep)).
Proof.
  intros Hpl x Hx.
  destruct (plan_checked ss K pl x Hpl Hx) as (Hlt & Hres & _). done.
Qed.

Lemma constructor_resolves_every_node_witness :
  ∃ pl,
    Planner.ParallelExecutionPlanImpl (Scenario.session_of Scenario.chain3) 2
      = Ok pl ∧
    ∀ x, x ∈ GetNodesInTopologicalOrder
               (GetGraphViewer (Scenario.session_of Scenario.chain3)) →
      x < MaxNodeIndex (GetGraphViewer (Scenario.session_of Scenario.chain3)) ∧
      ∃ node ep,
        GetNode (GetGraphViewer (Scenario.session_of Scenario.chain3)) x
          = Some node ∧
        Get (Scenario.session_of Scenario.chain3)
            (GetExecutionProviderType node) = Some ep ∧
        is_Some (GetCreateStreamFn
                   (registry (Scenario.session_of Scenario.chain3))
                   (Type_ (Scenario.session_of Scenario.chain3) ep)).
Proof.
  eexists. split; [vm_compute; reflexivity|].
  eapply (constructor_resolves_every_node _ 2). vm_compute. reflexivity.
Defined.

(** X9.  A constructor that returns has found every producer inside the
    view: each input node of a node of the topological order is itself
    in the topological order.  (For an input left out of the view the
    enforcement of pass 5 on [node_to_notification] stops the
    constructor.) *)
Theorem constructor_finds_producers_in_view (ss : SessionState) (K : nat)
    (pl : Planner.Plan) :
  Planner.ParallelExecutionPlanImpl ss K = Ok pl →
  ∀ x node u,
    x ∈ GetNodesInTopologicalOrder (GetGraphViewer ss) →
    GetNode (GetGraphViewer ss) x = Some node → u ∈ InputNodes node →
    u ∈ GetNodesInTopologicalOrder (GetGraphViewer ss).
Proof.
  intros Hpl x node u Hx Hnode Hu.
  destruct (plan_checked ss K pl x Hpl Hx) as (_ & _ & Hin). eauto.
Qed.

Lemma constructor_finds_producers_in_view_witness :
  ∃ pl,
    Planner.ParallelExecutionPlanImpl (Scenario.session_of Scenario.diamond) 2
      = Ok pl ∧
    ∀ x node u,
      x ∈ GetNodesInTopologicalOrder
            (GetGraphViewer (Scenario.session_of Scenario.diamond)) →
      GetNode (GetGraphViewer (Scenario.session_of Scenario.diamond)) x
        = Some node →
      u ∈ InputNodes node →
      u ∈ GetNodesInTopologicalOrder
            (GetGraphViewer (Scenario.session_of Scenario.diamond)).
Proof.
  eexists. split; [vm_compute; reflexivity|].
  eapply (constructor_finds_producers_in_view _ 2). vm_compute. reflexivity.
Defined.

(** X10.  Zero logic streams: on an empty view the constructor returns a
    plan without logic streams and without notifications; on any other
    view pass 1 indexes [nodes_in_stream], an array of no elements, for
    the first node. *)
Theorem zero_logic_streams (ss : SessionState) :
  Planner.ParallelExecutionPlanImpl ss 0 =
  match GetNodesInTopologicalOrder (GetGraphViewer ss) with
  | [] =>
      Ok {| Planner.plan_logic_streams := [];
            Planner.plan_num_logic_streams := 0;
            Planner.plan_notification_owners := [];
            Planner.plan_node_to_stream_map := ∅;
            Planner.plan_partition :=
              Planner.partition_init 0 (MaxNodeIndex (GetGraphViewer ss));
            Planner.plan_notifications :=
              {| Planner.node_to_notification := ∅;
                 Planner.num_notifications := 0 |} |}
  | _ :: _ => Fail OutOfRange
  end.
Proof.
  unfold Planner.ParallelExecutionPlanImpl, Planner.partition.
  destruct (GetNodesInTopologicalOrder (GetGraphViewer ss)) as [|x topo] eqn:Ht.
  - simpl. unfold Planner.set_owners. by rewrite Ht.
  - done.
Qed.


(** ** The execution context: constructor and destructor *)

Section context_round_trip.
Context (streams : list LogicStream) (owners : list (option StreamPtr)).

(** The cells the constructor has filled after [i] iterations. *)
Local Abbreviation filled := (λ (i : nat) (st : Exec.ExecutionContext * list Exec.Event),
  length (Exec.notifications st.1) = length owners ∧
  length (Exec.notification_release_fns st.1) = i ∧
  length st.2 = i ∧
  ∀ k, k < i →
    ∃ ptr s,
      owners !! k = Some (Some ptr) ∧ Exec.deref streams ptr = Some s ∧
      Exec.notifications st.1 !! k = Some (Some (notification_on s k)) ∧
      Exec.notification_release_fns st.1 !! k = Some ptr ∧
      st.2 !! k = Some (Exec.CreateNotification ptr
                          {| Exec.on_stream := handle s; Exec.serial := k |})).

Lemma context_step_filled i st st' :
  i < length owners → filled i st →
  Exec.ExecutionContext_step streams owners st i = Ok st' → filled (S i) st'.
Proof.
  destruct st as [ctx tr]. intros Hi (Hlen & Hfns & Htr & Hcells) Hstep.
  simpl in *.
  destruct (owners !! i) as [[ptr|]|] eqn:Ho; [|done..]. simpl in Hstep.
  destruct (Exec.deref streams ptr) as [s|] eqn:Hs; [|done]. simpl in Hstep.
  case_decide as Hlt; [|done]. injection Hstep as <-. simpl.
  rewrite length_insert, !length_app. simpl.
  split; [done|]. split; [lia|]. split; [lia|].
  intros k Hk. destruct (decide (k = i)) as [->|Hne].
  - exists ptr, s. split; [done|]. split; [done|].
    rewrite list_lookup_insert_eq by lia.
    split; [done|]. split.
    + rewrite lookup_app_r by lia. by rewrite Hfns, Nat.sub_diag.
    + rewrite lookup_app_r by lia. by rewrite Htr, Nat.sub_diag.
  - destruct (Hcells k) as (ptr' & s' & ? & ? & ? & ? & ?); [lia|].
    exists ptr', s'. split; [done|]. split; [done|].
    rewrite list_lookup_insert_ne by done.
    split; [done|]. split.
    + rewrite lookup_app_l by lia. done.
    + rewrite lookup_app_l by lia. done.
Qed.

Lemma context_filled ctx tr :
  Exec.ExecutionContext_new streams owners = Ok (ctx, tr) →
  filled (length owners) (ctx, tr).
Proof.
  unfold Exec.ExecutionContext_new. intros Hnew.
  eapply (foldM_seq_invariant _ filled); [| |exact Hnew].
  - simpl. rewrite length_replicate. split; [done|]. split; [done|].
    split; [done|]. intros k Hk. lia.
  - intros i st st' Hi Hst Hstep. by eapply context_step_filled.
Qed.

Lemma context_new_iff :
  (∃ ctx tr, Exec.ExecutionContext_new streams owners = Ok (ctx, tr)) ↔
  ∀ i, i < length owners →
    ∃ ptr s, owners !! i = Some (Some ptr) ∧ Exec.deref streams ptr = Some s.
Proof.
  split.
  - intros (ctx & tr & Hnew) i Hi.
    destruct (context_filled ctx tr Hnew) as (_ & _ & _ & Hcells).
    destruct (Hcells i Hi) as (ptr & s & ? & ? & _). eauto.
  - intros Hvalid.
    destruct (ExecutionContext_new_ok streams owners Hvalid)
      as (ctx & tr & Hnew & _).
    eauto.
Qed.

Lemma context_destroy ctx tr :
  Exec.ExecutionContext_new streams owners = Ok (ctx, tr) →
  ∃ tr', ExecutionContext_destroy ctx [] = Ok tr' ∧ Forall2 releases tr tr'.
Proof.
  intros Hnew.
  destruct (context_filled ctx tr Hnew) as (Hlen & Hfns & Htr & Hcells).
  simpl in *. unfold ExecutionContext_destroy. rewrite Hfns.
  destruct (foldM_seq_ind
              (λ tr i,
                 _ ← expect OutOfRange (Exec.notification_release_fns ctx !! i);
                 h ← Exec.notification_at ctx i;
                 Ok (tr ++ [Exec.ReleaseNotification h]))
              (λ i tr', Forall2 releases (take i tr) tr')
              (length owners) []) as (tr' & Hr & Hall).
  - simpl. constructor.
  - intros i tr1 Hi Htr1.
    destruct (Hcells i Hi) as (ptr & s & _ & _ & Hcell & Hfn & Hev).
    simpl. rewrite Hfn. simpl. unfold Exec.notification_at.
    rewrite Hcell. simpl. eexists. split; [done|].
    rewrite (take_S_r _ _ _ Hev). apply Forall2_app; [done|].
    constructor; [|constructor]. by eexists _, _.
  - exists tr'. split; [done|]. by rewrite <-Htr, firstn_all in Hall.
Qed.
End context_round_trip.


(** X11.  The constructor of [ExecutionContext], when it returns, has
    made one notification per entry of [notification_owners], in index
    order: no owner is null, cell [i] of [notifications] holds the
    handle created on the stream handle of owner [i] and the provider
    of owner [i], and [notification_release_fns[i]] is the release
    function of owner [i]. *)
Theorem context_new_fills_every_cell (streams : list LogicStream)
    (owners : list (option (nat * nat)))
    (ctx : Exec.ExecutionContext) (tr : list Exec.Event) :
  Exec.ExecutionContext_new streams owners = Ok (ctx, tr) →
  length (Exec.notifications ctx) = length owners ∧
  length (Exec.notification_release_fns ctx) = length owners ∧
  length tr = length owners ∧
  ∀ i, i < length owners →
    ∃ ptr s,
      owners !! i = Some (Some ptr) ∧ Exec.deref streams ptr = Some s ∧
      Exec.notifications ctx !! i = Some (Some (notification_on s i)) ∧
      Exec.notification_release_fns ctx !! i = Some ptr ∧
      tr !! i = Some (Exec.CreateNotification ptr
                        {| Exec.on_stream := handle s; Exec.serial := i |}).
Proof. intros Hnew. by apply (context_filled streams owners ctx tr). Qed.

Lemma context_new_fills_every_cell_witness :
  ∃ ctx tr,
    Exec.ExecutionContext_new [Scenario.two_device_streams]
      [Some (0, 1); Some (0, 0)] = Ok (ctx, tr) ∧
    length (Exec.notifications ctx) = 2 ∧
    length (Exec.notification_release_fns ctx) = 2 ∧
    length tr = 2 ∧
    ∀ i, i < 2 →
      ∃ ptr s,
        [Some (0, 1); Some (0, 0)] !! i = Some (Some ptr) ∧
        Exec.deref [Scenario.two_device_streams] ptr = Some s ∧
        Exec.notifications ctx !! i = Some (Some (notification_on s i)) ∧
        Exec.notification_release_fns ctx !! i = Some ptr ∧
        tr !! i = Some (Exec.CreateNotification ptr
                          {| Exec.on_stream := handle s; Exec.serial := i |}).
Proof.
  eexists _, _. split; [vm_compute; reflexivity|].
  apply (context_new_fills_every_cell [Scenario.two_device_streams]
           [Some (0, 1); Some (0, 0)]).
  vm_compute. reflexivity.
Defined.

(** X12.  Constructor and destructor of [ExecutionContext] pair up: the
    destructor of a context that was constructed calls a release
    function once for every notification the constructor created, in
    the order of creation, each with the handle that was created. *)
Theorem context_releases_what_it_created (streams : list LogicStream)
    (owners : list (option (nat * nat)))
    (ctx : Exec.ExecutionContext) (tr : list Exec.Event) :
  Exec.ExecutionContext_new streams owners = Ok (ctx, tr) →
  ∃ tr', ExecutionContext_destroy ctx [] = Ok tr' ∧ Forall2 releases tr tr'.
Proof. apply context_destroy. Qed.

Lemma context_releases_what_it_created_witness :
  ∃ ctx tr,
    Exec.ExecutionContext_new [Scenario.two_device_streams]
      [Some (0, 1); Some (0, 0)] = Ok (ctx, tr) ∧
    ∃ tr', ExecutionContext_destroy ctx [] = Ok tr' ∧ Forall2 releases tr tr'.
Proof.
  eexists _, _. split; [vm_compute; reflexivity|].
  apply (context_releases_what_it_created [Scenario.two_device_streams]
           [Some (0, 1); Some (0, 0)]).
  vm_compute. reflexivity.
Defined.


(** ** [LogicStream::Run]: the calls it makes *)

Section run_trace.
Context {Frame : Type} (ss : SessionState).
Context (kernel_Compute : nat → Frame → Exec.Status * Frame).
Local Abbreviation run_command := (Exec.run_command kernel_Compute).
Local Abbreviation Run := (Exec.Run ss kernel_Compute).

Lemma run_command_event ctx w c w' :
  run_command ctx w c = Ok w' →
  ∃ e, event_of ctx c = Ok e ∧ Exec.trace w' = Exec.trace w ++ [e].
Proof.
  destruct c as [wh cs id|x|h id]; simpl.
  - destruct (Exec.notification_at ctx id) as [nh|]; [|done]. simpl.
    intros [= <-]. by eexists.
  - destruct (kernel_Compute x (Exec.frame w)) as [st fr].
    destruct (Exec.IsOK st); [|done]. intros [= <-]. by eexists.
  - destruct (Exec.notification_at ctx id) as [nh|]; [|done]. simpl.
    intros [= <-]. by eexists.
Qed.

Lemma run_commands_events ctx cmds w w' :
  foldM (run_command ctx) cmds w = Ok w' →
  ∃ evs, Forall2 (λ c e, event_of ctx c = Ok e) cmds evs ∧
         Exec.trace w' = Exec.trace w ++ evs.
Proof.
  revert w. induction cmds as [|c cmds IH]; intros w Hr.
  - simpl in Hr. simplify_eq. exists []. split; [constructor|].
    by rewrite app_nil_r.
  - simpl in Hr.
    destruct (run_command ctx w c) as [w1|] eqn:Hc; [|done]. simpl in Hr.
    apply run_command_event in Hc as (e & He & Htr).
    destruct (IH w1 Hr) as (evs & Hall & Htr').
    exists (e :: evs). split; [by constructor|].
    by rewrite Htr', Htr, <-(assoc_L (++)).
Qed.

Lemma flush_trace (devs : list Stream) (w : Exec.World (Frame := Frame)) :
  Exec.trace
    (foldl (λ w device_stream,
              Exec.emit_event
                (Exec.FlushStream (Type_ ss (provider device_stream))
                                  (handle device_stream)) w)
           w devs) =
  Exec.trace w ++ (flush_of ss <$> devs).
Proof.
  revert w. induction devs as [|s devs IH]; intros w; simpl.
  - by rewrite app_nil_r.
  - rewrite IH. simpl. by rewrite <-(assoc_L (++)).
Qed.

Lemma run_events ls ctx w w' :
  Run ls ctx w = Ok w' →
  ∃ evs, Forall2 (λ c e, event_of ctx c = Ok e) (commands_ ls) evs ∧
         Exec.trace w' =
         Exec.trace w ++ evs ++ (flush_of ss <$> device_streams_ ls).
Proof.
  unfold Exec.Run. intros Hr.
  destruct (foldM (run_command ctx) (commands_ ls) w) as [w1|] eqn:Hc; [|done].
  simpl in Hr. injection Hr as <-.
  apply run_commands_events in Hc as (evs & Hall & Htr).
  exists evs. split; [done|]. by rewrite flush_trace, Htr, <-(assoc_L (++)).
Qed.

(** Commands whose notification indices the context can resolve. *)
Local Abbreviation resolved := (λ (ctx : Exec.ExecutionContext) (cmds : list Command),
  ∀ c idx, c ∈ cmds → captured_index c = Some idx →
           ∃ h, Exec.notification_at ctx idx = Ok h).



End run_trace.

(** X13.  A [Run] that returns has called the commands of the logic
    stream in the order of [commands_], each once, and after them has
    flushed every device stream of the logic stream once, in the order
    of [device_streams_]; it has made no other call. *)
Theorem run_calls_in_order {Frame : Type} (ss : SessionState)
    (kernel_Compute : nat → Frame → Exec.Status * Frame)
    (ls : LogicStream) (ctx : Exec.ExecutionContext) (w w' : Exec.World) :
  Exec.Run ss kernel_Compute ls ctx w = Ok w' →
  ∃ evs, Forall2 (λ c e, event_of ctx c = Ok e) (commands_ ls) evs ∧
         Exec.trace w' =
         Exec.trace w ++ evs ++ (flush_of ss <$> device_streams_ ls).
Proof. apply run_events. Qed.

Lemma run_calls_in_order_witness :
  ∃ w',
    Exec.Run (Scenario.session_of Scenario.chain3) (λ _ fr, (Exec.StatusOK, fr))
      Scenario.two_device_streams
      {| Exec.notifications := []; Exec.notification_release_fns := [] |}
      {| Exec.frame := (); Exec.trace := [] |} = Ok w' ∧
    ∃ evs,
      Forall2 (λ c e,
                 event_of {| Exec.notifications := [];
                             Exec.notification_release_fns := [] |} c = Ok e)
              (commands_ Scenario.two_device_streams) evs ∧
      Exec.trace w' =
      [] ++ evs ++ (flush_of (Scenario.session_of Scenario.chain3)
                      <$> device_streams_ Scenario.two_device_streams).
Proof.
  eexists. split; [vm_compute; reflexivity|].
  apply (run_calls_in_order (Scenario.session_of Scenario.chain3)
           (λ _ fr, (Exec.StatusOK, fr)) Scenario.two_device_streams
           {| Exec.notifications := []; Exec.notification_release_fns := [] |}
           {| Exec.frame := (); Exec.trace := [] |}).
  vm_compute. reflexivity.
Defined.




(** ** [Execute] when the tasks run while their iteration is alive *)

Section execute_runs.
Import Execute.
Context (K : nat).

Lemma runs_inv_init : runs_inv K (init K).
Proof.
  split; simpl.
  - constructor.
  - intros k r. split; [by intros ?%elem_of_nil|].
    intros (_ & t & Ht & _). by rewrite lookup_nil in Ht.
  - intros r. split; [by intros ?%elem_of_nil|by intros [_ ?]].
  - intros j [Hj _]%lookup_replicate. done.
  - unfold scheduled_so_far. simpl. split; [lia|done].
Qed.

Lemma dangling_mono s s' : step K s s' → dangling s' = false → dangling s = false.
Proof.
  intros Hstep Hd. destruct Hstep; simpl in *; try done.
  - by apply orb_false_iff in Hd as [? _].
  - by apply orb_false_iff in Hd as [? _].
Qed.

Lemma runs_inv_step s s' :
  step K s s' → tasks_inv s → dangling s' = false →
  runs_inv K s → runs_inv K s'.
Proof.
  intros Hstep Hti Hd [Hnd Htask Hmain Hbar Hpos].
  unfold scheduled_so_far in Hpos.
  destruct Hstep as [s i Hm Hi|s i Hm|s i Hm|s i Hm Hi|s Hm|s i Hm Hi Hb
                     |s i Hm Hi|s k t Hk Hpc|s k t r Hk Hpc];
    rewrite ?Hm in Hpos.
  - split; simpl; [done|done| |done|].
    + intros r. rewrite Hmain, Hm. done.
    + unfold scheduled_so_far. simpl. lia.
  - split; simpl; [done| | | |].
    + intros k r. rewrite Htask. destruct Hpos as [_ Hlen]. split.
      * intros (-> & t & Ht & Hpc). split; [done|]. exists t.
        split; [|done]. by apply lookup_app_l_Some.
      * intros (-> & t & Ht & Hpc). split; [done|]. exists t. split; [|done].
        apply lookup_app_Some in Ht as [Ht|[_ Ht]]; [done|].
        apply list_lookup_singleton_Some in Ht as [_ <-]. done.
    + intros r. rewrite Hmain, Hm. done.
    + intros j Hj. destruct (Hbar j Hj) as (t & Ht & Hpc). exists t.
      split; [|done]. by apply lookup_app_l_Some.
    + unfold scheduled_so_far. simpl. rewrite length_app. simpl. lia.
  - split; simpl; [done|done| |done|].
    + intros r. rewrite Hmain, Hm. done.
    + unfold scheduled_so_far. simpl. lia.
  - split; simpl; [done|done| |done|].
    + intros r. rewrite Hmain, Hm. done.
    + unfold scheduled_so_far. simpl. lia.
  - split; simpl; [| | |done|].
    + apply NoDup_app. split; [done|]. split; [|apply NoDup_singleton].
      intros x Hx ->%list_elem_of_singleton.
      apply Hmain in Hx as [_ Hx]. by rewrite Hm in Hx.
    + intros k r. rewrite elem_of_app, list_elem_of_singleton, Htask.
      split; [intros [?|?]; [done|done]|by left].
    + intros r. rewrite elem_of_app, list_elem_of_singleton, Hmain, Hm.
      simpl. split; [intros [[_ ?]|[= ->]]; done|intros [-> _]; by right].
    + unfold scheduled_so_far. simpl. done.
  - split; simpl; [done|done| |done|].
    + intros r. rewrite Hmain, Hm. done.
    + unfold scheduled_so_far. simpl. done.
  - split; simpl; [done|done| |done|].
    + intros r. rewrite Hmain, Hm. done.
    + unfold scheduled_so_far. simpl. done.
  - simpl in Hd. apply orb_false_iff in Hd as [Hd Hl].
    apply negb_false_iff, bool_decide_eq_true in Hl.
    pose proof (ti_captured _ Hti _ _ Hk) as Hcap. rewrite Hcap in Hl.
    pose proof (ti_live _ Hti _ Hl) as Hslot.
    split; simpl; rewrite ?Hslot; simpl.
    + apply NoDup_app. split; [done|]. split; [|apply NoDup_singleton].
      intros x Hx ->%list_elem_of_singleton.
      apply Htask in Hx as (_ & t' & Ht' & Hpc'). congruence.
    + intros k' r. rewrite elem_of_app, list_elem_of_singleton, Htask. split.
      * intros [(-> & t' & Ht' & Hpc')|[= -> ->]].
        -- split; [done|]. destruct (decide (k' = k)) as [->|Hne].
           ++ eexists. rewrite list_lookup_insert_eq by (by eapply lookup_lt_Some).
              done.
           ++ exists t'. by rewrite list_lookup_insert_ne.
        -- split; [done|]. eexists.
           rewrite list_lookup_insert_eq by (by eapply lookup_lt_Some). done.
      * intros (-> & t' & Ht' & Hpc').
        destruct (decide (k' = k)) as [->|Hne]; [by right|].
        left. split; [done|]. rewrite list_lookup_insert_ne in Ht' by done.
        eauto.
    + intros r. rewrite elem_of_app, list_elem_of_singleton, Hmain.
      split; [intros [?|?]; done|by left].
    + intros j Hj. destruct (Hbar j Hj) as (t' & Ht' & Hpc').
      exists t'. split; [|done]. rewrite list_lookup_insert_ne; [done|].
      intros ->. congruence.
    + unfold scheduled_so_far. simpl. rewrite length_insert. done.
  - simpl in Hd. apply orb_false_iff in Hd as [Hd Hl].
    apply negb_false_iff, bool_decide_eq_true in Hl.
    pose proof (ti_captured _ Hti _ _ Hk) as Hcap. rewrite Hcap in Hl.
    pose proof (ti_live _ Hti _ Hl) as Hslot.
    split; simpl; rewrite ?Hslot; simpl.
    + done.
    + intros k' r'. rewrite Htask. split.
      * intros (-> & t' & Ht' & Hpc'). split; [done|].
        destruct (decide (k' = k)) as [->|Hne].
        -- eexists. rewrite list_lookup_insert_eq by (by eapply lookup_lt_Some).
           done.
        -- exists t'. by rewrite list_lookup_insert_ne.
      * intros (-> & t' & Ht' & Hpc'). split; [done|].
        destruct (decide (k' = k)) as [->|Hne].
        -- exists t. split; [done|]. congruence.
        -- rewrite list_lookup_insert_ne in Ht' by done. eauto.
    + done.
    + intros j Hj. destruct (decide (j = k)) as [->|Hne].
      * eexists. rewrite list_lookup_insert_eq by (by eapply lookup_lt_Some).
        done.
      * rewrite list_lookup_insert_ne in Hj by done.
        destruct (Hbar j Hj) as (t' & Ht' & Hpc').
        exists t'. by rewrite list_lookup_insert_ne.
    + unfold scheduled_so_far. simpl. rewrite length_insert. done.
Qed.

Lemma runs_inv_reachable s :
  reachable K s → dangling s = false → runs_inv K s.
Proof.
  unfold reachable. revert s.
  apply (rtc_ind_r (λ s, dangling s = false → runs_inv K s)).
  - intros _. apply runs_inv_init.
  - intros s1 s2 Hrtc Hstep IH Hd. eapply runs_inv_step; [done| |done|].
    + by apply (tasks_inv_reachable K).
    + apply IH. by eapply dangling_mono.
Qed.

Lemma each_stream_once_NoDup : NoDup (each_stream_once K).
Proof.
  unfold each_stream_once. apply NoDup_app. split; [|split].
  - apply NoDup_fmap_2; [|apply NoDup_seq]. by intros k1 k2 [= ->].
  - by intros x (k & -> & _)%list_elem_of_fmap ?%list_elem_of_singleton.
  - apply NoDup_singleton.
Qed.

Lemma returned_runs s :
  reachable K s → dangling s = false → main s = Returned →
  runs s ≡ₚ each_stream_once K.
Proof.
  intros Hs Hd Hm.
  destruct (runs_inv_reachable s Hs Hd) as [Hnd Htask Hmain Hbar Hpos].
  unfold scheduled_so_far in Hpos. rewrite Hm in Hpos.
  apply NoDup_Permutation; [done|apply each_stream_once_NoDup|].
  intros [[|k] r]; unfold each_stream_once;
    rewrite elem_of_app, list_elem_of_singleton, list_elem_of_fmap.
  - rewrite Hmain, Hm. simpl. split.
    + intros [-> _]. by right.
    + intros [(k & ? & _)|[= ->]]; done.
  - rewrite Htask. split.
    + intros (-> & t & Ht & _). left. exists k. split; [done|].
      apply elem_of_seq. apply lookup_lt_Some in Ht. lia.
    + intros [(k' & [= -> ->] & Hk%elem_of_seq)|?]; [|done].
      split; [done|].
      destruct (Hbar k') as (t & Ht & Hpc).
      { apply (returns_after_barriers K s Hs Hm). lia. }
      exists t. split; [done|]. by rewrite Hpc.
Qed.
End execute_runs.


(** X15.  [Execute] without a read of a dead loop variable is right:
    if every task has read [stream] and [barrier] while the iteration
    that scheduled it was alive, then by the time [Execute] returns
    every logic stream has been run exactly once, logic stream [k] for
    [k < K - 1] by the [k]-th scheduled task and the last logic stream
    by the calling thread. *)
Theorem execute_runs_each_stream_once (K : nat) (s : Execute.State) :
  0 < K → Execute.reachable K s → Execute.dangling s = false →
  Execute.main s = Execute.Returned →
  Execute.runs s ≡ₚ each_stream_once K.
Proof. intros _. apply returned_runs. Qed.

Lemma execute_runs_each_stream_once_witness :
  0 < 3 ∧ Execute.reachable 3 returned_inline ∧
  Execute.dangling returned_inline = false ∧
  Execute.main returned_inline = Execute.Returned ∧
  Execute.runs returned_inline ≡ₚ each_stream_once 3.
Proof.
  assert (Execute.reachable 3 returned_inline) as Hs.
  { unfold Execute.reachable, Execute.init, returned_inline. simpl.
    exec_step Execute.step_enter.
    exec_step Execute.step_schedule.
    exec_step (Execute.step_task_run 3 _ 0).
    exec_step (Execute.step_task_set 3 _ 0).
    exec_step Execute.step_leave.
    exec_step Execute.step_enter.
    exec_step Execute.step_schedule.
    exec_step (Execute.step_task_run 3 _ 1).
    exec_step (Execute.step_task_set 3 _ 1).
    exec_step Execute.step_leave.
    exec_step Execute.step_exit.
    exec_step Execute.step_run_last.
    exec_step Execute.step_wait.
    exec_step Execute.step_wait.
    exec_step Execute.step_return.
    apply rtc_refl. }
  split; [lia|]. split; [done|]. split; [done|]. split; [done|].
  apply execute_runs_each_stream_once; [lia|done..].
Defined.

(** X16.  [Execute] returns only when every one of the [K - 1] barriers
    has been set, whatever the tasks have read and in whatever order
    the pool has run them. *)
Theorem execute_returns_after_every_barrier (K : nat) (s : Execute.State) :
  Execute.reachable K s → Execute.main s = Execute.Returned →
  ∀ j, j < K - 1 → Execute.barriers s !! j = Some true.
Proof.
  intros Hs. by apply (Execute.ei_returned _ _ (execute_inv_reachable K s Hs)).
Qed.

Lemma execute_returns_after_every_barrier_witness :
  Execute.reachable 3 returned_inline ∧
  Execute.main returned_inline = Execute.Returned ∧
  ∀ j, j < 3 - 1 → Execute.barriers returned_inline !! j = Some true.
Proof.
  assert (Execute.reachable 3 returned_inline) as Hs.
  { unfold Execute.reachable, Execute.init, returned_inline. simpl.
    exec_step Execute.step_enter.
    exec_step Execute.step_schedule.
    exec_step (Execute.step_task_run 3 _ 0).
    exec_step (Execute.step_task_set 3 _ 0).
    exec_step Execute.step_leave.
    exec_step Execute.step_enter.
    exec_step Execute.step_schedule.
    exec_step (Execute.step_task_run 3 _ 1).
    exec_step (Execute.step_task_set 3 _ 1).
    exec_step Execute.step_leave.
    exec_step Execute.step_exit.
    exec_step Execute.step_run_last.
    exec_step Execute.step_wait.
    exec_step Execute.step_wait.
    exec_step Execute.step_return.
    apply rtc_refl. }
  split; [done|]. split; [done|].
  by apply execute_returns_after_every_barrier.
Defined.


(** ** Running the logic streams of a plan *)

Lemma computed_events ctx (cmds : list Command) (evs : list Exec.Event) :
  Forall2 (λ c e, event_of ctx c = Ok e) cmds evs →
  computed evs = launched cmds.
Proof.
  induction 1 as [|c e cmds evs He _ IH]; [done|].
  unfold computed, launched in *.
  destruct c as [wh cs id|x|h id]; simpl in He.
  - destruct (Exec.notification_at ctx id); simplify_eq/=. done.
  - simplify_eq/=. by f_equal.
  - destruct (Exec.notification_at ctx id); simplify_eq/=. done.
Qed.

(** X17.  What a logic stream of a plan computes when it is run: a
    [Run] of logic stream [s] that returns has launched the kernels of
    the nodes assigned to [s], each once and in the order of the
    topological sort (the [q]-th launch is the node at position
    [q * K + s]), and has then flushed the device streams of [s]. *)
Theorem planned_run_computes_in_order (ss : SessionState) (K : nat) :
  well_formed ss → 0 < K →
  ∃ pl ctx tr,
    Planner.ParallelExecutionPlanImpl ss K = Ok pl ∧
    Exec.ExecutionContext_new (Planner.plan_logic_streams pl)
      (Planner.plan_notification_owners pl) = Ok (ctx, tr) ∧
    ∀ (Frame : Type) (kernel_Compute : nat → Frame → Exec.Status * Frame)
      s ls (w w' : Exec.World),
      Planner.plan_logic_streams pl !! s = Some ls →
      Exec.Run ss kernel_Compute ls ctx w = Ok w' →
      ∃ evs,
        Exec.trace w' =
          Exec.trace w ++ evs ++ (flush_of ss <$> device_streams_ ls) ∧
        Planner.nodes_in_stream (Planner.plan_partition pl) !! s
          = Some (computed evs) ∧
        ∀ q, computed evs !! q =
             GetNodesInTopologicalOrder (GetGraphViewer ss) !! (q * K + s).
Proof.
  intros Hwf HK. destruct (plan_total ss K Hwf HK) as (pl & b & Hpl & Hok).
  destruct (ExecutionContext_new_ok (Planner.plan_logic_streams pl)
              (Planner.plan_notification_owners pl))
    as (ctx & tr & Hctx & _).
  { intros id Hid.
    destruct (plan_owner ss K b pl HK Hok id Hid)
      as (x & ptr & st & _ & _ & ? & _ & ?).
    eauto. }
  exists pl, ctx, tr. split; [done|]. split; [done|].
  intros Frame kernel_Compute s ls w w' Hls Hrun.
  apply run_events in Hrun as (evs & Hall & Htr).
  exists evs. split; [done|].
  rewrite (computed_events ctx (commands_ ls) evs Hall).
  by apply (plan_launched ss K b pl Hwf Hok).
Qed.

Lemma planned_run_computes_in_order_witness :
  well_formed (Scenario.session_of Scenario.diamond) ∧ 0 < 2 ∧
  ∃ pl ctx tr,
    Planner.ParallelExecutionPlanImpl (Scenario.session_of Scenario.diamond) 2
      = Ok pl ∧
    Exec.ExecutionContext_new (Planner.plan_logic_streams pl)
      (Planner.plan_notification_owners pl) = Ok (ctx, tr) ∧
    ∀ (Frame : Type) (kernel_Compute : nat → Frame → Exec.Status * Frame)
      s ls (w w' : Exec.World),
      Planner.plan_logic_streams pl !! s = Some ls →
      Exec.Run (Scenario.session_of Scenario.diamond) kernel_Compute ls ctx w
        = Ok w' →
      ∃ evs,
        Exec.trace w' =
          Exec.trace w ++ evs ++
          (flush_of (Scenario.session_of Scenario.diamond)
             <$> device_streams_ ls) ∧
        Planner.nodes_in_stream (Planner.plan_partition pl) !! s
          = Some (computed evs) ∧
        ∀ q, computed evs !! q =
             GetNodesInTopologicalOrder
               (GetGraphViewer (Scenario.session_of Scenario.diamond))
               !! (q * 2 + s).
Proof.
  split; [apply check_well_formed_sound; vm_compute; reflexivity|].
  split; [lia|].
  apply planned_run_computes_in_order; [|lia].
  apply check_well_formed_sound; vm_compute; reflexivity.
Defined.


(** ** Pass 3: the order of the device streams *)

Section binding_order.
Import Planner.
Context (ss : SessionState) (p : Partition).
Local Abbreviation nis := (nodes_in_stream p).

(** The device streams of every logic stream against the nodes bound
    so far. *)
Local Abbreviation in_first_use := (λ (i : nat) (pre : list nat) (b : Binding),
  ∀ j ls, logic_streams_ b !! j = Some ls →
          providers_of ls = first_use ss (bound_nodes nis i pre j)).

Lemma first_use_snoc pre x ep :
  node_ep ss x = Some ep →
  first_use ss (pre ++ [x]) =
  if decide (ep ∈ first_use ss pre) then first_use ss pre
  else first_use ss pre ++ [ep].
Proof. intros Hx. unfold first_use. rewrite foldl_app. simpl. by rewrite Hx. Qed.

Lemma bind_node_order i pre providers b x providers' b' :
  bind_node ss p i (providers, b) x = Ok (providers', b') →
  providers_match i providers b → in_first_use i pre b →
  in_first_use i (pre ++ [x]) b'.
Proof.
  intros (node & ep & Hnode & Hep & Hcase & _)%bind_node_inv Hprov Hord.
  assert (node_ep ss x = Some ep) as Hx.
  { unfold node_ep. by rewrite Hnode. }
  assert (∀ j, j ≠ i → bound_nodes nis i (pre ++ [x]) j = bound_nodes nis i pre j)
    as Hother.
  { intros j Hj. unfold bound_nodes. by repeat case_decide. }
  assert (bound_nodes nis i (pre ++ [x]) i = pre ++ [x] ∧
          bound_nodes nis i pre i = pre) as [Hbi Hbi'].
  { unfold bound_nodes. destruct (decide (i < i)); [lia|].
    by destruct (decide (i = i)). }
  destruct Hcase as [(Hin & -> & Hs)|(Hin & -> & fn & ls & Hfn & Hls & Hs)].
  - intros j ls' Hj. rewrite Hs in Hj.
    destruct (decide (j = i)) as [->|Hne]; [|rewrite Hother by done; eauto].
    rewrite Hbi, (first_use_snoc pre x ep Hx).
    apply Hprov in Hin as (ls0 & Hls0 & Hin).
    assert (ls0 = ls') as -> by congruence.
    pose proof (Hord i ls' Hj) as Ho. rewrite Hbi' in Ho.
    rewrite <-Ho. by rewrite decide_True.
  - intros j ls' Hj. rewrite Hs in Hj.
    destruct (decide (j = i)) as [->|Hne].
    + rewrite list_lookup_alter_eq, Hls in Hj. simplify_eq/=.
      rewrite Hbi, (first_use_snoc pre x ep Hx).
      pose proof (Hord i ls Hls) as Ho. rewrite Hbi' in Ho.
      rewrite <-Ho. rewrite decide_False.
      * unfold providers_of. simpl. by rewrite fmap_app.
      * intros Hin'. apply Hin, Hprov. eauto.
    + rewrite list_lookup_alter_ne in Hj by done.
      rewrite Hother by done. eauto.
Qed.

Lemma bind_streams_order K streams b :
  (∀ ls, ls ∈ streams → device_streams_ ls = []) →
  bind_streams ss K p streams = Ok b →
  in_first_use K [] b.
Proof.
  intros Hempty Hb. unfold bind_streams in Hb.
  cut (streams_ok ss nis K [] b ∧ later_empty K b ∧ in_first_use K [] b).
  { by intros (_ & _ & ?). }
  eapply (foldM_seq_invariant _
            (λ i b, streams_ok ss nis i [] b ∧ later_empty i b ∧
                    in_first_use i [] b)); [| |exact Hb].
  - assert (∀ j ls, streams !! j = Some ls → device_streams_ ls = []) as Hnil.
    { intros j ls Hj. apply Hempty. by eapply list_elem_of_lookup_2. }
    split; [split|split]; simpl.
    + intros j ls Hj. unfold providers_of. rewrite (Hnil j ls Hj). constructor.
    + intros j ls ep Hj. unfold providers_of. rewrite (Hnil j ls Hj). simpl.
      unfold bound_nodes. rewrite decide_False by lia.
      split; [by intros ?%elem_of_nil|].
      intros (x & Hx & _). case_decide; by apply elem_of_nil in Hx.
    + intros j ls _ Hj. eauto.
    + intros j ls Hj. unfold providers_of. rewrite (Hnil j ls Hj).
      unfold bound_nodes. rewrite decide_False by lia. by case_decide.
  - intros i b1 b2 Hi (Hok & Hlater & Hord) Hstep. simpl in Hstep.
    destruct (nodes_in_stream p !! i) as [nodes|] eqn:Hnodes; [|done].
    simpl in Hstep.
    destruct (foldM (bind_node ss p i) nodes (∅, b1)) as [[providers b3]|]
      eqn:Hinner; [|done].
    simpl in Hstep. injection Hstep as <-.
    assert (∀ j, bound_nodes nis (S i) [] j =
                 if decide (j = i) then bound_nodes nis i nodes j
                 else bound_nodes nis i [] j) as Hnext.
    { intros j. unfold bound_nodes.
      repeat case_decide; try lia; subst; try reflexivity.
      by rewrite Hnodes. }
    assert (streams_ok ss nis i nodes b3 ∧ providers_match i providers b3 ∧
            later_empty (S i) b3 ∧ in_first_use i nodes b3)
      as ([Hnd Hused] & _ & Hlater' & Hord').
    { eapply (foldM_invariant _
                (λ pre st, streams_ok ss nis i pre st.2 ∧
                           providers_match i st.1 st.2 ∧
                           later_empty (S i) st.2 ∧
                           in_first_use i pre st.2)
                nodes (∅, b1) (providers, b3)); [| |exact Hinner].
      - simpl. split; [done|]. split; [|split; [|done]].
        + intros ep. split; [by intros ?%elem_of_empty|].
          intros (ls & Hls & Hin). unfold providers_of in Hin.
          rewrite (Hlater i ls) in Hin by done. by apply elem_of_nil in Hin.
        + intros j ls Hj. apply Hlater. lia.
      - intros pre x suf [pr1 b4] [pr2 b5] _ (Hok1 & Hprov1 & Hlater1 & Hord1) Hf.
        simpl in *.
        destruct (bind_node_shape ss p i pre pr1 b4 x pr2 b5 Hf Hok1 Hprov1 Hlater1)
          as (? & ? & ?).
        split; [done|]. split; [done|]. split; [done|].
        by eapply bind_node_order. }
    split; [split|split]; [done| |done|].
    + intros j ls ep Hj. rewrite (Hused j ls ep Hj), (Hnext j).
      case_decide; [by subst|].
      unfold bound_nodes. by repeat case_decide.
    + intros j ls Hj. rewrite (Hord' j ls Hj), (Hnext j).
      case_decide; [by subst|].
      unfold bound_nodes. by repeat case_decide.
Qed.
End binding_order.


(** X18.  The device streams of a logic stream stand in the order in
    which the nodes of the stream first use their provider instances:
    the first node's provider comes first, and a later node adds a
    device stream at the end exactly if no earlier node of the stream
    runs on its provider instance.  ([Run] flushes and the destructor
    releases in this order.) *)
Theorem device_streams_in_order_of_first_use (ss : SessionState) (K : nat) :
  well_formed ss → 0 < K →
  ∃ pl, Planner.ParallelExecutionPlanImpl ss K = Ok pl ∧
    ∀ s ls nodes,
      Planner.plan_logic_streams pl !! s = Some ls →
      Planner.nodes_in_stream (Planner.plan_partition pl) !! s = Some nodes →
      providers_of ls = first_use ss nodes.
Proof.
  intros Hwf HK.
  destruct (plan_total_bound ss K Hwf HK) as (pl & b & Hpl & Hok & Hb).
  exists pl. split; [done|]. intros s ls nodes Hls Hnodes.
  pose proof (plan_lookup_lt ss K b pl Hok s ls Hls) as Hs.
  destruct (plan_stream ss K b pl Hok s Hs)
    as (ls' & nodes' & ls0 & Hls' & Hnodes' & Hls0 & Hdevs & _).
  assert (ls' = ls) as -> by congruence.
  assert (nodes' = nodes) as -> by congruence.
  pose proof (bind_streams_order ss (Planner.plan_partition pl) K
                (replicate K empty_logic_stream) b) as Hord.
  assert (∀ ls1, ls1 ∈ replicate K empty_logic_stream →
                 device_streams_ ls1 = []) as Hnil.
  { by intros ls1 [-> _]%elem_of_replicate. }
  unfold providers_of in *. rewrite Hdevs, (Hord Hnil Hb s ls0 Hls0).
  unfold bound_nodes. rewrite decide_True by done. by rewrite Hnodes.
Qed.

Lemma device_streams_in_order_of_first_use_witness :
  well_formed (Scenario.session_of Scenario.chain3) ∧ 0 < 1 ∧
  ∃ pl,
    Planner.ParallelExecutionPlanImpl (Scenario.session_of Scenario.chain3) 1
      = Ok pl ∧
    ∀ s ls nodes,
      Planner.plan_logic_streams pl !! s = Some ls →
      Planner.nodes_in_stream (Planner.plan_partition pl) !! s = Some nodes →
      providers_of ls = first_use (Scenario.session_of Scenario.chain3) nodes.
Proof.
  split; [apply check_well_formed_sound; vm_compute; reflexivity|].
  split; [lia|].
  apply device_streams_in_order_of_first_use; [|lia].
  apply check_well_formed_sound; vm_compute; reflexivity.
Defined.


(** ** Notifications nobody would wait for *)

Section waited_facts.
Import Planner.
Context (ss : SessionState) (K : nat) (b : Binding) (pl : Plan).
Context (Hwf : well_formed ss) (HK : 0 < K) (Hpl : plan_ok ss K b pl).
Local Abbreviation g := (GetGraphViewer ss).
Local Abbreviation topo := (GetNodesInTopologicalOrder (GetGraphViewer ss)).
Local Abbreviation p := (plan_partition pl).

Lemma plan_notification_waited x id :
  notification_of pl x = Some id →
  ∃ v s ls wh cs,
    edge g x v ∧ logic_stream_of pl v = Ok s ∧ logic_stream_of pl x ≠ Ok s ∧
    plan_logic_streams pl !! s = Some ls ∧ WaitCmd wh cs id ∈ commands_ ls.
Proof.
  intros Hid. pose proof (pk_partition _ _ _ _ Hpl) as Hp.
  pose proof (pk_notifications _ _ _ _ Hpl) as Hn.
  pose proof Hid as Hprod. apply (no_map _ _ Hn) in Hprod.
  apply list_elem_of_lookup_2, producers_elem in Hprod
    as (nodes & [sx Hsx]%list_elem_of_lookup_1 & Hx & Hcross).
  assert (x ∈ topo) as Hxt by (eapply po_elem_topo; eauto).
  unfold crosses in Hcross.
  destruct (GetNode g x) as [node|] eqn:Hnode; [|done].
  apply Is_true_true, existsb_exists in Hcross as (v & Hv%list_elem_of_In & Hnf).
  destruct (wf_outputs _ Hwf x node v Hxt Hnode Hv) as (Hvt & vnode & Hvnode & Hin).
  assert (edge g x v) as Hedge.
  { split; [done|]. split; [done|]. eauto. }
  destruct (plan_edge_waits ss K b pl Hwf HK Hpl x v Hedge)
    as (su & sv & ls & Hsu & Hsv & Hls & Hcrossing & _).
  pose proof (po_stream_of K topo p HK Hp _ _ _ Hsx Hx) as Hsx'.
  assert (su = sx) as -> by (unfold logic_stream_of in Hsu; congruence).
  assert (sx ≠ sv) as Hne.
  { intros ->. apply (po_not_found K topo p HK Hp _ _ _ Hsx Hvt) in Hnf.
    by apply Hnf. }
  destruct (Hcrossing Hne) as (id' & Hid' & a & c & wh & cs & Ha & _).
  assert (id' = id) as -> by (unfold notification_of in *; congruence).
  exists v, sv, ls, wh, cs. split; [done|]. split; [done|].
  split; [unfold logic_stream_of in *; congruence|]. split; [done|].
  by eapply list_elem_of_lookup_2.
Qed.
End waited_facts.

(** X19.  No notification is made in vain: for every notification of
    the plan, the node that produces it has an out-edge to a node [v]
    of another logic stream, and the command list of [v]'s logic stream
    holds a wait command with the index of the notification. *)
Theorem every_notification_is_waited_for (ss : SessionState) (K : nat) :
  well_formed ss → 0 < K →
  ∃ pl, Planner.ParallelExecutionPlanImpl ss K = Ok pl ∧
    ∀ id, id < length (Planner.plan_notification_owners pl) →
      ∃ x v s ls wh cs,
        notification_of pl x = Some id ∧ edge (GetGraphViewer ss) x v ∧
        logic_stream_of pl v = Ok s ∧ logic_stream_of pl x ≠ Ok s ∧
        Planner.plan_logic_streams pl !! s = Some ls ∧
        WaitCmd wh cs id ∈ commands_ ls.
Proof.
  intros Hwf HK. destruct (plan_total ss K Hwf HK) as (pl & b & Hpl & Hok).
  exists pl. split; [done|]. intros id Hid.
  destruct (plan_owner ss K b pl HK Hok id Hid) as (x & _ & _ & Hx & _).
  destruct (plan_notification_waited ss K b pl Hwf HK Hok x id Hx)
    as (v & s & ls & wh & cs & ?).
  by exists x, v, s, ls, wh, cs.
Qed.

Lemma every_notification_is_waited_for_witness :
  well_formed (Scenario.session_of Scenario.chain4) ∧ 0 < 2 ∧
  ∃ pl,
    Planner.ParallelExecutionPlanImpl (Scenario.session_of Scenario.chain4) 2
      = Ok pl ∧
    ∀ id, id < length (Planner.plan_notification_owners pl) →
      ∃ x v s ls wh cs,
        notification_of pl x = Some id ∧
        edge (GetGraphViewer (Scenario.session_of Scenario.chain4)) x v ∧
        logic_stream_of pl v = Ok s ∧ logic_stream_of pl x ≠ Ok s ∧
        Planner.plan_logic_streams pl !! s = Some ls ∧
        WaitCmd wh cs id ∈ commands_ ls.
Proof.
  split; [apply check_well_formed_sound; vm_compute; reflexivity|].
  split; [lia|].
  apply every_notification_is_waited_for; [|lia].
  apply check_well_formed_sound; vm_compute; reflexivity.
Defined.


(** ** The schedule written by the constructor *)

Lemma print_cell_spec i acc has col :
  print_cell i (acc, has) col =
  (acc ++ [cell i col], has || bool_decide (i < length col)).
Proof.
  unfold print_cell, cell. simpl. destruct (col !! i) as [s|] eqn:Hs.
  - apply lookup_lt_Some in Hs.
    by rewrite bool_decide_eq_true_2, orb_true_r by done.
  - apply lookup_ge_None in Hs.
    by rewrite bool_decide_eq_false_2, orb_false_r by lia.
Qed.

Lemma print_row_cells cols i :
  print_row cols i =
  (cell i <$> cols, bool_decide (i < max_list (length <$> cols))).
Proof.
  unfold print_row.
  cut (∀ acc has, foldl (print_cell i) (acc, has) cols =
         (acc ++ (cell i <$> cols),
          has || bool_decide (i < max_list (length <$> cols)))).
  { intros H. by rewrite H. }
  induction cols as [|col cols IH]; intros acc has; simpl.
  - by rewrite app_nil_r, orb_false_r.
  - rewrite print_cell_spec, IH, <-(assoc_L (++)). simpl. f_equal.
    rewrite <-orb_assoc. f_equal.
    change (list_fmap _ _ length cols) with (length <$> cols).
    apply eq_bool_prop_intro. rewrite orb_True, !bool_decide_spec. lia.
Qed.

Lemma print_rows_from cols fuel i :
  i ≤ max_list (length <$> cols) → max_list (length <$> cols) - i < fuel →
  print_rows fuel cols i =
  Some ((λ i, cell i <$> cols) <$> seq i (S (max_list (length <$> cols)) - i)).
Proof.
  revert i. induction fuel as [|fuel IH]; intros i Hi Hfuel; [lia|].
  simpl. rewrite print_row_cells.
  destruct (decide (i < max_list (length <$> cols))) as [Hlt|Hge].
  - rewrite bool_decide_eq_true_2 by done. rewrite IH by lia.
    simpl. f_equal.
    replace (S (max_list (length <$> cols)) - i)
      with (S (S (max_list (length <$> cols)) - S i)) by lia.
    done.
  - rewrite bool_decide_eq_false_2 by done.
    replace (S (max_list (length <$> cols)) - i) with 1 by lia. done.
Qed.

Lemma max_list_le (ns : list nat) m :
  (∀ n, n ∈ ns → n ≤ m) → max_list ns ≤ m.
Proof.
  induction ns as [|n ns IH]; intros Hall; simpl; [lia|].
  pose proof (Hall n ltac:(by left)).
  pose proof (IH (λ n' Hn', Hall n' ltac:(by right))). lia.
Qed.

Section dump_facts.
Import Planner.
Context (g : GraphViewer) (K : nat).

Lemma stdout_follows_partition l p0 p :
  foldM (partition_step g K) l p0 = Ok p →
  foldM (stdout_step g K) l
        (op_types g <$> nodes_in_stream p0, stream_iter p0)
  = Ok (op_types g <$> nodes_in_stream p, stream_iter p).
Proof.
  revert p0. induction l as [|x l IH]; intros p0 Hp.
  - simpl in Hp. by simplify_eq.
  - simpl in Hp.
    destruct (partition_step g K p0 x) as [p1|] eqn:Hstep; [|done].
    simpl in Hp. simpl.
    assert (stdout_step g K (op_types g <$> nodes_in_stream p0, stream_iter p0) x
            = Ok (op_types g <$> nodes_in_stream p1, stream_iter p1)) as ->.
    { unfold partition_step in Hstep. unfold stdout_step. simpl.
      rewrite list_lookup_fmap.
      destruct (nodes_in_stream p0 !! stream_iter p0) as [nodes|]; [|done].
      simpl in *. destruct (GetNode g x) as [node|] eqn:Hnode; [|done].
      simpl in *. case_decide; [|done]. simplify_eq/=.
      rewrite list_fmap_insert. unfold op_types. rewrite omap_app. simpl.
      by rewrite Hnode. }
    simpl. by apply IH.
Qed.

Lemma streams_stdout_of_partition p :
  partition g K = Ok p →
  streams_stdout g K = Ok (op_types g <$> nodes_in_stream p).
Proof.
  unfold partition, streams_stdout. intros Hp.
  apply stdout_follows_partition in Hp. simpl in Hp.
  rewrite fmap_replicate in Hp. simpl in Hp. by rewrite Hp.
Qed.
End dump_facts.


Section dump_plan.
Import Planner.
Context (ss : SessionState) (K : nat) (b : Binding) (pl : Plan).
Context (Hwf : well_formed ss) (HK : 0 < K) (Hpl : plan_ok ss K b pl).
Local Abbreviation g := (GetGraphViewer ss).
Local Abbreviation topo := (GetNodesInTopologicalOrder (GetGraphViewer ss)).
Local Abbreviation p := (plan_partition pl).

Lemma op_types_length s nodes :
  nodes_in_stream p !! s = Some nodes →
  length (op_types g nodes) = length nodes.
Proof.
  intros Hs.
  assert (∀ x, x ∈ nodes → is_Some (GetNode g x)) as Hall.
  { intros x Hx. by eapply plan_node_exists. }
  clear Hs. unfold op_types.
  induction nodes as [|x nodes IH]; [done|].
  simpl. destruct (Hall x ltac:(by left)) as [node ->]. simpl.
  f_equal. apply IH. intros y Hy. apply Hall. by right.
Qed.

Lemma first_stream_longest nodes0 s nodes :
  nodes_in_stream p !! 0 = Some nodes0 →
  nodes_in_stream p !! s = Some nodes →
  length nodes ≤ length nodes0.
Proof.
  intros H0 Hs. pose proof (pk_partition _ _ _ _ Hpl) as Hp.
  destruct (decide (length nodes = 0)) as [|Hne]; [lia|].
  destruct (lookup_lt_is_Some_2 nodes (length nodes - 1)) as [y Hy]; [lia|].
  rewrite (po_slot _ _ _ Hp _ _ _ Hs) in Hy. apply lookup_lt_Some in Hy.
  destruct (lookup_lt_is_Some_2 topo ((length nodes - 1) * K + 0)) as [z Hz];
    [lia|].
  rewrite <-(po_slot _ _ _ Hp _ _ _ H0) in Hz. apply lookup_lt_Some in Hz. lia.
Qed.

Lemma plan_dump :
  ∃ nodes0,
    nodes_in_stream p !! 0 = Some nodes0 ∧
    max_list (length <$> (op_types g <$> nodes_in_stream p)) = length nodes0.
Proof.
  pose proof (pk_partition _ _ _ _ Hpl) as Hp.
  destruct (lookup_lt_is_Some_2 (nodes_in_stream p) 0) as [nodes0 H0].
  { rewrite (po_length _ _ _ Hp). lia. }
  exists nodes0. split; [done|]. apply (anti_symm (≤)).
  - apply max_list_le. intros n (col & -> & Hcol)%list_elem_of_fmap.
    apply list_elem_of_fmap in Hcol as (nodes & -> & Hin).
    apply list_elem_of_lookup_1 in Hin as [s Hs].
    rewrite (op_types_length s nodes Hs). by eapply first_stream_longest.
  - apply max_list_elem_of_le. apply list_elem_of_fmap.
    exists (op_types g nodes0). split; [by rewrite (op_types_length 0)|].
    apply list_elem_of_fmap. exists nodes0. split; [done|].
    by eapply list_elem_of_lookup_2.
Qed.
End dump_plan.


(** X20.  The loop that writes the schedule ends: it writes one row for
    every position up to the length of the longest column and one more
    row, which is blank; row [i] holds, for every column, the shaped
    text of the column's [i]-th entry or blanks. *)
Theorem schedule_rows_end (cols : list (list string)) (fuel : nat) :
  max_list (length <$> cols) < fuel →
  print_rows fuel cols 0 =
  Some ((λ i, cell i <$> cols) <$> seq 0 (S (max_list (length <$> cols)))).
Proof.
  intros Hfuel. rewrite (print_rows_from cols fuel 0) by lia.
  by rewrite Nat.sub_0_r.
Qed.

Lemma schedule_rows_end_witness :
  max_list (length <$> [["Conv"; "Relu"]; ["MatMulInteger"]]) < 3 ∧
  print_rows 3 [["Conv"; "Relu"]; ["MatMulInteger"]] 0 =
  Some ((λ i, cell i <$> [["Conv"; "Relu"]; ["MatMulInteger"]])
          <$> seq 0 (S (max_list
                          (length <$> [["Conv"; "Relu"]; ["MatMulInteger"]])))).
Proof.
  split; [vm_compute; lia|].
  apply schedule_rows_end. vm_compute. lia.
Defined.

(** X21.  The schedule of a plan: pass 1 leaves in [streams_stdout] the
    op types of the nodes of each logic stream, logic stream 0 has the
    most nodes, and the schedule has one row for each node position of
    logic stream 0 and a last, blank row. *)
Theorem schedule_of_plan (ss : SessionState) (K : nat) :
  well_formed ss → 0 < K →
  ∃ pl cols nodes0,
    Planner.ParallelExecutionPlanImpl ss K = Ok pl ∧
    streams_stdout (GetGraphViewer ss) K = Ok cols ∧
    cols = op_types (GetGraphViewer ss)
             <$> Planner.nodes_in_stream (Planner.plan_partition pl) ∧
    Planner.nodes_in_stream (Planner.plan_partition pl) !! 0 = Some nodes0 ∧
    (∀ s nodes,
       Planner.nodes_in_stream (Planner.plan_partition pl) !! s = Some nodes →
       length nodes ≤ length nodes0) ∧
    ∀ fuel, length nodes0 < fuel →
      print_rows fuel cols 0 =
      Some ((λ i, cell i <$> cols) <$> seq 0 (S (length nodes0))).
Proof.
  intros Hwf HK. destruct (plan_total ss K Hwf HK) as (pl & b & Hpl & Hok).
  destruct (plan_passes ss K pl Hpl) as (_ & Hp & _).
  destruct (plan_dump ss K b pl Hwf HK Hok) as (nodes0 & H0 & Hmax).
  eexists pl, _, nodes0. split; [done|].
  split; [by apply streams_stdout_of_partition|].
  split; [done|]. split; [done|]. split.
  - intros s nodes. by apply (first_stream_longest ss K b pl HK Hok).
  - intros fuel Hfuel. rewrite <-Hmax. apply print_rows_from; lia.
Qed.

Lemma schedule_of_plan_witness :
  well_formed (Scenario.session_of Scenario.chain3) ∧ 0 < 2 ∧
  ∃ pl cols nodes0,
    Planner.ParallelExecutionPlanImpl (Scenario.session_of Scenario.chain3) 2
      = Ok pl ∧
    streams_stdout (GetGraphViewer (Scenario.session_of Scenario.chain3)) 2
      = Ok cols ∧
    cols = op_types (GetGraphViewer (Scenario.session_of Scenario.chain3))
             <$> Planner.nodes_in_stream (Planner.plan_partition pl) ∧
    Planner.nodes_in_stream (Planner.plan_partition pl) !! 0 = Some nodes0 ∧
    (∀ s nodes,
       Planner.nodes_in_stream (Planner.plan_partition pl) !! s = Some nodes →
       length nodes ≤ length nodes0) ∧
    ∀ fuel, length nodes0 < fuel →
      print_rows fuel cols 0 =
      Some ((λ i, cell i <$> cols) <$> seq 0 (S (length nodes0))).
Proof.
  split; [apply check_well_formed_sound; vm_compute; reflexivity|].
  split; [lia|].
  apply schedule_of_plan; [|lia].
  apply check_well_formed_sound; vm_compute; reflexivity.
Defined.


(** ** [Execute] with one logic stream *)

Section execute_single.
Import Execute.

Local Abbreviation alone := (λ s : State,
  tasks s = [] ∧ dangling s = false ∧
  match main s with
  | LoopHead 0 | RunLast => runs s = []
  | WaitLoop _ | Returned => runs s = [(MainThread, 0)]
  | _ => False
  end).

Lemma alone_step s s' : step 1 s s' → alone s → alone s'.
Proof.
  intros Hstep (Ht & Hd & Hm).
  destruct Hstep as [s i Hm' Hi|s i Hm'|s i Hm'|s i Hm' Hi|s Hm'|s i Hm' Hi Hb
                     |s i Hm' Hi|s k t Hk Hpc|s k t r Hk Hpc];
    rewrite ?Hm' in Hm; simpl in *; try lia; try done.
  - by destruct i.
  - by rewrite Hm.
  - by rewrite Ht in Hk.
  - by rewrite Ht in Hk.
Qed.

Lemma alone_reachable s : reachable 1 s → alone s.
Proof.
  unfold reachable. revert s. apply (rtc_ind_r alone).
  - done.
  - intros s1 s2 _ Hstep IH. by eapply alone_step.
Qed.
End execute_single.

(** X22.  With one logic stream [Execute] schedules no task on the
    pool, so no task can read a dead loop variable; when it returns,
    the calling thread has run logic stream 0, once, and nothing else
    has run. *)
Theorem single_stream_execute (s : Execute.State) :
  Execute.reachable 1 s →
  Execute.tasks s = [] ∧ Execute.dangling s = false ∧
  (Execute.main s = Execute.Returned →
   Execute.runs s = [(Execute.MainThread, 0)]).
Proof.
  intros (Ht & Hd & Hm)%alone_reachable. split; [done|]. split; [done|].
  intros Hr. by rewrite Hr in Hm.
Qed.

Lemma single_stream_execute_witness :
  Execute.reachable 1 returned_alone ∧
  Execute.tasks returned_alone = [] ∧
  Execute.dangling returned_alone = false ∧
  (Execute.main returned_alone = Execute.Returned →
   Execute.runs returned_alone = [(Execute.MainThread, 0)]).
Proof.
  assert (Execute.reachable 1 returned_alone) as Hs.
  { unfold Execute.reachable, Execute.init, returned_alone. simpl.
    exec_step Execute.step_exit.
    exec_step Execute.step_run_last.
    exec_step Execute.step_return.
    apply rtc_refl. }
  split; [done|]. by apply single_stream_execute.
Defined.


(** ** Registration of the stream handlers *)

Lemma RegisterStreamCommandHanler_registered eps pr :
  registered (RegisterStreamCommandHanler eps pr) = registered pr ++ eps.
Proof.
  unfold RegisterStreamCommandHanler. revert pr.
  induction eps as [|ep eps IH]; intros pr; simpl.
  - by rewrite app_nil_r.
  - rewrite IH. simpl. by rewrite <-(assoc_L (++)).
Qed.

Lemma constructors_registered sessions pr :
  populate_command_handle_flag pr = true →
  constructors sessions pr = pr.
Proof.
  unfold constructors. induction sessions as [|eps sessions IH]; [done|].
  intros Hflag. simpl. unfold register_once at 2. rewrite Hflag. by apply IH.
Qed.

(** X23.  The stream handlers are registered for the first session
    only: in a process that constructs plans for several sessions, the
    first constructor calls [RegisterStreamHandlers] once on each
    execution provider of its session, in their order, and no later
    constructor registers anything, whatever providers its session
    has. *)
Theorem handlers_registered_for_first_session_only
    (first : list nat) (later : list (list nat)) (pr : Process) :
  populate_command_handle_flag pr = false →
  registered (constructors (first :: later) pr) = registered pr ++ first ∧
  populate_command_handle_flag (constructors (first :: later) pr) = true.
Proof.
  intros Hflag. unfold constructors. simpl.
  fold (constructors later (register_once first pr)).
  rewrite constructors_registered.
  - unfold register_once. rewrite Hflag. simpl.
    by rewrite RegisterStreamCommandHanler_registered.
  - unfold register_once. by rewrite Hflag.
Qed.

Lemma handlers_registered_for_first_session_only_witness :
  populate_command_handle_flag
    {| populate_command_handle_flag := false; registered := [] |} = false ∧
  registered
    (constructors ([0; 1] :: [[2]; [0; 3]])
       {| populate_command_handle_flag := false; registered := [] |})
    = registered {| populate_command_handle_flag := false; registered := [] |}
      ++ [0; 1] ∧
  populate_command_handle_flag
    (constructors ([0; 1] :: [[2]; [0; 3]])
       {| populate_command_handle_flag := false; registered := [] |}) = true.
Proof.
  split; [reflexivity|].
  apply handlers_registered_for_first_session_only. reflexivity.
Defined.


(** ** More on the partition and on the commands *)

Section balance_facts.
Import Planner.
Context (K : nat) (topo : list nat) (p : Partition).
Context (HK : 0 < K) (Hp : partition_ok K topo p).

Lemma partition_balanced s s' l l' :
  s ≤ s' →
  nodes_in_stream p !! s = Some l → nodes_in_stream p !! s' = Some l' →
  length l' ≤ length l ∧ length l ≤ S (length l').
Proof.
  intros Hss Hl Hl'.
  pose proof (po_lookup_lt K topo p Hp _ _ Hl') as Hs'K.
  split.
  - destruct (decide (length l' = 0)) as [|Hne]; [lia|].
    destruct (lookup_lt_is_Some_2 l' (length l' - 1)) as [y Hy]; [lia|].
    rewrite (po_slot _ _ _ Hp _ _ _ Hl') in Hy. apply lookup_lt_Some in Hy.
    destruct (lookup_lt_is_Some_2 topo ((length l' - 1) * K + s)) as [z Hz];
      [lia|].
    rewrite <-(po_slot _ _ _ Hp _ _ _ Hl) in Hz. apply lookup_lt_Some in Hz.
    lia.
  - destruct (decide (length l ≤ 1)) as [|Hne]; [lia|].
    destruct (lookup_lt_is_Some_2 l (length l - 1)) as [y Hy]; [lia|].
    rewrite (po_slot _ _ _ Hp _ _ _ Hl) in Hy. apply lookup_lt_Some in Hy.
    destruct (lookup_lt_is_Some_2 topo ((length l - 2) * K + s')) as [z Hz].
    { assert ((length l - 2) * K + K = (length l - 1) * K) by nia. lia. }
    rewrite <-(po_slot _ _ _ Hp _ _ _ Hl') in Hz. apply lookup_lt_Some in Hz.
    lia.
Qed.
End balance_facts.

(** X24.  Round robin keeps the logic streams balanced: a logic stream
    never has more nodes than one with a smaller index, and the node
    counts of two logic streams differ by at most one. *)
Theorem partition_is_balanced (ss : SessionState) (K : nat) :
  well_formed ss → 0 < K →
  ∃ pl, Planner.ParallelExecutionPlanImpl ss K = Ok pl ∧
    ∀ s s' l l',
      s ≤ s' →
      Planner.nodes_in_stream (Planner.plan_partition pl) !! s = Some l →
      Planner.nodes_in_stream (Planner.plan_partition pl) !! s' = Some l' →
      length l' ≤ length l ∧ length l ≤ S (length l').
Proof.
  intros Hwf HK. destruct (plan_total ss K Hwf HK) as (pl & b & Hpl & Hok).
  exists pl. split; [done|]. intros s s' l l'.
  by apply (partition_balanced K _ _ HK (pk_partition _ _ _ _ Hok)).
Qed.

Lemma partition_is_balanced_witness :
  well_formed (Scenario.session_of Scenario.chain3) ∧ 0 < 2 ∧
  ∃ pl,
    Planner.ParallelExecutionPlanImpl (Scenario.session_of Scenario.chain3) 2
      = Ok pl ∧
    ∀ s s' l l',
      s ≤ s' →
      Planner.nodes_in_stream (Planner.plan_partition pl) !! s = Some l →
      Planner.nodes_in_stream (Planner.plan_partition pl) !! s' = Some l' →
      length l' ≤ length l ∧ length l ≤ S (length l').
Proof.
  split; [apply check_well_formed_sound; vm_compute; reflexivity|].
  split; [lia|].
  apply partition_is_balanced; [|lia].
  apply check_well_formed_sound; vm_compute; reflexivity.
Defined.

(** X25.  The command list of a logic stream, node by node: for the
    nodes of the stream in their order, one wait for every input of the
    node that is not in the stream (in the order of the inputs), then
    the compute command of the node, then the notify command if the
    node has a notification; and nothing else. *)
Theorem commands_node_by_node (ss : SessionState) (K : nat) :
  well_formed ss → 0 < K →
  ∃ pl, Planner.ParallelExecutionPlanImpl ss K = Ok pl ∧
    ∀ s ls,
      Planner.plan_logic_streams pl !! s = Some ls →
      ∃ nodes,
        Planner.nodes_in_stream (Planner.plan_partition pl) !! s = Some nodes ∧
        commands_ ls =
        concat
          ((λ x,
              match GetNode (GetGraphViewer ss) x with
              | Some node =>
                  omap (wait_for (Planner.plan_notifications pl)
                          (Planner.plan_notification_owners pl)
                          (Planner.plan_node_to_stream_map pl) nodes x node)
                       (InputNodes node)
                  ++ ComputeCmd x
                     :: notify_for ss (Planner.plan_notifications pl)
                          (device_streams_ ls) s x
              | None => []
              end) <$> nodes).
Proof.
  intros Hwf HK. destruct (plan_total ss K Hwf HK) as (pl & b & Hpl & Hok).
  exists pl. split; [done|]. intros s ls Hls.
  destruct (plan_commands ss K b pl Hok s ls Hls) as (nodes & Hnodes & Hcmds).
  exists nodes. split; [done|]. rewrite Hcmds, (pk_map _ _ _ _ Hok). done.
Qed.

Lemma commands_node_by_node_witness :
  well_formed (Scenario.session_of Scenario.diamond) ∧ 0 < 2 ∧
  ∃ pl,
    Planner.ParallelExecutionPlanImpl (Scenario.session_of Scenario.diamond) 2
      = Ok pl ∧
    ∀ s ls,
      Planner.plan_logic_streams pl !! s = Some ls →
      ∃ nodes,
        Planner.nodes_in_stream (Planner.plan_partition pl) !! s = Some nodes ∧
        commands_ ls =
        concat
          ((λ x,
              match GetNode (GetGraphViewer
                               (Scenario.session_of Scenario.diamond)) x with
              | Some node =>
                  omap (wait_for (Planner.plan_notifications pl)
                          (Planner.plan_notification_owners pl)
                          (Planner.plan_node_to_stream_map pl) nodes x node)
                       (InputNodes node)
                  ++ ComputeCmd x
                     :: notify_for (Scenario.session_of Scenario.diamond)
                          (Planner.plan_notifications pl)
                          (device_streams_ ls) s x
              | None => []
              end) <$> nodes).
Proof.
  split; [apply check_well_formed_sound; vm_compute; reflexivity|].
  split; [lia|].
  apply commands_node_by_node; [|lia].
  apply check_well_formed_sound; vm_compute; reflexivity.
Defined.

(** X26.  At run time a wait blocks on the handle its producer signals:
    in the context constructed from the plan's owners, the notification
    index captured by any wait or notify command of the plan resolves to
    the handle that was created on the device stream bound to the node
    that produces the notification. *)
Theorem commands_use_producer_notification (ss : SessionState) (K : nat) :
  well_formed ss → 0 < K →
  ∃ pl ctx tr,
    Planner.ParallelExecutionPlanImpl ss K = Ok pl ∧
    Exec.ExecutionContext_new (Planner.plan_logic_streams pl)
      (Planner.plan_notification_owners pl) = Ok (ctx, tr) ∧
    ∀ s ls c id,
      Planner.plan_logic_streams pl !! s = Some ls → c ∈ commands_ ls →
      captured_index c = Some id →
      ∃ x ptr st,
        notification_of pl x = Some id ∧
        Planner.GetComputeStreamForNode pl x = Some ptr ∧
        Exec.deref (Planner.plan_logic_streams pl) ptr = Some st ∧
        Exec.notification_at ctx id =
          Ok {| Exec.on_stream := handle st; Exec.serial := id |}.
Proof.
  intros Hwf HK. destruct (plan_total ss K Hwf HK) as (pl & b & Hpl & Hok).
  destruct (ExecutionContext_new_ok (Planner.plan_logic_streams pl)
              (Planner.plan_notification_owners pl))
    as (ctx & tr & Hctx & _).
  { intros id Hid.
    destruct (plan_owner ss K b pl HK Hok id Hid)
      as (x & ptr & st & _ & _ & ? & _ & ?).
    eauto. }
  exists pl, ctx, tr. split; [done|]. split; [done|].
  intros s ls c id Hls Hc Hid.
  pose proof (plan_index_bound ss K b pl Hok s ls c id Hls Hc Hid) as Hlt.
  destruct (plan_owner ss K b pl HK Hok id Hlt)
    as (x & ptr & st & Hx & _ & Ho & Hget & Hst).
  destruct (context_filled _ _ ctx tr Hctx) as (_ & _ & _ & Hcells).
  destruct (Hcells id Hlt) as (ptr' & st' & Ho' & Hst' & Hcell & _).
  simpl in Hcell. assert (ptr' = ptr) as -> by congruence.
  assert (st' = st) as -> by congruence.
  exists x, ptr, st. split; [done|]. split; [done|]. split; [done|].
  unfold Exec.notification_at. by rewrite Hcell.
Qed.

Lemma commands_use_producer_notification_witness :
  well_formed (Scenario.session_of Scenario.chain3) ∧ 0 < 2 ∧
  ∃ pl ctx tr,
    Planner.ParallelExecutionPlanImpl (Scenario.session_of Scenario.chain3) 2
      = Ok pl ∧
    Exec.ExecutionContext_new (Planner.plan_logic_streams pl)
      (Planner.plan_notification_owners pl) = Ok (ctx, tr) ∧
    ∀ s ls c id,
      Planner.plan_logic_streams pl !! s = Some ls → c ∈ commands_ ls →
      captured_index c = Some id →
      ∃ x ptr st,
        notification_of pl x = Some id ∧
        Planner.GetComputeStreamForNode pl x = Some ptr ∧
        Exec.deref (Planner.plan_logic_streams pl) ptr = Some st ∧
        Exec.notification_at ctx id =
          Ok {| Exec.on_stream := handle st; Exec.serial := id |}.
Proof.
  split; [apply check_well_formed_sound; vm_compute; reflexivity|].
  split; [lia|].
  apply commands_use_producer_notification; [|lia].
  apply check_well_formed_sound; vm_compute; reflexivity.
Defined.
